(** * jsqlon: a SQLite database kept in step with a JSON text backup

    A shallow embedding of [jsqlon/database.py] (class [Database]) and the
    properties of its reconciliation pass, statement builders, schema
    parser, backup codec and content fingerprint.

    Conventions of the embedding.
    - A Python [str] is a Rocq [string]; every [ascii] stands for one code
      point below 256 (the Latin-1 range, which CPython stores one byte per
      character).
    - A Python [int] is a [Z].  A Python [float] is carried by its [repr]
      text (the shortest decimal text that reads back as the same float).
    - A Python [dict] is an association list in insertion order with
      string keys; assignment to an existing key keeps the key's position.
    - Code that raises returns [Raise e]; code that works on the file
      system, the SQLite engine or a mutable object threads a state. *)

From Stdlib Require Import ZArith String Ascii List Lia Bool.
From Stdlib Require Import DecimalString DecimalZ DecimalPos DecimalN DecimalFacts.
From stdpp Require Import base option list strings gmap.

Local Open Scope Z_scope.

#[local] Set Warnings "-register-all".

(** ** Exceptions and results *)

Inductive exn : Type :=
| NoResults            (* jsqlon.database.NoResults *)
| MalformedSQL (sql : string) (* Exception('Malformed SQL from db: ...') *)
| ValueError
| TypeError
| AttributeError
| KeyError
| JSONDecodeError
| SqliteError (stmt : string) (* sqlite3.Error raised for a statement *)
| FileNotFoundError.

Inductive result (A : Type) : Type :=
| Ok (a : A)
| Raise (e : exn).
Arguments Ok {A} a.
Arguments Raise {A} e.

Definition rbind {A B} (r : result A) (f : A -> result B) : result B :=
  match r with
  | Ok a => f a
  | Raise e => Raise e
  end.

Fixpoint rmap {A B} (f : A -> result B) (l : list A) : result (list B) :=
  match l with
  | [] => Ok []
  | x :: l' =>
      rbind (f x) (fun y => rbind (rmap f l') (fun ys => Ok (y :: ys)))
  end.


(** ** Python values *)

Inductive pyval : Type :=
| PNone
| PBool (b : bool)
| PInt (z : Z)
| PFloat (r : string)
| PStr (s : string)
| PList (l : list pyval)
| PDict (d : list (string * pyval)).

Abbreviation pydict := (list (string * pyval)).

(** [d.get(k)], [d[k] = v] and [del d[k]] on an insertion-ordered dict. *)
Fixpoint dict_get {V} (k : string) (d : list (string * V)) : option V :=
  match d with
  | [] => None
  | (k', v) :: d' => if String.eqb k k' then Some v else dict_get k d'
  end.

Fixpoint dict_set {V} (k : string) (v : V) (d : list (string * V))
  : list (string * V) :=
  match d with
  | [] => [(k, v)]
  | (k', v') :: d' =>
      if String.eqb k k' then (k', v) :: d' else (k', v') :: dict_set k v d'
  end.

Fixpoint dict_del {V} (k : string) (d : list (string * V))
  : list (string * V) :=
  match d with
  | [] => []
  | (k', v') :: d' =>
      if String.eqb k k' then d' else (k', v') :: dict_del k d'
  end.

Definition dict_keys {V} (d : list (string * V)) : list string := map fst d.
Definition dict_values {V} (d : list (string * V)) : list V := map snd d.

(** [dict(pairs)]: later pairs overwrite earlier ones in place. *)
Definition dict_of_pairs {V} (l : list (string * V)) : list (string * V) :=
  fold_left (fun d kv => dict_set (fst kv) (snd kv) d) l [].

(** Truth value of an object, as tested by [if x:]. *)
Definition truthy (v : pyval) : bool :=
  match v with
  | PNone => false
  | PBool b => b
  | PInt z => negb (z =? 0)
  | PFloat r => negb (String.eqb r "0.0" || String.eqb r "-0.0")
  | PStr s => negb (String.eqb s "")
  | PList l => match l with [] => false | _ => true end
  | PDict d => match d with [] => false | _ => true end
  end.

(** ** Text of values: [str] and [repr] *)

(** [str.join] *)
Fixpoint join (sep : string) (l : list string) : string :=
  match l with
  | [] => ""
  | [x] => x
  | x :: l' => x +:+ sep +:+ join sep l'
  end.

(** [int.__repr__]: decimal digits, with a leading minus sign when negative. *)
Definition int_repr (z : Z) : string := NilZero.string_of_int (Z.to_int z).

(** The double quote character. *)
Definition DQ : ascii := "034"%char.

Definition hex_digit (n : N) : ascii :=
  if (n <? 10)%N then ascii_of_N (48 + n) else ascii_of_N (87 + n).

(** Code points below 256 that [str.isprintable] rejects. *)
Definition is_printable (c : ascii) : bool :=
  let n := N_of_ascii c in
  negb ((n <? 32)%N || ((127 <=? n)%N && (n <=? 160)%N) || (n =? 173)%N).

Fixpoint contains_char (c : ascii) (s : string) : bool :=
  match s with
  | EmptyString => false
  | String c' s' => Ascii.eqb c c' || contains_char c s'
  end.

Fixpoint repr_escape (quote : ascii) (s : string) : string :=
  match s with
  | EmptyString => EmptyString
  | String c s' =>
      let rest := repr_escape quote s' in
      if Ascii.eqb c quote || Ascii.eqb c "\" then String "\" (String c rest)
      else if Ascii.eqb c "009" then String "\" (String "t" rest)
      else if Ascii.eqb c "010" then String "\" (String "n" rest)
      else if Ascii.eqb c "013" then String "\" (String "r" rest)
      else if is_printable c then String c rest
      else
        let n := N_of_ascii c in
        String "\" (String "x"
          (String (hex_digit (n / 16)) (String (hex_digit (n mod 16)) rest)))
  end.

(** [str.__repr__]: single quotes unless the text has a single quote and no
    double quote. *)
Definition str_repr (s : string) : string :=
  let quote : ascii :=
    if contains_char "'" s && negb (contains_char DQ s) then DQ
    else "'"%char in
  String quote (repr_escape quote s +:+ String quote EmptyString).

Fixpoint py_repr (v : pyval) : string :=
  match v with
  | PNone => "None"
  | PBool true => "True"
  | PBool false => "False"
  | PInt z => int_repr z
  | PFloat r => r
  | PStr s => str_repr s
  | PList l => "[" +:+ join ", " (map py_repr l) +:+ "]"
  | PDict d =>
      "{" +:+
      join ", " (map (fun kv => str_repr (fst kv) +:+ ": " +:+ py_repr (snd kv)) d)
      +:+ "}"
  end.

(** [str(v)], also what an f-string field [{v}] produces. *)
Definition py_str (v : pyval) : string :=
  match v with
  | PStr s => s
  | _ => py_repr v
  end.

(** ** The built-in [hash] of a [str] (CPython: SipHash-1-3, keyed per process) *)

Definition mask64 : Z := 2 ^ 64 - 1.
Definition w64 (x : Z) : Z := Z.land x mask64.
Definition rotl64 (x b : Z) : Z :=
  w64 (Z.lor (Z.shiftl x b) (Z.shiftr x (64 - b))).

Record sipstate : Type := Sip { v0 : Z; v1 : Z; v2 : Z; v3 : Z }.

Definition single_round (s : sipstate) : sipstate :=
  let '(Sip a b c d) := s in
  (* HALF_ROUND(v0,v1,v2,v3,13,16) *)
  let a := w64 (a + b) in
  let c := w64 (c + d) in
  let b := Z.lxor (rotl64 b 13) a in
  let d := Z.lxor (rotl64 d 16) c in
  let a := rotl64 a 32 in
  (* HALF_ROUND(v2,v1,v0,v3,17,21) *)
  let c := w64 (c + b) in
  let a := w64 (a + d) in
  let b := Z.lxor (rotl64 b 17) c in
  let d := Z.lxor (rotl64 d 21) a in
  let c := rotl64 c 32 in
  Sip a b c d.

Definition sip_absorb (s : sipstate) (m : Z) : sipstate :=
  let s := Sip (v0 s) (v1 s) (v2 s) (Z.lxor (v3 s) m) in
  let s := single_round s in
  Sip (Z.lxor (v0 s) m) (v1 s) (v2 s) (v3 s).

(** Little-endian value of at most eight bytes. *)
Fixpoint le_bytes (l : list Z) : Z :=
  match l with
  | [] => 0
  | b :: l' => b + 256 * le_bytes l'
  end.

Fixpoint sip_blocks (fuel : nat) (s : sipstate) (l : list Z)
  : sipstate * list Z :=
  match fuel with
  | O => (s, l)
  | S fuel' =>
      if (8 <=? length l)%nat
      then sip_blocks fuel' (sip_absorb s (le_bytes (take 8 l))) (drop 8 l)
      else (s, l)
  end.

Definition siphash13 (k0 k1 : Z) (src : list Z) : Z :=
  let b := w64 (Z.shiftl (Z.of_nat (length src)) 56) in
  let s := Sip (Z.lxor k0 0x736f6d6570736575) (Z.lxor k1 0x646f72616e646f6d)
               (Z.lxor k0 0x6c7967656e657261) (Z.lxor k1 0x7465646279746573) in
  let '(s, tail) := sip_blocks (length src) s src in
  let b := Z.lor b (le_bytes tail) in
  let s := sip_absorb s b in
  let s := Sip (v0 s) (v1 s) (Z.lxor (v2 s) 0xff) (v3 s) in
  let s := single_round (single_round (single_round s)) in
  Z.lxor (Z.lxor (v0 s) (v1 s)) (Z.lxor (v2 s) (v3 s)).

Fixpoint bytes_of_string (s : string) : list Z :=
  match s with
  | EmptyString => []
  | String c s' => Z.of_N (N_of_ascii c) :: bytes_of_string s'
  end.

(** The per-process hash secret: the two 64-bit SipHash keys. *)
Record hash_secret : Type := HashSecret { k0 : Z; k1 : Z }.

(** [_Py_HashBytes] on the characters of a [str]: the empty text hashes to
    0, the result is read as a signed 64-bit number and -1 is replaced
    by -2. *)
Definition py_hash (key : hash_secret) (s : string) : Z :=
  match s with
  | EmptyString => 0
  | _ =>
      let u := siphash13 (k0 key) (k1 key) (bytes_of_string s) in
      let x := if u <? 2 ^ 63 then u else u - 2 ^ 64 in
      if x =? -1 then -2 else x
  end.

(** The secret chosen by [PYTHONHASHSEED=seed]: all zero for seed 0,
    otherwise the bytes of a linear congruential generator. *)
Fixpoint lcg_urandom (n : nat) (x : Z) : list Z :=
  match n with
  | O => []
  | S n' =>
      let x' := (x * 214013 + 2531011) mod 2 ^ 32 in
      Z.land (Z.shiftr x' 16) 255 :: lcg_urandom n' x'
  end.

Definition hash_secret_of_seed (seed : Z) : hash_secret :=
  if seed =? 0 then HashSecret 0 0
  else
    let bytes := lcg_urandom 16 seed in
    HashSecret (le_bytes (take 8 bytes)) (le_bytes (drop 8 bytes)).

(** [Database.hash_of_storable]: [hash(str(data))]. *)
Definition hash_of_storable (key : hash_secret) (data : pyval) : Z :=
  py_hash key (py_str data).


(** ** Backup codec: [json.dump(data, f, indent=2)] and [json.load(f)] *)

(** [encode_basestring_ascii] without the enclosing quotes. *)
Fixpoint json_escape (s : string) : string :=
  match s with
  | EmptyString => EmptyString
  | String c s' =>
      let rest := json_escape s' in
      let n := N_of_ascii c in
      if Ascii.eqb c DQ then String "\" (String DQ rest)
      else if Ascii.eqb c "\" then String "\" (String "\" rest)
      else if Ascii.eqb c "008" then String "\" (String "b" rest)
      else if Ascii.eqb c "012" then String "\" (String "f" rest)
      else if Ascii.eqb c "010" then String "\" (String "n" rest)
      else if Ascii.eqb c "013" then String "\" (String "r" rest)
      else if Ascii.eqb c "009" then String "\" (String "t" rest)
      else if (32 <=? n)%N && (n <=? 126)%N then String c rest
      else
        String "\" (String "u" (String "0" (String "0"
          (String (hex_digit (n / 16)) (String (hex_digit (n mod 16)) rest)))))
  end.

Definition json_string (s : string) : string :=
  String DQ (json_escape s +:+ String DQ EmptyString).

(** [floatstr]: the three special floats have their own spelling. *)
Definition json_float (r : string) : string :=
  if String.eqb r "nan" then "NaN"
  else if String.eqb r "inf" then "Infinity"
  else if String.eqb r "-inf" then "-Infinity"
  else r.

Fixpoint spaces (n : nat) : string :=
  match n with
  | O => EmptyString
  | S n' => String " " (spaces n')
  end.

(** A line break followed by the indentation of nesting depth [level]. *)
Definition newline_indent (level : nat) : string :=
  String "010" (spaces (2 * level)).

(** [_iterencode(o, level)] with [indent=2], item separator [,] and key
    separator [: ]. *)
Fixpoint json_encode (level : nat) (v : pyval) : string :=
  match v with
  | PNone => "null"
  | PBool true => "true"
  | PBool false => "false"
  | PInt z => int_repr z
  | PFloat r => json_float r
  | PStr s => json_string s
  | PList [] => "[]"
  | PList l =>
      "[" +:+ newline_indent (S level) +:+
      join ("," +:+ newline_indent (S level)) (map (json_encode (S level)) l)
      +:+ newline_indent level +:+ "]"
  | PDict [] => "{}"
  | PDict d =>
      "{" +:+ newline_indent (S level) +:+
      join ("," +:+ newline_indent (S level))
           (map (fun kv => json_string (fst kv) +:+ ": " +:+
                           json_encode (S level) (snd kv)) d)
      +:+ newline_indent level +:+ "}"
  end.

Definition json_dumps (data : pyval) : string := json_encode 0 data.

(** *** Decoder *)

Definition is_ws (c : ascii) : bool :=
  Ascii.eqb c " " || Ascii.eqb c "009" || Ascii.eqb c "010" || Ascii.eqb c "013".

Fixpoint skip_ws (s : string) : string :=
  match s with
  | String c s' => if is_ws c then skip_ws s' else s
  | EmptyString => EmptyString
  end.

Definition is_digit (c : ascii) : bool :=
  let n := N_of_ascii c in (48 <=? n)%N && (n <=? 57)%N.

Definition hex_value (c : ascii) : option N :=
  let n := N_of_ascii c in
  if (48 <=? n)%N && (n <=? 57)%N then Some (n - 48)%N
  else if (97 <=? n)%N && (n <=? 102)%N then Some (n - 87)%N
  else if (65 <=? n)%N && (n <=? 70)%N then Some (n - 55)%N
  else None.

(** The character named by a one-letter escape. *)
Definition unescape (e : ascii) : option ascii :=
  if Ascii.eqb e DQ then Some DQ
  else if Ascii.eqb e "\" then Some "\"%char
  else if Ascii.eqb e "/" then Some "/"%char
  else if Ascii.eqb e "b" then Some "008"%char
  else if Ascii.eqb e "f" then Some "012"%char
  else if Ascii.eqb e "n" then Some "010"%char
  else if Ascii.eqb e "r" then Some "013"%char
  else if Ascii.eqb e "t" then Some "009"%char
  else None.

Definition cons_char (c : ascii) (r : option (string * string))
  : option (string * string) :=
  match r with
  | Some (s, rest) => Some (String c s, rest)
  | None => None
  end.

(** [scanstring] in strict mode, started just after the opening quote:
    the text up to the closing quote and what follows it.  A four-digit
    escape above 255 names a character outside the modelled range and is
    refused. *)
Fixpoint scanstring (s : string) : option (string * string) :=
  match s with
  | EmptyString => None
  | String c rest =>
      if Ascii.eqb c DQ then Some (EmptyString, rest)
      else if Ascii.eqb c "\" then
        match rest with
        | EmptyString => None
        | String e rest1 =>
            if Ascii.eqb e "u" then
              match rest1 with
              | String h1 (String h2 (String h3 (String h4 rest2))) =>
                  match hex_value h1, hex_value h2, hex_value h3, hex_value h4 with
                  | Some a, Some b, Some c', Some d =>
                      let code := (a * 4096 + b * 256 + c' * 16 + d)%N in
                      if (code <? 256)%N
                      then cons_char (ascii_of_N code) (scanstring rest2)
                      else None
                  | _, _, _, _ => None
                  end
              | _ => None
              end
            else
              match unescape e with
              | Some ch => cons_char ch (scanstring rest1)
              | None => None
              end
        end
      else if (N_of_ascii c <? 32)%N then None
      else cons_char c (scanstring rest)
  end.

Fixpoint span_digits (s : string) : string * string :=
  match s with
  | String c s' =>
      if is_digit c
      then let '(ds, rest) := span_digits s' in (String c ds, rest)
      else (EmptyString, s)
  | EmptyString => (EmptyString, EmptyString)
  end.

(** The integer part of a number: an optional minus sign, then either a
    single 0 or a non-zero digit followed by any digits. *)
Definition scan_integer (s : string) : option (string * string) :=
  let '(sign, s1) :=
    match s with
    | String c r => if Ascii.eqb c "-" then ("-", r) else (EmptyString, s)
    | EmptyString => (EmptyString, s)
    end in
  match s1 with
  | String c r =>
      if Ascii.eqb c "0" then Some (sign +:+ "0", r)
      else if is_digit c then
        let '(ds, rest) := span_digits r in Some (sign +:+ String c ds, rest)
      else None
  | EmptyString => None
  end.

(** The optional fraction: a point followed by at least one digit. *)
Definition scan_frac (s : string) : string * string :=
  match s with
  | String c (String d r) =>
      if Ascii.eqb c "." && is_digit d then
        let '(ds, rest) := span_digits r in (String c (String d ds), rest)
      else (EmptyString, s)
  | _ => (EmptyString, s)
  end.

(** The optional exponent: e or E, an optional sign, at least one digit. *)
Definition scan_exp (s : string) : string * string :=
  match s with
  | String e r =>
      if Ascii.eqb e "e" || Ascii.eqb e "E" then
        match r with
        | String c r1 =>
            if is_digit c then
              let '(ds, rest) := span_digits r1 in
              (String e (String c ds), rest)
            else if Ascii.eqb c "-" || Ascii.eqb c "+" then
              match r1 with
              | String d r2 =>
                  if is_digit d then
                    let '(ds, rest) := span_digits r2 in
                    (String e (String c (String d ds)), rest)
                  else (EmptyString, s)
              | EmptyString => (EmptyString, s)
              end
            else (EmptyString, s)
        | EmptyString => (EmptyString, s)
        end
      else (EmptyString, s)
  | EmptyString => (EmptyString, s)
  end.

(** [int(text)] for an optional minus sign followed by digits. *)
Definition int_of_literal (s : string) : Z :=
  match NilZero.int_of_string s with
  | Some d => Z.of_int d
  | None => 0
  end.

(** [float(text)]: the float is carried by its text.  This is exact on
    every text that is the [repr] of a float, which is all the encoder
    writes. *)
Definition float_of_literal (s : string) : string := s.

(** A number at the head of [s], by [NUMBER_RE]: an [int] when it has
    neither fraction nor exponent, a [float] otherwise. *)
Definition scan_number (s : string) : option (pyval * string) :=
  match scan_integer s with
  | None => None
  | Some (integer, s1) =>
      let '(frac, s2) := scan_frac s1 in
      let '(exp, s3) := scan_exp s2 in
      if String.eqb frac EmptyString && String.eqb exp EmptyString
      then Some (PInt (int_of_literal integer), s3)
      else Some (PFloat (float_of_literal (integer +:+ frac +:+ exp)), s3)
  end.

(** [s[idx:idx+len(p)] == p]: the rest of [s] after the prefix [p]. *)
Fixpoint strip_prefix (p s : string) : option string :=
  match p, s with
  | EmptyString, _ => Some s
  | String a p', String b s' =>
      if Ascii.eqb a b then strip_prefix p' s' else None
  | String _ _, EmptyString => None
  end.

(** [scan_once] with [JSONObject] and [JSONArray].  Every call spends one
    unit of [fuel]; [json_loads] supplies more than any text can use. *)
Fixpoint scan_once (fuel : nat) (s : string) : option (pyval * string) :=
  match fuel with
  | O => None
  | S fuel' =>
      match s with
      | EmptyString => None
      | String c rest =>
          if Ascii.eqb c DQ then
            match scanstring rest with
            | Some (str, rest1) => Some (PStr str, rest1)
            | None => None
            end
          else if Ascii.eqb c "{" then
            match skip_ws rest with
            | String c1 rest1 =>
                if Ascii.eqb c1 "}" then Some (PDict [], rest1)
                else if Ascii.eqb c1 DQ then
                  match object_pairs fuel' rest1 with
                  | Some (pairs, rest2) => Some (PDict (dict_of_pairs pairs), rest2)
                  | None => None
                  end
                else None
            | EmptyString => None
            end
          else if Ascii.eqb c "[" then
            match skip_ws rest with
            | String c1 rest1 =>
                if Ascii.eqb c1 "]" then Some (PList [], rest1)
                else
                  match array_items fuel' (String c1 rest1) with
                  | Some (items, rest2) => Some (PList items, rest2)
                  | None => None
                  end
            | EmptyString => None
            end
          else
            match strip_prefix "null" s, strip_prefix "true" s,
                  strip_prefix "false" s with
            | Some r, _, _ => Some (PNone, r)
            | _, Some r, _ => Some (PBool true, r)
            | _, _, Some r => Some (PBool false, r)
            | None, None, None =>
                match scan_number s with
                | Some res => Some res
                | None =>
                    match strip_prefix "NaN" s, strip_prefix "Infinity" s,
                          strip_prefix "-Infinity" s with
                    | Some r, _, _ => Some (PFloat "nan", r)
                    | _, Some r, _ => Some (PFloat "inf", r)
                    | _, _, Some r => Some (PFloat "-inf", r)
                    | None, None, None => None
                    end
                end
            end
      end
  end
(** The members of an object, started just after the opening quote of a
    key, up to and including the closing brace. *)
with object_pairs (fuel : nat) (s : string)
  : option (list (string * pyval) * string) :=
  match fuel with
  | O => None
  | S fuel' =>
      match scanstring s with
      | None => None
      | Some (key, s1) =>
          match skip_ws s1 with
          | String c s2 =>
              if Ascii.eqb c ":" then
                match scan_once fuel' (skip_ws s2) with
                | None => None
                | Some (value, s3) =>
                    match skip_ws s3 with
                    | String c3 s4 =>
                        if Ascii.eqb c3 "}" then Some ([(key, value)], s4)
                        else if Ascii.eqb c3 "," then
                          match skip_ws s4 with
                          | String c5 s5 =>
                              if Ascii.eqb c5 DQ then
                                match object_pairs fuel' s5 with
                                | Some (pairs, s6) =>
                                    Some ((key, value) :: pairs, s6)
                                | None => None
                                end
                              else None
                          | EmptyString => None
                          end
                        else None
                    | EmptyString => None
                    end
                end
              else None
          | EmptyString => None
          end
      end
  end
(** The items of an array, started at the first item, up to and including
    the closing bracket. *)
with array_items (fuel : nat) (s : string) : option (list pyval * string) :=
  match fuel with
  | O => None
  | S fuel' =>
      match scan_once fuel' s with
      | None => None
      | Some (value, s1) =>
          match skip_ws s1 with
          | String c s2 =>
              if Ascii.eqb c "]" then Some ([value], s2)
              else if Ascii.eqb c "," then
                match array_items fuel' (skip_ws s2) with
                | Some (items, s3) => Some (value :: items, s3)
                | None => None
                end
              else None
          | EmptyString => None
          end
      end
  end.

(** [json.loads]: one value, with white space allowed around it.  The
    decoder is exact on the texts the encoder writes and, beyond them, on
    texts whose escapes stay below [u0100] and whose floats are spelled
    as [repr] spells them.  Outside this domain it refuses an escape
    above [u00ff] and keeps the spelling of a float; the properties of
    restores are stated for backup texts inside it. *)
Definition json_loads (s : string) : result pyval :=
  match scan_once (S (String.length s)) (skip_ws s) with
  | Some (v, rest) =>
      match skip_ws rest with
      | EmptyString => Ok v
      | String _ _ => Raise JSONDecodeError
      end
  | None => Raise JSONDecodeError
  end.

(** ** Statement builder *)

(** [Database.column_spec_from_data] with every keyword parameter given. *)
Definition column_spec_from_data
  (name : string)
  (datatype default not_null unique primary_key autoincrement : pyval)
  : string :=
  let s := name +:+ " " +:+ py_str datatype in
  let s := match default with
           | PNone => s
           | _ => s +:+ " DEFAULT " +:+ py_str default
           end in
  let s := if truthy not_null then s +:+ " NOT NULL" else s in
  let s := if truthy unique then s +:+ " UNIQUE" else s in
  if truthy primary_key then
    let s := s +:+ " PRIMARY KEY" in
    if truthy autoincrement then s +:+ " AUTOINCREMENT" else s
  else s.

Definition column_keywords : list string :=
  ["datatype"; "default"; "not_null"; "unique"; "primary_key"; "autoincrement"].

Definition has_key {V} (k : string) (d : list (string * V)) : bool :=
  existsb (String.eqb k) (dict_keys d).

(** A keyword argument, or the parameter's default when it is not given. *)
Definition kwarg (k : string) (dflt : pyval) (d : pydict) : pyval :=
  match dict_get k d with
  | Some v => v
  | None => dflt
  end.

(** The call [column_spec_from_data(name=n, **spec)]: [spec] must be a
    mapping whose keys are parameter names other than [name], and
    [datatype] has no default. *)
Definition call_column_spec_from_data (n : string) (spec : pyval)
  : result string :=
  match spec with
  | PDict d =>
      if forallb (fun k => existsb (String.eqb k) column_keywords) (dict_keys d)
      then
        match dict_get "datatype" d with
        | Some datatype =>
            Ok (column_spec_from_data n datatype
                  (kwarg "default" PNone d)
                  (kwarg "not_null" (PBool false) d)
                  (kwarg "unique" (PBool false) d)
                  (kwarg "primary_key" (PBool false) d)
                  (kwarg "autoincrement" (PBool false) d))
        | None => Raise TypeError
        end
      else Raise TypeError
  | _ => Raise TypeError
  end.

(** [Database.create_statement_from_data(name=name, columns=columns)];
    [columns.items()] needs a dict. *)
Definition create_statement_from_data (name : string) (columns : pyval)
  : result string :=
  match columns with
  | PDict cols =>
      rbind (rmap (fun nspec => call_column_spec_from_data (fst nspec) (snd nspec))
                  cols)
            (fun cs => Ok ("CREATE TABLE " +:+ name +:+ " (" +:+ join ", " cs +:+ ");"))
  | _ => Raise AttributeError
  end.

(** The call [self.create_statement_from_data(name=k, **v)]: [v] must be
    a mapping with a [columns] key and neither a [name] key nor a [self]
    key (each would give a parameter two values); other keys are taken by
    [**kwargs]. *)
Definition call_create_statement_from_data (k : string) (v : pyval)
  : result string :=
  match v with
  | PDict d =>
      if has_key "name" d || has_key "self" d then Raise TypeError
      else
        match dict_get "columns" d with
        | Some columns => create_statement_from_data k columns
        | None => Raise TypeError
        end
  | _ => Raise TypeError
  end.

(** The keys left after [for k in list(data.keys()): if data[k] is None:
    del data[k]], run over a snapshot [ks] of the keys. *)
Fixpoint drop_none_keys (ks : list string) (data : pydict) : pydict :=
  match ks with
  | [] => data
  | k :: ks' =>
      match dict_get k data with
      | Some PNone => drop_none_keys ks' (dict_del k data)
      | _ => drop_none_keys ks' data
      end
  end.

Fixpoint replace_char (c : ascii) (by_ : string) (s : string) : string :=
  match s with
  | EmptyString => EmptyString
  | String c' s' =>
      if Ascii.eqb c c' then by_ +:+ replace_char c by_ s'
      else String c' (replace_char c by_ s')
  end.

(** One pass of the loop over [data.values()]: [bool] is a subclass of
    [int], so it takes the [isinstance(val, (int, float))] branch. *)
Definition insert_value (val : pyval) : result string :=
  match val with
  | PBool _ | PInt _ | PFloat _ => Ok (py_str val)
  | PStr s =>
      Ok (String DQ (replace_char DQ (String DQ (String DQ EmptyString)) s
                     +:+ String DQ EmptyString))
  | PNone | PList _ | PDict _ => Raise ValueError
  end.

(** [Database.insert_statement_from_data(name, data)] as a function of the
    dict [data] refers to. *)
Definition insert_statement_from_data (name : string) (data : pyval)
  : result string :=
  match data with
  | PDict d =>
      let data := drop_none_keys (dict_keys d) d in
      let cols := join "," (dict_keys data) in
      rbind (rmap insert_value (dict_values data))
            (fun vals =>
               Ok ("INSERT INTO " +:+ name +:+ " (" +:+ cols +:+ ") VALUES ("
                   +:+ join ", " vals +:+ ");"))
  | _ => Raise TypeError
  end.

(** The items a [for] loop draws from a value. *)
Fixpoint chars_of (s : string) : list pyval :=
  match s with
  | EmptyString => []
  | String c s' => PStr (String c EmptyString) :: chars_of s'
  end.

Definition py_iter (v : pyval) : result (list pyval) :=
  match v with
  | PList l => Ok l
  | PDict d => Ok (map PStr (dict_keys d))
  | PStr s => Ok (chars_of s)
  | _ => Raise TypeError
  end.

(** [Database.populate_from_data(name=name, rows=rows)]. *)
Definition populate_from_data (name : string) (rows : pyval)
  : result (list string) :=
  rbind (py_iter rows) (rmap (insert_statement_from_data name)).

(** The call [self.populate_from_data(name=k, **v)], with the same rule
    for the keys [name] and [self]. *)
Definition call_populate_from_data (k : string) (v : pyval)
  : result (list string) :=
  match v with
  | PDict d =>
      if has_key "name" d || has_key "self" d then Raise TypeError
      else
        match dict_get "rows" d with
        | Some rows => populate_from_data k rows
        | None => Raise TypeError
        end
  | _ => Raise TypeError
  end.

(** *** The insert builder on a heap of objects

    The caller passes a reference.  The first line of the method rebinds
    [data] to a new dict with the same items, and the deletions that follow act on that new object. *)

Abbreviation heap := (gmap positive pyval).

Definition fresh_loc (h : heap) : positive := fresh (dom h).

(** [del data[k]] through the reference [l]. *)
Definition heap_del (l : positive) (k : string) (h : heap) : heap :=
  match h !! l with
  | Some (PDict d) => <[l := PDict (dict_del k d)]> h
  | _ => h
  end.

Definition heap_item (l : positive) (k : string) (h : heap) : option pyval :=
  match h !! l with
  | Some (PDict d) => dict_get k d
  | _ => None
  end.

Fixpoint heap_drop_none (l : positive) (ks : list string) (h : heap) : heap :=
  match ks with
  | [] => h
  | k :: ks' =>
      match heap_item l k h with
      | Some PNone => heap_drop_none l ks' (heap_del l k h)
      | _ => heap_drop_none l ks' h
      end
  end.

Definition insert_statement_from_data_ref
  (name : string) (data : positive) (h : heap) : result string * heap :=
  match h !! data with
  | Some (PDict d) =>
      (* the local name [data] now refers to a new dict with the same items *)
      let local := fresh_loc h in
      let h := <[local := PDict d]> h in
      let h := heap_drop_none local (dict_keys d) h in
      match h !! local with
      | Some (PDict d') =>
          let cols := join "," (dict_keys d') in
          (rbind (rmap insert_value (dict_values d'))
                 (fun vals =>
                    Ok ("INSERT INTO " +:+ name +:+ " (" +:+ cols
                        +:+ ") VALUES (" +:+ join ", " vals +:+ ");")),
           h)
      | _ => (Raise TypeError, h)
      end
  | _ => (Raise TypeError, h)
  end.

(** ** DDL parser: the schema loop of [Database.as_storable_dict] *)

(** Code points below 256 matched by the pattern class for word
    characters. *)
Definition is_word (c : ascii) : bool :=
  let n := N_of_ascii c in
  (((48 <=? n) && (n <=? 57)) || ((65 <=? n) && (n <=? 90)) || (n =? 95)
   || ((97 <=? n) && (n <=? 122)) || (n =? 170) || (n =? 178) || (n =? 179)
   || (n =? 181) || (n =? 185) || (n =? 186) || ((188 <=? n) && (n <=? 190))
   || ((192 <=? n) && (n <=? 214)) || ((216 <=? n) && (n <=? 246))
   || (248 <=? n))%N.

(** Code points below 256 for which [str.isspace] holds. *)
Definition py_isspace (c : ascii) : bool :=
  let n := N_of_ascii c in
  (((9 <=? n) && (n <=? 13)) || ((28 <=? n) && (n <=? 32)) || (n =? 133)
   || (n =? 160))%N.

Definition is_newline (c : ascii) : bool := Ascii.eqb c "010".
Definition is_comma (c : ascii) : bool := Ascii.eqb c ",".

(** [s.split(sep)] for a one-character separator chosen by [p]: empty
    pieces are kept. *)
Fixpoint split_on (p : ascii -> bool) (s : string) : list string :=
  match s with
  | EmptyString => [EmptyString]
  | String c s' =>
      if p c then EmptyString :: split_on p s'
      else
        match split_on p s' with
        | x :: xs => String c x :: xs
        | [] => [String c EmptyString]
        end
  end.

Definition nonempty (s : string) : bool :=
  match s with
  | EmptyString => false
  | String _ _ => true
  end.

(** [s.split()]: the pieces between runs of white space. *)
Definition py_split (s : string) : list string :=
  filter (fun x => Is_true (nonempty x)) (split_on py_isspace s).

Fixpoint lstrip (s : string) : string :=
  match s with
  | String c s' => if py_isspace c then lstrip s' else s
  | EmptyString => EmptyString
  end.

Fixpoint rstrip (s : string) : string :=
  match s with
  | EmptyString => EmptyString
  | String c s' =>
      let r := rstrip s' in
      if py_isspace c && negb (nonempty r) then EmptyString else String c r
  end.

(** [s.strip()] *)
Definition py_strip (s : string) : string := rstrip (lstrip s).

(** [sub in s] *)
Fixpoint contains_sub (sub s : string) : bool :=
  match strip_prefix sub s with
  | Some _ => true
  | None =>
      match s with
      | String _ s' => contains_sub sub s'
      | EmptyString => false
      end
  end.

Fixpoint span_word (s : string) : string * string :=
  match s with
  | String c s' =>
      if is_word c
      then let '(w, rest) := span_word s' in (String c w, rest)
      else (EmptyString, s)
  | EmptyString => (EmptyString, EmptyString)
  end.

(** [s] without the ending [suf], when it ends so. *)
Fixpoint strip_suffix (suf s : string) : option string :=
  if String.eqb s suf then Some EmptyString
  else
    match s with
    | String c s' =>
        match strip_suffix suf s' with
        | Some r => Some (String c r)
        | None => None
        end
    | EmptyString => None
    end.

Definition strip_suffix_opt (suf s : string) : string :=
  match strip_suffix suf s with
  | Some r => r
  | None => s
  end.

(** [create_re.match(sql).groups()].  The pattern asks for the literal
    head [CREATE TABLE ], a non-empty run of word characters (group 1), a
    space and an opening parenthesis; then the longest text without a line
    break (group 2) that leaves a closing parenthesis, an optional
    semicolon and the end of the text, which may be just before one final
    line break. *)
Definition create_re_match (sql : string) : option (string * string) :=
  match strip_prefix "CREATE TABLE " sql with
  | None => None
  | Some s1 =>
      let '(name, s2) := span_word s1 in
      if nonempty name then
        match strip_prefix " (" s2 with
        | None => None
        | Some s3 =>
            let s4 := strip_suffix_opt (String "010" EmptyString) s3 in
            let s5 := strip_suffix_opt ";" s4 in
            match strip_suffix ")" s5 with
            | Some body =>
                if contains_char "010" body then None else Some (name, body)
            | None => None
            end
        end
      else None
  end.

(** The body of the loop over [column_data] for one fragment: the column
    name and its spec. *)
Definition parse_column (cdata : string) : result (string * pyval) :=
  match py_split cdata with
  | n :: t :: _ =>
      let c := [("datatype", PStr t)] in
      let c := if contains_sub "NOT NULL" cdata
               then dict_set "not_null" (PBool true) c else c in
      let c := if contains_sub "UNIQUE" cdata
               then dict_set "unique" (PBool true) c else c in
      let c := if contains_sub "AUTOINCREMENT" cdata
               then dict_set "autoincrement" (PBool true) c else c in
      let c := if contains_sub "PRIMARY KEY" cdata
               then dict_set "primary_key" (PBool true) c else c in
      Ok (n, PDict c)
  | _ => Raise ValueError
  end.

Fixpoint parse_columns (column_data : list string) (columns : pydict)
  : result pydict :=
  match column_data with
  | [] => Ok columns
  | cdata :: rest =>
      rbind (parse_column cdata)
            (fun nc => parse_columns rest (dict_set (fst nc) (snd nc) columns))
  end.

(** [' '.join(sql.split(NEWLINE))] *)
Definition one_line (sql : string) : string :=
  join " " (split_on is_newline sql).

(** The fragments of the column list, each stripped. *)
Definition column_fragments (column_data : string) : list string :=
  map py_strip (split_on is_comma column_data).

(** The body of the loop over [sources] for one schema text: the table
    name and its columns. *)
Definition parse_create_table (sql : string) : result (string * pydict) :=
  let sql := one_line sql in
  match create_re_match sql with
  | Some (name, column_data) =>
      rbind (parse_columns (column_fragments column_data) [])
            (fun columns => Ok (name, columns))
  | None => Raise (MalformedSQL sql)
  end.

Fixpoint parse_sources (sources : list string) (data : pydict)
  : result pydict :=
  match sources with
  | [] => Ok data
  | sql :: rest =>
      rbind (parse_create_table sql)
            (fun nc =>
               parse_sources rest
                 (dict_set (fst nc)
                    (PDict [("rows", PList []); ("columns", PDict (snd nc))])
                    data))
  end.

(** ** The SQLite engine, the two files and the [Database] object *)

(** What the code asks of SQLite.  [execute] runs one statement and gives
    no store when the engine raises; [catalog] is the answer to the query
    on [sqlite_master] for the schema texts of the user tables;
    [select_all t] is the answer to [SELECT * FROM t], one dict a row. *)
Class Engine : Type := {
  store : Type;
  empty_store : store;
  execute : string -> store -> option store;
  catalog : store -> list string;
  select_all : string -> store -> option (list pydict);
}.

(** What the code asks of the clock besides the time: [today t] is the
    text [datetime.today().strftime] gives at time [t], the local date
    with hour and minute, which names the [.bak] copy of the live
    store. *)
Class Calendar : Type := {
  today : Z -> string;
}.

Inductive event : Type :=
| Restore   (* load_backup was entered *)
| Refresh.  (* save_backup was entered *)

Inductive command : Type :=
| One (stmt : string)
| Batch (stmts : list string).

Section Database.
Context `{Engine} `{Calendar}.
(** [self.dummy] and the hash secret of the running process. *)
Variable dummy : bool.
Variable secret : hash_secret.

(** The file at [self.path], the file at [self.backup_path] (each with
    its modification time), the [.bak] copies by the date text in their
    names, the clock that stamps written files, [self.recovered], and the
    record of which of [load_backup] and [save_backup] were entered. *)
Record state : Type := State {
  db : option (store * Z);
  backup : option (string * Z);
  snapshots : list (string * store);
  clock : Z;
  recovered : bool;
  log : list event;
}.

Definition set_db (x : option (store * Z)) (s : state) : state :=
  State x (backup s) (snapshots s) (clock s) (recovered s) (log s).
Definition set_backup (x : option (string * Z)) (s : state) : state :=
  State (db s) x (snapshots s) (clock s) (recovered s) (log s).
Definition set_snapshots (x : list (string * store)) (s : state) : state :=
  State (db s) (backup s) x (clock s) (recovered s) (log s).
Definition set_recovered (x : bool) (s : state) : state :=
  State (db s) (backup s) (snapshots s) (clock s) x (log s).
Definition add_event (e : event) (s : state) : state :=
  State (db s) (backup s) (snapshots s) (clock s) (recovered s) (log s ++ [e]).

Definition M (A : Type) : Type := state -> result A * state.

Definition ret {A} (a : A) : M A := fun s => (Ok a, s).
Definition raise {A} (e : exn) : M A := fun s => (Raise e, s).
Definition lift {A} (r : result A) : M A := fun s => (r, s).
Definition bind {A B} (m : M A) (f : A -> M B) : M B :=
  fun s =>
    match m s with
    | (Ok a, s') => f a s'
    | (Raise e, s') => (Raise e, s')
    end.
Definition modify (f : state -> state) : M unit := fun s => (Ok tt, f s).
Definition gets {A} (f : state -> A) : M A := fun s => (Ok (f s), s).

Notation "'do' x <- m ; k" := (bind m (fun x => k))
  (at level 10, x name, m at level 100, k at level 200).
Notation "m ;; k" := (bind m (fun _ => k))
  (at level 100, k at level 200, right associativity).

Fixpoint for_each {A} (f : A -> M unit) (l : list A) : M unit :=
  match l with
  | [] => ret tt
  | x :: l' => f x ;; for_each f l'
  end.

(** [os.path.exists] and [os.path.getmtime] on the two paths. *)
Definition path_exists : M bool := gets (fun s => bool_decide (is_Some (db s))).
Definition backup_path_exists : M bool :=
  gets (fun s => bool_decide (is_Some (backup s))).

Definition mtime : M Z :=
  fun s =>
    match db s with
    | Some (_, t) => (Ok t, s)
    | None => (Raise FileNotFoundError, s)
    end.

Definition backup_mtime : M Z :=
  fun s =>
    match backup s with
    | Some (_, t) => (Ok t, s)
    | None => (Raise FileNotFoundError, s)
    end.

(** [open(self.backup_path)] followed by [json.load]. *)
Definition read_backup : M pyval :=
  fun s =>
    match backup s with
    | Some (text, _) => (json_loads text, s)
    | None => (Raise FileNotFoundError, s)
    end.

(** [sqlite3.connect(self.path)]: a missing file is created empty. *)
Definition connect : M store :=
  fun s =>
    match db s with
    | Some (st, _) => (Ok st, s)
    | None => (Ok empty_store, set_db (Some (empty_store, clock s)) s)
    end.

(** [Database.query] for the schema query of [as_storable_dict]. *)
Definition query_catalog : M (list string) :=
  do st <- connect;
  match catalog st with
  | [] => raise NoResults
  | results => ret results
  end.

(** [Database.query] for [SELECT * FROM table] with [sqlite3.Row]. *)
Definition query_table (table : string) : M (list pydict) :=
  do st <- connect;
  match select_all table st with
  | None => raise (SqliteError ("SELECT * FROM " +:+ table +:+ ";"))
  | Some [] => raise NoResults
  | Some results => ret results
  end.

(** The second loop of [as_storable_dict], over the tables [keys] of
    [data]: [data[table]['rows'] = rows]. *)
Fixpoint fill_rows (keys : list string) (data : pydict) : M pydict :=
  match keys with
  | [] => ret data
  | table :: keys' =>
      do rows <- query_table table;
      match dict_get table data with
      | Some (PDict tabledata) =>
          fill_rows keys'
            (dict_set table
               (PDict (dict_set "rows" (PList (map PDict rows)) tabledata))
               data)
      | _ => raise KeyError
      end
  end.

Definition as_storable_dict : M pyval :=
  do sources <- query_catalog;
  do data <- lift (parse_sources sources []);
  do data <- fill_rows (dict_keys data) data;
  ret (PDict data).

Definition save_backup : M unit :=
  modify (add_event Refresh) ;;
  do data <- as_storable_dict;
  modify (fun s =>
    set_backup (Some (json_dumps data +:+ String "010" EmptyString, clock s)) s).

Fixpoint run_batch (stmts : list string) (st : store) : store + string :=
  match stmts with
  | [] => inl st
  | stmt :: rest =>
      match execute stmt st with
      | Some st' => run_batch rest st'
      | None => inr stmt
      end
  end.

(** Leaving [with conn:] without an exception commits. *)
Definition commit (st : store) : M unit :=
  modify (fun s => set_db (Some (st, clock s)) s).

(** [Database.execute_sql].  An exception inside [with conn:] rolls the
    transaction back, so the file keeps what [connect] found. *)
Definition execute_sql (cmd : command) : M unit :=
  if dummy then ret tt
  else
    do st <- connect;
    match cmd with
    | One stmt =>
        match execute stmt st with
        | Some st' => commit st'
        | None => raise (SqliteError stmt)
        end
    | Batch stmts =>
        match run_batch stmts st with
        | inl st' => commit st'
        | inr stmt => raise (SqliteError stmt)
        end
    end.

(** [backup_data.items()] *)
Definition py_items (v : pyval) : result pydict :=
  match v with
  | PDict d => Ok d
  | _ => Raise AttributeError
  end.

Definition load_backup : M unit :=
  modify (add_event Restore) ;;
  (fun s =>
     match db s with
     | Some (st, _) =>
         (Ok tt,
          set_db None
            (set_snapshots (dict_set (today (clock s)) st (snapshots s)) s))
     | None => (Ok tt, s)
     end) ;;
  do backup_data <- read_backup;
  do items <- lift (py_items backup_data);
  do create_statements <-
    lift (rmap (fun kv => call_create_statement_from_data (fst kv) (snd kv)) items);
  execute_sql (Batch create_statements) ;;
  do populate_statements <-
    lift (rmap (fun kv => call_populate_from_data (fst kv) (snd kv)) items);
  for_each (fun statements => execute_sql (Batch statements)) populate_statements ;;
  modify (set_recovered true).

Definition hash : M Z :=
  do data <- as_storable_dict;
  ret (hash_of_storable secret data).

Definition backed_up_hash : M Z :=
  do data <- read_backup;
  ret (hash_of_storable secret data).

Definition backup_is_same : M bool :=
  do h1 <- hash;
  do h2 <- backed_up_hash;
  ret (h1 =? h2).

Definition backup_is_newer : M bool :=
  do same <- backup_is_same;
  if same then ret false
  else
    do bm <- backup_mtime;
    do m <- mtime;
    ret (m <? bm).

Definition backup_is_older : M bool :=
  do newer <- backup_is_newer;
  if newer then ret false
  else
    do bm <- backup_mtime;
    do m <- mtime;
    ret (bm <? m).

Definition maybe_load_backup : M unit :=
  do bexists <- backup_path_exists;
  if negb bexists then ret tt
  else
    do pexists <- path_exists;
    if negb pexists then load_backup
    else
      do newer <- backup_is_newer;
      if newer then load_backup else ret tt.

Definition maybe_save_backup : M unit :=
  do rec <- gets recovered;
  if rec then ret tt
  else
    do bexists <- backup_path_exists;
    if negb bexists then save_backup
    else
      do older <- backup_is_older;
      if older then save_backup else ret tt.

(** [with Database(...): body]: [__enter__], the body, and [__exit__]
    also when the body raises; [__exit__] returns nothing, so the body's
    exception goes on unless [__exit__] raises one of its own. *)
Definition with_database (body : M unit) : M unit :=
  fun s =>
    match maybe_load_backup s with
    | (Raise e, s1) => (Raise e, s1)
    | (Ok _, s1) =>
        match body s1 with
        | (Ok _, s2) => maybe_save_backup s2
        | (Raise e, s2) =>
            match maybe_save_backup s2 with
            | (Ok _, s3) => (Raise e, s3)
            | (Raise e', s3) => (Raise e', s3)
            end
        end
    end.

(** [jsqlon.__main__.main]: the body of the [with] statement is [pass]. *)
Definition main : M unit := with_database (ret tt).

End Database.

(** *** A small engine for concrete runs

    A store of fixed tables (name, schema text, rows) with a journal of the
    statements it accepted.  It rejects a statement it has accepted
    before, as SQLite rejects a second [CREATE TABLE] of a name or a second
    [INSERT] of a primary key. *)
Record toy_store : Type := ToyStore {
  toy_tables : list (string * (string * list pydict));
  toy_journal : list string;
}.

Definition toy_execute (stmt : string) (st : toy_store) : option toy_store :=
  if existsb (String.eqb stmt) (toy_journal st) then None
  else Some (ToyStore (toy_tables st) (toy_journal st ++ [stmt])).

#[local] Instance ToyEngine : Engine := {|
  store := toy_store;
  empty_store := ToyStore [] [];
  execute := toy_execute;
  catalog st := map (fun t => fst (snd t)) (toy_tables st);
  select_all t st :=
    match dict_get t (toy_tables st) with
    | Some (_, rows) => Some rows
    | None => None
    end;
|}.

(** A calendar for concrete runs: times are in seconds and the date text
    is the number of the minute. *)
#[local] Instance ToyCalendar : Calendar := {|
  today t := int_repr (t / 60);
|}.

(** ** The schema model of the specification *)

(** A value other than null: integer, float (by its text) or text. *)
Inductive value : Type :=
| VInt (z : Z)
| VFloat (r : string)
| VText (s : string).

Definition py_of_value (v : value) : pyval :=
  match v with
  | VInt z => PInt z
  | VFloat r => PFloat r
  | VText s => PStr s
  end.

Record ColumnSpec : Type := {
  col_name : string;
  col_datatype : string;
  col_default : option value;
  col_not_null : bool;
  col_unique : bool;
  col_primary_key : bool;
  col_autoincrement : bool;
}.

Record TableSpec : Type := {
  table_name : string;
  table_columns : list ColumnSpec;
}.

(** The dict that stands for a column in a backup document: [datatype]
    always, a flag only when it is set, [default] only when present. *)
Definition column_data (c : ColumnSpec) : pydict :=
  [("datatype", PStr (col_datatype c))]
  ++ (if col_not_null c then [("not_null", PBool true)] else [])
  ++ (if col_unique c then [("unique", PBool true)] else [])
  ++ (if col_autoincrement c then [("autoincrement", PBool true)] else [])
  ++ (if col_primary_key c then [("primary_key", PBool true)] else [])
  ++ (match col_default c with
      | Some v => [("default", py_of_value v)]
      | None => []
      end).

Definition columns_data (t : TableSpec) : pyval :=
  PDict (dict_of_pairs
           (map (fun c => (col_name c, PDict (column_data c))) (table_columns t))).

(** From the words of the specification: a column as it is rendered in a
    schema-definition statement. *)
Definition render_column (c : ColumnSpec) : string :=
  col_name c +:+ " " +:+ col_datatype c
  +:+ (match col_default c with
       | Some v => " DEFAULT " +:+ py_str (py_of_value v)
       | None => ""
       end)
  +:+ (if col_not_null c then " NOT NULL" else "")
  +:+ (if col_unique c then " UNIQUE" else "")
  +:+ (if col_primary_key c
       then " PRIMARY KEY" +:+ (if col_autoincrement c then " AUTOINCREMENT" else "")
       else "").

(** From the words of the specification: the schema-definition statement
    of a table. *)
Definition render_create (t : TableSpec) : string :=
  "CREATE TABLE " +:+ table_name t +:+ " ("
  +:+ join ", " (map render_column (table_columns t)) +:+ ");".

(** The [users] table of the specification's scenario. *)
Definition users_spec : TableSpec := {|
  table_name := "users";
  table_columns :=
    [ {| col_name := "id"; col_datatype := "INTEGER"; col_default := None;
         col_not_null := false; col_unique := false;
         col_primary_key := true; col_autoincrement := true |};
      {| col_name := "name"; col_datatype := "TEXT"; col_default := None;
         col_not_null := true; col_unique := true;
         col_primary_key := false; col_autoincrement := false |} ];
|}.

(** From the words of the specification, with booleans added: how a
    value that is not null appears in a data-insertion statement.  Text is
    quoted with every quote character doubled; integers, floats and
    booleans appear as their own text; nothing else can appear. *)
Fixpoint double_quotes (s : string) : string :=
  match s with
  | EmptyString => EmptyString
  | String c s' =>
      if Ascii.eqb c DQ then String DQ (String DQ (double_quotes s'))
      else String c (double_quotes s')
  end.

Definition render_value (v : pyval) : option string :=
  match v with
  | PInt z => Some (int_repr z)
  | PFloat r => Some r
  | PBool true => Some "True"
  | PBool false => Some "False"
  | PStr s => Some (String DQ (double_quotes s +:+ String DQ EmptyString))
  | _ => None
  end.

Definition is_null (v : pyval) : bool :=
  match v with
  | PNone => true
  | _ => false
  end.

(** The entries of a row whose value is not null, in the row's order. *)
Definition non_null (row : pydict) : pydict :=
  filter (fun kv => Is_true (negb (is_null (snd kv)))) row.

(** A row with the text O, quote, Brien and a null column. *)
Definition obrien_row : pydict :=
  [("id", PInt 1); ("nick", PNone);
   ("name", PStr ("O" +:+ String DQ "Brien")); ("score", PFloat "2.5")].


Section PassStates.
Context `{Engine} `{Calendar}.

(** The state of a [Database] object that was just constructed:
    [recovered] is false and nothing has been entered yet. *)
Definition fresh_state (d : option (store * Z))
  (b : option (string * Z)) (snaps : list (string * store)) (clk : Z) : state :=
  State d b snaps clk false [].

(** The files as a body of the [with] statement can change them. *)
Record files : Type := Files {
  f_db : option (store * Z);
  f_backup : option (string * Z);
  f_snapshots : list (string * store);
  f_clock : Z;
}.

(** A body that works on the files and leaves the object's fields
    alone. *)
Definition on_files (body : files -> result unit * files) : M unit :=
  fun s =>
    let '(r, fs) := body (Files (db s) (backup s) (snapshots s) (clock s)) in
    (r, State (f_db fs) (f_backup fs) (f_snapshots fs) (f_clock fs)
              (recovered s) (log s)).

(** The state after [save_backup] wrote [data]. *)
Definition refreshed (data : pyval) (s : state) : state :=
  set_backup (Some (json_dumps data +:+ String "010" EmptyString, clock s))
             (add_event Refresh s).

(** A computation that leaves [recovered] and the record of entered
    steps as they were. *)
Definition keeps_obj {A} (m : M A) : Prop :=
  forall s, recovered (snd (m s)) = recovered s /\ log (snd (m s)) = log s.

(** A computation that leaves the record as it was and sets [recovered]
    when it returns. *)
Definition ends_recovered (m : M unit) : Prop :=
  forall s,
    log (snd (m s)) = log s
    /\ (fst (m s) = Ok tt -> recovered (snd (m s)) = true).

(** A computation that, once the live store exists, leaves the state
    as it is and whose outcome depends on the live store only. *)
Definition db_only {A} (m : M A) : Prop :=
  forall s s', is_Some (db s) -> db s' = db s ->
    snd (m s) = s /\ fst (m s') = fst (m s).

End PassStates.

(** *** Concrete stores and backups *)


(** The hash secret of a process started with [PYTHONHASHSEED=0]. *)
Definition seed0 : hash_secret := hash_secret_of_seed 0.

(** A live store with the [users] table of the scenario and one row. *)
Definition users_store : toy_store :=
  ToyStore
    [("users",
      ("CREATE TABLE users (id INTEGER PRIMARY KEY AUTOINCREMENT, name TEXT NOT NULL UNIQUE)",
       [[("id", PInt 1); ("name", PStr "Alice")]]))]
    [].

(** The document [as_storable_dict] builds from [users_store]. *)
Definition users_doc : pyval :=
  PDict
    [("users",
      PDict
        [("rows", PList [PDict [("id", PInt 1); ("name", PStr "Alice")]]);
         ("columns",
          PDict
            [("id", PDict [("datatype", PStr "INTEGER");
                           ("autoincrement", PBool true);
                           ("primary_key", PBool true)]);
             ("name", PDict [("datatype", PStr "TEXT");
                             ("not_null", PBool true);
                             ("unique", PBool true)])])])].

(** The same document with a second row. *)
Definition users_doc2 : pyval :=
  PDict
    [("users",
      PDict
        [("rows", PList [PDict [("id", PInt 1); ("name", PStr "Alice")];
                         PDict [("id", PInt 2); ("name", PStr "Bob")]]);
         ("columns",
          PDict
            [("id", PDict [("datatype", PStr "INTEGER");
                           ("autoincrement", PBool true);
                           ("primary_key", PBool true)]);
             ("name", PDict [("datatype", PStr "TEXT");
                             ("not_null", PBool true);
                             ("unique", PBool true)])])])].

Definition backup_text (doc : pyval) : string :=
  json_dumps doc +:+ String "010" EmptyString.

(** Both files hold the same document; the backup was written at time 100
    and the live store at time 200. *)
Definition same_content_state : @state ToyEngine :=
  @fresh_state ToyEngine (Some (users_store, 200)) (Some (backup_text users_doc, 100))
              [] 300.

(** The files hold different documents and were both written at time
    100. *)
Definition tie_state : @state ToyEngine :=
  @fresh_state ToyEngine (Some (users_store, 100)) (Some (backup_text users_doc2, 100))
              [] 300.

(** The files hold different documents and the live store is the newer. *)
Definition newer_store_state : @state ToyEngine :=
  @fresh_state ToyEngine (Some (users_store, 200)) (Some (backup_text users_doc2, 100))
              [] 300.

(** A backup of two tables; the second holds the same key twice. *)
Definition clash_doc : pyval :=
  PDict
    [("a", PDict [("rows", PList [PDict [("id", PInt 1)]]);
                  ("columns", PDict [("id", PDict [("datatype", PStr "INTEGER");
                                                   ("primary_key", PBool true)])])]);
     ("b", PDict [("rows", PList [PDict [("id", PInt 1)]; PDict [("id", PInt 1)]]);
                  ("columns", PDict [("id", PDict [("datatype", PStr "INTEGER");
                                                   ("primary_key", PBool true)])])])].

(** No live store, and a backup holding [clash_doc]. *)
Definition clash_state : @state ToyEngine :=
  @fresh_state ToyEngine None (Some (backup_text clash_doc, 100)) [] 300.

(** *** Documents the codec can carry *)

(** A float text as [float.__repr__] writes it for a finite float: an
    integer part with a fraction, an exponent, or both. *)
Definition is_float_text (r : string) : bool :=
  match scan_integer r with
  | Some (_, s1) =>
      let '(frac, s2) := scan_frac s1 in
      let '(exp, s3) := scan_exp s2 in
      negb (nonempty s3) && (nonempty frac || nonempty exp)
  | None => false
  end.

Definition valid_float (r : string) : bool :=
  String.eqb r "nan" || String.eqb r "inf" || String.eqb r "-inf"
  || is_float_text r.

(** A value as Python can hold it: the keys of every dict are distinct and
    every float text is the text of a float. *)
Fixpoint valid_json (v : pyval) : bool :=
  match v with
  | PFloat r => valid_float r
  | PList l => forallb valid_json l
  | PDict d =>
      bool_decide (NoDup (dict_keys d))
      && forallb (fun kv => valid_json (snd kv)) d
  | _ => true
  end.

(** What can follow a value in the text the encoder writes: the end, a
    comma or a line break. *)
Definition ends_value (rest : string) : bool :=
  match rest with
  | EmptyString => true
  | String c _ => Ascii.eqb c "," || Ascii.eqb c "010"
  end.

(** A text that starts with a character that is neither white space nor
    a closing bracket. *)
Definition starts_value (s : string) : bool :=
  match s with
  | EmptyString => false
  | String c _ => negb (is_ws c) && negb (Ascii.eqb c "]")
  end.
(** Reading the text of [v], followed by the end of a value, gives [v]
    back, with any fuel that is at least the length of the text. *)
Definition round_trips (v : pyval) : Prop :=
  forall level fuel rest,
    ends_value rest = true ->
    (String.length (json_encode level v) <= fuel)%nat ->
    scan_once fuel (json_encode level v +:+ rest) = Some (v, rest).

(** *** The outer pattern, said directly *)

Fixpoint all_chars (p : ascii -> bool) (s : string) : bool :=
  match s with
  | EmptyString => true
  | String c s' => p c && all_chars p s'
  end.

Fixpoint last_char (s : string) : option ascii :=
  match s with
  | EmptyString => None
  | String c EmptyString => Some c
  | String _ s' => last_char s'
  end.

(** The text [sql] is the literal head, the name [name] made of one or
    more word characters, a space and an opening parenthesis, the column
    text [body] without a line break, a closing parenthesis, an optional
    semicolon, and at most one final line break. *)
Definition create_shape (sql name body : string) : Prop :=
  nonempty name = true
  /\ all_chars is_word name = true
  /\ contains_char "010" body = false
  /\ exists semi nl,
       (semi = EmptyString \/ semi = ";")
       /\ (nl = EmptyString \/ nl = String "010" EmptyString)
       /\ sql = "CREATE TABLE " +:+ name +:+ " (" +:+ body +:+ ")"
                +:+ semi +:+ nl.

(** *** Backups the decoder reads as [json.load] does *)



(** *** Parts of a restore *)

Section RestoreParts.
Context `{Engine} `{Calendar}.



Definition create_statements_of (items : pydict) : result (list string) :=
  rmap (fun kv => call_create_statement_from_data (fst kv) (snd kv)) items.


End RestoreParts.

(** The rows the engine hands out for the tables of [st] are valid values:
    every row has distinct column names and values Python can hold. *)
Definition rows_valid `{Engine} (st : store) : Prop :=
  forall table rows,
    select_all table st = Some rows ->
    forallb valid_json (map PDict rows) = true.

(** *** More concrete stores and backups *)


(** A live store whose only table has no rows. *)
Definition empty_table_store : toy_store :=
  ToyStore [("t", ("CREATE TABLE t (a INTEGER)", []))] [].











(** The document [as_storable_dict] starts from for [empty_table_store]. *)
Definition empty_table_schema : pydict :=
  [("t", PDict [("rows", PList []);
                ("columns", PDict [("a", PDict [("datatype", PStr "INTEGER")])])])].









(** A live store without tables beside a newer backup of [users_doc]. *)
Definition no_tables_state : @state ToyEngine :=
  @fresh_state ToyEngine (Some (ToyStore [] [], 100))
    (Some (backup_text users_doc, 200)) [] 300.

(** A live store and no backup. *)
Definition first_run_state : @state ToyEngine :=
  @fresh_state ToyEngine (Some (users_store, 100)) None [] 300.

(** *** Tables whose create statement can be read back *)

(** A character that is neither white space nor a comma. *)
Definition token_char (c : ascii) : bool :=
  negb (py_isspace c) && negb (is_comma c).

(** A text that [split] on white space and on commas leaves whole. *)
Definition is_token (s : string) : bool :=
  nonempty s && all_chars token_char s.

(** The words the schema loop of [as_storable_dict] looks for in a column
    fragment. *)
Definition flag_keywords : list string :=
  ["NOT NULL"; "UNIQUE"; "AUTOINCREMENT"; "PRIMARY KEY"].

(** A column the schema loop reads back as it was written: name and
    datatype are tokens, none of the flag words occurs in the name
    followed by the datatype, there is no default (the loop does not
    read one), and [autoincrement] comes with [primary_key] (it is not
    written otherwise). *)
Definition plain_column (c : ColumnSpec) : bool :=
  is_token (col_name c) && is_token (col_datatype c)
  && forallb (fun kw => negb (contains_sub kw (col_name c +:+ " " +:+ col_datatype c)))
             flag_keywords
  && match col_default c with
     | None => true
     | Some _ => false
     end
  && implb (col_autoincrement c) (col_primary_key c).

(** A table of plain columns, at least one, under a name of word
    characters. *)
Definition plain_table (t : TableSpec) : bool :=
  nonempty (table_name t) && all_chars is_word (table_name t)
  && match table_columns t with
     | [] => false
     | _ :: _ => true
     end
  && forallb plain_column (table_columns t).

(** The flags of a column as [column_spec_from_data] appends them. *)
Definition flags_text (nn u pk ai : bool) : string :=
  (if nn then " NOT NULL" else "")
  +:+ (if u then " UNIQUE" else "")
  +:+ (if pk then " PRIMARY KEY" +:+ (if ai then " AUTOINCREMENT" else "")
       else "").

(** Some ending of [kw] that is not empty starts [tail]. *)
Fixpoint suffix_hits (kw tail : string) : bool :=
  match kw with
  | EmptyString => false
  | String _ kw' =>
      match strip_prefix kw tail with
      | Some _ => true
      | None => suffix_hits kw' tail
      end
  end.

(** A character that is neither a comma nor a line break. *)
Definition inline_char (c : ascii) : bool :=
  negb (is_comma c) && negb (is_newline c).

(** A column fragment that splitting on commas and stripping leave as it
    is. *)
Definition clean_fragment (x : string) : Prop :=
  all_chars inline_char x = true /\ lstrip x = x /\ rstrip x = x.

(** The entry of a table in a backup document. *)
Definition table_entry (t : TableSpec) (rows : pyval) : string * pyval :=
  (table_name t, PDict [("rows", rows); ("columns", columns_data t)]).

(** A live store with a table and an index on it. *)
Definition indexed_store : toy_store :=
  ToyStore
    [("t", ("CREATE TABLE t (a INTEGER)", [[("a", PInt 1)]]));
     ("i", ("CREATE INDEX i ON t (a)", []))]
    [].

(** A computation that leaves the state as it is once the live store
    exists. *)
Definition steady `{Engine} {A} (m : M A) : Prop :=
  forall s, is_Some (db s) -> snd (m s) = s.

(** The [users] store beside a newer backup with one more row: the state
    of two runs under different hash seeds. *)
Definition two_runs_state : @state ToyEngine :=
  @fresh_state ToyEngine (Some (users_store, 100))
    (Some (backup_text users_doc2, 200)) [] 300.

(** A computation that leaves the [.bak] copies as they are. *)
Definition keeps_copies `{Engine} {A} (m : M A) : Prop :=
  forall s, snapshots (snd (m s)) = snapshots s.

(** A second restore in the minute of an earlier one: the copy of that
    minute holds the store the earlier restore set aside. *)
Definition same_minute_state : @state ToyEngine :=
  State (Some (users_store, 250)) (Some (backup_text users_doc2, 260))
        [(today 290, empty_table_store)] 290 false [].

(** ** Properties *)

(** *** Texts and dicts *)

Lemma sapp_cons (c : ascii) (s t : string) :
  String c s +:+ t = String c (s +:+ t).
Proof. reflexivity. Qed.

Lemma sapp_nil_l (s : string) : EmptyString +:+ s = s.
Proof. reflexivity. Qed.

Lemma sapp_nil_r (s : string) : s +:+ EmptyString = s.
Proof. induction s as [|c s IH]; [reflexivity|]. rewrite sapp_cons, IH. reflexivity. Qed.

Lemma sapp_assoc (a b c : string) : (a +:+ b) +:+ c = a +:+ b +:+ c.
Proof.
  induction a as [|x a IH]; [reflexivity|].
  rewrite !sapp_cons, IH. reflexivity.
Qed.

Lemma slength_app (a b : string) :
  String.length (a +:+ b) = (String.length a + String.length b)%nat.
Proof.
  induction a as [|x a IH]; [reflexivity|].
  rewrite sapp_cons. simpl. rewrite IH. reflexivity.
Qed.

Lemma eqb_false_ne (a b : string) : a <> b -> String.eqb a b = false.
Proof. apply String.eqb_neq. Qed.

Lemma dict_set_fresh {V} (k : string) (v : V) (d : list (string * V)) :
  k ∉ dict_keys d -> dict_set k v d = d ++ [(k, v)].
Proof.
  induction d as [|[k' v'] d IH]; intros Hk; [reflexivity|].
  simpl in *. apply not_elem_of_cons in Hk as [Hne Hk].
  rewrite (eqb_false_ne _ _ Hne), IH by exact Hk. reflexivity.
Qed.

Lemma dict_of_pairs_acc {V} (l acc : list (string * V)) :
  NoDup (dict_keys (acc ++ l)) ->
  fold_left (fun d kv => dict_set (fst kv) (snd kv) d) l acc = acc ++ l.
Proof.
  revert acc. induction l as [|[k v] l IH]; intros acc Hnd; simpl.
  - rewrite List.app_nil_r. reflexivity.
  - unfold dict_keys in Hnd. rewrite map_app in Hnd. simpl in Hnd.
    rewrite dict_set_fresh.
    + rewrite IH; rewrite <- app_assoc; [reflexivity|].
      unfold dict_keys. rewrite map_app. exact Hnd.
    + apply NoDup_app in Hnd as (_ & Hdis & _).
      intros Hin. apply (Hdis k Hin). left.
Qed.

(** A list of pairs with distinct keys is the dict it builds. *)
Lemma dict_of_pairs_nodup {V} (l : list (string * V)) :
  NoDup (dict_keys l) -> dict_of_pairs l = l.
Proof. intros Hnd. unfold dict_of_pairs. rewrite dict_of_pairs_acc; auto. Qed.

(** *** Statement builder *)

Lemma call_column_spec_render (c : ColumnSpec) :
  call_column_spec_from_data (col_name c) (PDict (column_data c))
  = Ok (render_column c).
Proof.
  destruct c as [n dt dflt nn u pk ai].
  unfold call_column_spec_from_data, column_data, render_column, column_spec_from_data.
  destruct dflt as [[z|r|s]|], nn, u, pk, ai; cbn -[String.append];
    rewrite ?sapp_assoc, ?sapp_nil_l, ?sapp_nil_r; reflexivity.
Qed.

Lemma rmap_columns (cols : list ColumnSpec) :
  rmap (fun nspec => call_column_spec_from_data (fst nspec) (snd nspec))
       (map (fun c => (col_name c, PDict (column_data c))) cols)
  = Ok (map render_column cols).
Proof.
  induction cols as [|c cols IH]; [reflexivity|].
  cbn [map rmap fst snd]. rewrite call_column_spec_render.
  cbn [rbind]. rewrite IH. reflexivity.
Qed.

(** C7: for every table spec with distinct column names, the create
    statement built from its backup form is [CREATE TABLE name (cols);]
    with the columns separated by a comma and a space, each column being
    its name and datatype followed in this order by [DEFAULT value] when a
    default is present, [NOT NULL], [UNIQUE] and [PRIMARY KEY] when set,
    and [AUTOINCREMENT] right after [PRIMARY KEY] only when both are
    set. *)
Theorem create_statement_renders_table (t : TableSpec) :
  NoDup (map col_name (table_columns t)) ->
  create_statement_from_data (table_name t) (columns_data t)
  = Ok (render_create t).
Proof.
  intros Hnd. unfold columns_data, create_statement_from_data.
  rewrite dict_of_pairs_nodup.
  - rewrite rmap_columns. reflexivity.
  - unfold dict_keys. rewrite map_map. exact Hnd.
Qed.

(** The [users] table of the scenario gives exactly the statement the
    specification quotes. *)
Lemma create_statement_users :
  NoDup (map col_name (table_columns users_spec))
  /\ create_statement_from_data "users" (columns_data users_spec)
     = Ok "CREATE TABLE users (id INTEGER PRIMARY KEY AUTOINCREMENT, name TEXT NOT NULL UNIQUE);".
Proof.
  assert (Hnd : NoDup (map col_name (table_columns users_spec))).
  { apply (bool_decide_unpack _). vm_compute. exact I. }
  split; [exact Hnd|].
  exact (create_statement_renders_table users_spec Hnd).
Defined.

Lemma replace_char_doubles (s : string) :
  replace_char DQ (String DQ (String DQ EmptyString)) s = double_quotes s.
Proof.
  induction s as [|c s IH]; [reflexivity|].
  simpl. rewrite IH. rewrite Ascii.eqb_sym. destruct (Ascii.eqb c DQ); reflexivity.
Qed.

Lemma insert_value_render (v : pyval) :
  insert_value v =
  match render_value v with
  | Some t => if is_null v then Raise ValueError else Ok t
  | None => Raise ValueError
  end.
Proof.
  destruct v as [|[]| | | | |]; try reflexivity.
  simpl. rewrite replace_char_doubles. reflexivity.
Qed.

Lemma rmap_insert_values (vs : list pyval) :
  Forall (fun v => is_null v = false) vs ->
  rmap insert_value vs =
  match mapM render_value vs with
  | Some ts => Ok ts
  | None => Raise ValueError
  end.
Proof.
  induction 1 as [|v vs Hv _ IH]; [reflexivity|].
  cbn [rmap]. rewrite insert_value_render, Hv, IH.
  cbn. destruct (render_value v); [|reflexivity].
  cbn. destruct (mapM render_value vs); reflexivity.
Qed.

Lemma dict_get_app_fresh {V} (k : string) (v : V) (d1 d2 : list (string * V)) :
  k ∉ dict_keys d1 -> dict_get k (d1 ++ (k, v) :: d2) = Some v.
Proof.
  induction d1 as [|[k' v'] d1 IH]; intros Hk; simpl.
  - rewrite String.eqb_refl. reflexivity.
  - simpl in Hk. apply not_elem_of_cons in Hk as [Hne Hk].
    rewrite (eqb_false_ne _ _ Hne). auto.
Qed.

Lemma dict_del_app_fresh {V} (k : string) (v : V) (d1 d2 : list (string * V)) :
  k ∉ dict_keys d1 -> dict_del k (d1 ++ (k, v) :: d2) = d1 ++ d2.
Proof.
  induction d1 as [|[k' v'] d1 IH]; intros Hk; simpl.
  - rewrite String.eqb_refl. reflexivity.
  - simpl in Hk. apply not_elem_of_cons in Hk as [Hne Hk].
    rewrite (eqb_false_ne _ _ Hne), IH by exact Hk. reflexivity.
Qed.

Lemma drop_none_keys_acc (d1 d2 : pydict) :
  NoDup (dict_keys (d1 ++ d2)) ->
  drop_none_keys (dict_keys d2) (d1 ++ d2) = d1 ++ non_null d2.
Proof.
  revert d1. induction d2 as [|[k v] d2 IH]; intros d1 Hnd; [reflexivity|].
  assert (Hk : k ∉ dict_keys d1).
  { unfold dict_keys in *. rewrite map_app in Hnd.
    apply NoDup_app in Hnd as (_ & Hdis & _).
    intros Hin. apply (Hdis k Hin). left. }
  cbn [dict_keys map fst drop_none_keys].
  rewrite dict_get_app_fresh by exact Hk.
  destruct (is_null v) eqn:Hv.
  - destruct v; try discriminate.
    rewrite dict_del_app_fresh by exact Hk.
    rewrite IH.
    + unfold non_null. rewrite filter_cons_False; [reflexivity|]. simpl. tauto.
    + unfold dict_keys in *. rewrite map_app in *. simpl in Hnd.
      apply NoDup_app in Hnd as (H1 & Hdis & H2).
      apply NoDup_app. split; [exact H1|]. split.
      * intros x Hx Hx'. apply (Hdis x Hx). right. exact Hx'.
      * apply NoDup_cons in H2 as [_ H2]. exact H2.
  - assert (Hgo : drop_none_keys (dict_keys d2) (d1 ++ (k, v) :: d2)
                  = (d1 ++ [(k, v)]) ++ non_null d2).
    { replace (d1 ++ (k, v) :: d2) with ((d1 ++ [(k, v)]) ++ d2)
        by (rewrite <- app_assoc; reflexivity).
      apply IH. rewrite <- app_assoc. exact Hnd. }
    unfold non_null in *. rewrite filter_cons_True by (simpl; rewrite Hv; exact I).
    rewrite <- app_assoc in Hgo.
    destruct v; try discriminate; exact Hgo.
Qed.

Lemma drop_none_keys_non_null (d : pydict) :
  NoDup (dict_keys d) -> drop_none_keys (dict_keys d) d = non_null d.
Proof. intros Hnd. apply (drop_none_keys_acc [] d Hnd). Qed.

Lemma non_null_values (d : pydict) :
  Forall (fun v => is_null v = false) (dict_values (non_null d)).
Proof.
  unfold dict_values, non_null. apply Forall_forall. intros v Hv.
  apply list_elem_of_fmap in Hv as ([k v'] & -> & Hin).
  apply list_elem_of_filter in Hin as [Hnn _]. simpl in *.
  destruct (is_null v'); [destruct Hnn | reflexivity].
Qed.

(** C8 (amended): for every row with distinct column names, the insert
    statement lists exactly the columns whose value is not null, in the
    row's order, and their values: integers and floats as their own text,
    booleans as [True] or [False], text between quote characters with
    every quote character inside doubled; it raises [ValueError] when some
    value that is not null is of another kind (a list or a dict). *)
Theorem insert_statement_renders_row (name : string) (row : pydict) :
  NoDup (dict_keys row) ->
  insert_statement_from_data name (PDict row) =
  match mapM render_value (dict_values (non_null row)) with
  | Some vals =>
      Ok ("INSERT INTO " +:+ name +:+ " ("
          +:+ join "," (dict_keys (non_null row)) +:+ ") VALUES ("
          +:+ join ", " vals +:+ ");")
  | None => Raise ValueError
  end.
Proof.
  intros Hnd. unfold insert_statement_from_data.
  rewrite drop_none_keys_non_null by exact Hnd.
  rewrite rmap_insert_values by apply non_null_values.
  destruct (mapM render_value (dict_values (non_null row))); reflexivity.
Qed.

(** The row with the text O, quote, Brien: the null column is left out and
    the quote inside the text is doubled. *)
Lemma insert_statement_obrien :
  NoDup (dict_keys obrien_row)
  /\ insert_statement_from_data "users" (PDict obrien_row)
     = Ok ("INSERT INTO users (id,name,score) VALUES (1, "
           +:+ String DQ ("O" +:+ String DQ (String DQ ("Brien"
           +:+ String DQ ", 2.5);")))).
Proof.
  assert (Hnd : NoDup (dict_keys obrien_row)).
  { apply (bool_decide_unpack _). vm_compute. exact I. }
  split; [exact Hnd|].
  exact (insert_statement_renders_row "users" obrien_row Hnd).
Defined.

(** C8 as stated fails: a boolean is neither integer, float, text nor
    null, and the builder renders it instead of raising. *)
Lemma insert_statement_accepts_boolean :
  insert_statement_from_data "t" (PDict [("flag", PBool true)])
  = Ok "INSERT INTO t (flag) VALUES (True);".
Proof. reflexivity. Qed.

(** *** The insert builder and the caller's dict *)

Lemma heap_drop_none_insert (l : positive) (ks : list string) (d : pydict) (h : heap) :
  heap_drop_none l ks (<[l := PDict d]> h)
  = <[l := PDict (drop_none_keys ks d)]> h.
Proof.
  revert d. induction ks as [|k ks IH]; intros d; [reflexivity|].
  cbn [heap_drop_none drop_none_keys]. unfold heap_item, heap_del.
  rewrite lookup_insert_eq.
  destruct (dict_get k d) as [[]|]; try apply IH.
  rewrite insert_insert_eq. apply IH.
Qed.

Lemma fresh_loc_free (h : heap) : h !! fresh_loc h = None.
Proof. apply not_elem_of_dom. unfold fresh_loc. apply is_fresh. Qed.

(** C10: building an insert statement through a reference leaves the
    object the caller passed as it was, and every other object of the heap
    too; the statement is the one computed from the caller's dict. *)
Theorem insert_statement_keeps_caller_dict
  (name : string) (data : positive) (h : heap) :
  let r := insert_statement_from_data_ref name data h in
  snd r !! data = h !! data
  /\ h ⊆ snd r
  /\ fst r = match h !! data with
             | Some v => insert_statement_from_data name v
             | None => Raise TypeError
             end.
Proof.
  unfold insert_statement_from_data_ref.
  destruct (h !! data) as [v|] eqn:Hdata; [|cbn; auto].
  destruct v as [| | | | | |d]; try (cbn; rewrite Hdata; auto).
  rewrite heap_drop_none_insert, lookup_insert_eq. cbn [fst snd].
  pose proof (fresh_loc_free h) as Hfree.
  split; [|split].
  - rewrite lookup_insert_ne; [exact Hdata|]. intros Heq. congruence.
  - apply insert_subseteq. exact Hfree.
  - reflexivity.
Qed.

(** *** DDL parser *)





Ltac sflat0 := split; [auto|]; split; [auto|]; rewrite ?sapp_assoc, ?sapp_nil_r; reflexivity.

Lemma strip_prefix_some (p s r : string) :
  strip_prefix p s = Some r -> s = p +:+ r.
Proof.
  revert s. induction p as [|a p IH]; intros s; cbn [strip_prefix].
  - intros [= ->]. reflexivity.
  - destruct s as [|b s]; [discriminate|].
    destruct (Ascii.eqb_spec a b) as [->|_]; [|discriminate].
    intros Hs. rewrite sapp_cons, <- (IH _ Hs). reflexivity.
Qed.

Lemma strip_prefix_app (p r : string) : strip_prefix p (p +:+ r) = Some r.
Proof.
  induction p as [|a p IH]; [destruct r; reflexivity|].
  rewrite sapp_cons. cbn [strip_prefix]. rewrite Ascii.eqb_refl. exact IH.
Qed.

Lemma span_word_split (s : string) :
  s = fst (span_word s) +:+ snd (span_word s)
  /\ all_chars is_word (fst (span_word s)) = true.
Proof.
  induction s as [|c s [IH1 IH2]]; [split; reflexivity|].
  cbn [span_word]. destruct (is_word c) eqn:Hc; [|split; reflexivity].
  destruct (span_word s) as [w rest]. cbn [fst snd all_chars] in *.
  rewrite sapp_cons, <- IH1, Hc, IH2. split; reflexivity.
Qed.

Lemma span_word_app (name rest : string) :
  all_chars is_word name = true ->
  span_word (name +:+ String " " rest) = (name, String " " rest).
Proof.
  induction name as [|c name IH]; intros Hn; [reflexivity|].
  cbn [all_chars] in Hn. apply andb_true_iff in Hn as [Hc Hn].
  rewrite sapp_cons. cbn [span_word]. rewrite Hc, IH by exact Hn. reflexivity.
Qed.

Lemma strip_suffix_some (suf s r : string) :
  strip_suffix suf s = Some r -> s = r +:+ suf.
Proof.
  revert r. induction s as [|c s IH]; intros r; cbn [strip_suffix].
  - destruct (String.eqb_spec EmptyString suf) as [<-|_]; [|discriminate].
    intros [= <-]. reflexivity.
  - destruct (String.eqb_spec (String c s) suf) as [<-|_].
    + intros [= <-]. reflexivity.
    + destruct (strip_suffix suf s) as [r'|]; [|discriminate].
      intros [= <-]. rewrite sapp_cons, <- (IH r' eq_refl). reflexivity.
Qed.

Lemma strip_suffix_app (suf r : string) :
  strip_suffix suf (r +:+ suf) = Some r.
Proof.
  induction r as [|c r IH].
  - rewrite sapp_nil_l. destruct suf; cbn [strip_suffix];
      rewrite String.eqb_refl; reflexivity.
  - rewrite sapp_cons. cbn [strip_suffix].
    destruct (String.eqb_spec (String c (r +:+ suf)) suf) as [Heq|_].
    + exfalso. apply (f_equal String.length) in Heq.
      cbn [String.length] in Heq. rewrite slength_app in Heq. lia.
    + rewrite IH. reflexivity.
Qed.

Lemma last_char_app (a : string) (c : ascii) (b : string) :
  last_char (a +:+ String c b) = last_char (String c b).
Proof.
  induction a as [|x a IH]; [reflexivity|].
  rewrite sapp_cons.
  assert (Hne : exists y t, a +:+ String c b = String y t)
    by (destruct a; eexists; eexists; reflexivity).
  destruct Hne as (y & t & E). rewrite E.
  change (last_char (String x (String y t))) with (last_char (String y t)).
  rewrite <- E. exact IH.
Qed.

(** A text that does not end with the character [c] has no suffix [c]. *)
Lemma strip_suffix_none (c : ascii) (s : string) :
  last_char s <> Some c ->
  strip_suffix (String c EmptyString) s = None.
Proof.
  intros Hlast.
  destruct (strip_suffix (String c EmptyString) s) as [r|] eqn:Hs;
    [|reflexivity].
  apply strip_suffix_some in Hs. subst s.
  exfalso. apply Hlast. rewrite last_char_app. reflexivity.
Qed.

Lemma strip_suffix_opt_cases (c : ascii) (s : string) :
  (exists r, s = r +:+ String c EmptyString
             /\ strip_suffix_opt (String c EmptyString) s = r)
  \/ strip_suffix_opt (String c EmptyString) s = s.
Proof.
  unfold strip_suffix_opt.
  destruct (strip_suffix (String c EmptyString) s) as [r|] eqn:Hs; [|auto].
  left. exists r. split; [exact (strip_suffix_some _ _ _ Hs)|reflexivity].
Qed.

Lemma strip_suffix_opt_app (c : ascii) (r : string) :
  strip_suffix_opt (String c EmptyString) (r +:+ String c EmptyString) = r.
Proof. unfold strip_suffix_opt. rewrite strip_suffix_app. reflexivity. Qed.

Lemma strip_suffix_opt_other (c d : ascii) (r : string) :
  d <> c ->
  strip_suffix_opt (String c EmptyString) (r +:+ String d EmptyString)
  = r +:+ String d EmptyString.
Proof.
  intros Hd. unfold strip_suffix_opt. rewrite strip_suffix_none; [reflexivity|].
  rewrite last_char_app. cbn [last_char]. congruence.
Qed.

(** [create_re_match] finds exactly the texts of the shape the pattern
    describes, with the name and the column text as its two groups. *)
Lemma create_re_match_shape (sql name body : string) :
  create_re_match sql = Some (name, body) <-> create_shape sql name body.
Proof.
  unfold create_re_match, create_shape. split.
  - destruct (strip_prefix "CREATE TABLE " sql) as [s1|] eqn:H1; [|discriminate].
    apply strip_prefix_some in H1.
    destruct (span_word_split s1) as [Hsplit Hword].
    destruct (span_word s1) as [w s2]. cbn [fst snd] in *.
    destruct (nonempty w) eqn:Hne; [|discriminate].
    destruct (strip_prefix " (" s2) as [s3|] eqn:H3; [|discriminate].
    apply strip_prefix_some in H3.
    destruct (strip_suffix ")" _) as [b|] eqn:H5; [|discriminate].
    apply strip_suffix_some in H5.
    destruct (contains_char "010" b) eqn:Hnl; [discriminate|].
    intros [= <- <-].
    split; [exact Hne|]. split; [exact Hword|]. split; [exact Hnl|].
    destruct (strip_suffix_opt_cases "010" s3) as [(r4 & E4 & R4)|R4];
      rewrite R4 in H5;
      [destruct (strip_suffix_opt_cases ";" r4) as [(r5 & E5 & R5)|R5]
      |destruct (strip_suffix_opt_cases ";" s3) as [(r5 & E5 & R5)|R5]];
      rewrite R5 in H5; subst.
    + exists ";", (String "010" EmptyString). sflat0.
    + exists EmptyString, (String "010" EmptyString). sflat0.
    + exists ";", EmptyString. sflat0.
    + exists EmptyString, EmptyString. sflat0.
  - intros (Hne & Hword & Hnl & semi & nl & Hsemi & Hnlc & ->).
    rewrite strip_prefix_app.
    replace (" (" +:+ body +:+ ")" +:+ semi +:+ nl)
      with (String " " ("(" +:+ body +:+ ")" +:+ semi +:+ nl)) by reflexivity.
    rewrite span_word_app by exact Hword. rewrite Hne.
    replace (String " " ("(" +:+ body +:+ ")" +:+ semi +:+ nl))
      with (" (" +:+ body +:+ ")" +:+ semi +:+ nl) by reflexivity.
    rewrite strip_prefix_app.
    rewrite <- !sapp_assoc.
    destruct Hsemi as [-> | ->], Hnlc as [-> | ->]; rewrite ?sapp_nil_r;
      repeat first
        [ rewrite strip_suffix_opt_app
        | rewrite strip_suffix_opt_other by discriminate ];
      rewrite strip_suffix_app, Hnl; reflexivity.
Qed.



(** *** Reconciliation policy *)

Section Policy.
Context `{Engine} `{Calendar}.
Variable dummy : bool.
Variable secret : hash_secret.

Lemma keeps_obj_ret {A} (a : A) : keeps_obj (ret a).
Proof. intros s. auto. Qed.

Lemma keeps_obj_raise {A} (e : exn) : keeps_obj (@raise _ A e).
Proof. intros s. auto. Qed.

Lemma keeps_obj_lift {A} (r : result A) : keeps_obj (lift r).
Proof. intros s. auto. Qed.

Lemma keeps_obj_bind {A B} (m : M A) (f : A -> M B) :
  keeps_obj m -> (forall a, keeps_obj (f a)) -> keeps_obj (bind m f).
Proof.
  intros Hm Hf s. unfold bind. specialize (Hm s).
  destruct (m s) as [[a|e] s1]; simpl in Hm.
  - destruct (Hf a s1) as [-> ->]. exact Hm.
  - exact Hm.
Qed.

Lemma keeps_obj_connect : keeps_obj connect.
Proof. intros s. unfold connect. destruct (db s) as [[st t]|]; auto. Qed.

Lemma keeps_obj_read_backup : keeps_obj read_backup.
Proof. intros s. unfold read_backup. destruct (backup s) as [[x t]|]; auto. Qed.

Lemma keeps_obj_mtime : keeps_obj mtime.
Proof. intros s. unfold mtime. destruct (db s) as [[st t]|]; auto. Qed.

Lemma keeps_obj_backup_mtime : keeps_obj backup_mtime.
Proof. intros s. unfold backup_mtime. destruct (backup s) as [[x t]|]; auto. Qed.

Lemma keeps_obj_commit (st : store) : keeps_obj (commit st).
Proof. intros s. auto. Qed.

Create HintDb keeps.
Hint Resolve keeps_obj_ret keeps_obj_raise keeps_obj_lift keeps_obj_connect
  keeps_obj_read_backup keeps_obj_mtime keeps_obj_backup_mtime
  keeps_obj_commit : keeps.

Ltac keeps :=
  repeat first
    [ apply keeps_obj_bind; [|intros ?]
    | solve [auto with keeps]
    | match goal with
      | |- keeps_obj (match ?x with _ => _ end) => destruct x
      | |- keeps_obj (if ?x then _ else _) => destruct x
      end ].

Lemma keeps_obj_query_catalog : keeps_obj query_catalog.
Proof. unfold query_catalog. keeps. Qed.

Lemma keeps_obj_query_table (t : string) : keeps_obj (query_table t).
Proof. unfold query_table. keeps. Qed.

Hint Resolve keeps_obj_query_catalog keeps_obj_query_table : keeps.

Lemma keeps_obj_fill_rows (keys : list string) (data : pydict) :
  keeps_obj (fill_rows keys data).
Proof.
  revert data. induction keys as [|k keys IH]; intros data; cbn [fill_rows].
  - keeps.
  - apply keeps_obj_bind; [auto with keeps|]. intros rows.
    destruct (dict_get k data) as [[]|]; auto with keeps.
Qed.

Hint Resolve keeps_obj_fill_rows : keeps.

Lemma keeps_obj_as_storable_dict : keeps_obj as_storable_dict.
Proof. unfold as_storable_dict. keeps. Qed.

Hint Resolve keeps_obj_as_storable_dict : keeps.

Lemma keeps_obj_backup_is_newer : keeps_obj (backup_is_newer secret).
Proof.
  unfold backup_is_newer, backup_is_same, hash, backed_up_hash. keeps.
Qed.

Hint Resolve keeps_obj_backup_is_newer : keeps.

Lemma keeps_obj_backup_is_older : keeps_obj (backup_is_older secret).
Proof. unfold backup_is_older. keeps. Qed.

Lemma keeps_obj_execute_sql (cmd : command) : keeps_obj (execute_sql dummy cmd).
Proof. unfold execute_sql. keeps. Qed.

Hint Resolve keeps_obj_backup_is_older keeps_obj_execute_sql : keeps.

Lemma keeps_obj_for_each {A} (f : A -> M unit) (l : list A) :
  (forall a, keeps_obj (f a)) -> keeps_obj (for_each f l).
Proof.
  intros Hf. induction l as [|a l IH]; cbn [for_each]; [auto with keeps|].
  apply keeps_obj_bind; auto.
Qed.

Lemma keeps_obj_on_files (body : files -> result unit * files) :
  keeps_obj (on_files body).
Proof.
  intros s. unfold on_files.
  destruct (body _) as [r fs]. auto.
Qed.

Lemma bind_modify {B} (f : state -> state) (k : unit -> M B) (s : state) :
  bind (modify f) k s = k tt (f s).
Proof. reflexivity. Qed.

Lemma bind_gets {A B} (f : state -> A) (k : A -> M B) (s : state) :
  bind (gets f) k s = k (f s) s.
Proof. reflexivity. Qed.

Lemma bind_ok {A B} (m : M A) (k : A -> M B) (s s' : state) (a : A) :
  m s = (Ok a, s') -> bind m k s = k a s'.
Proof. intros E. unfold bind. rewrite E. reflexivity. Qed.

Lemma ends_recovered_bind {A} (m : M A) (f : A -> M unit) :
  keeps_obj m -> (forall a, ends_recovered (f a)) ->
  ends_recovered (bind m f).
Proof.
  intros Hm Hf s. unfold bind. specialize (Hm s).
  destruct (m s) as [[a|e] s1]; simpl in Hm.
  - destruct (Hf a s1) as [Hl Hr]. split; [rewrite Hl; apply Hm | exact Hr].
  - split; [apply Hm | discriminate].
Qed.

Lemma keeps_obj_snapshot :
  keeps_obj (fun s : state =>
     match db s with
     | Some (st, _) =>
         (Ok tt,
          set_db None
            (set_snapshots (dict_set (today (clock s)) st (snapshots s)) s))
     | None => (Ok tt, s)
     end).
Proof. intros s. destruct (db s) as [[st t]|]; auto. Qed.

(** [load_backup] adds one [Restore] to the record, and sets [recovered]
    when it returns. *)
Lemma load_backup_log (s : state) :
  log (snd (load_backup dummy s)) = log s ++ [Restore]
  /\ (fst (load_backup dummy s) = Ok tt ->
      recovered (snd (load_backup dummy s)) = true).
Proof.
  unfold load_backup. rewrite bind_modify.
  set (m := bind _ _).
  assert (Hm : ends_recovered m).
  { subst m.
    apply ends_recovered_bind; [apply keeps_obj_snapshot|intros _].
    apply ends_recovered_bind; [auto with keeps|intros backup_data].
    apply ends_recovered_bind; [auto with keeps|intros items].
    apply ends_recovered_bind; [auto with keeps|intros creates].
    apply ends_recovered_bind; [auto with keeps|intros _].
    apply ends_recovered_bind; [auto with keeps|intros populates].
    apply ends_recovered_bind.
    - apply keeps_obj_for_each. auto with keeps.
    - intros _ s0. split; auto. }
  apply (Hm (add_event Restore s)).
Qed.

(** [save_backup] adds one [Refresh] to the record. *)
Lemma save_backup_log (s : state) :
  log (snd (save_backup s)) = log s ++ [Refresh]
  /\ recovered (snd (save_backup s)) = recovered s.
Proof.
  unfold save_backup. rewrite bind_modify.
  set (m := bind _ _).
  assert (Hm : keeps_obj m).
  { subst m. apply keeps_obj_bind; [auto with keeps|intros data].
    intros s0. auto. }
  destruct (Hm (add_event Refresh s)) as [-> ->]. auto.
Qed.

(** The enter step either leaves the record alone or adds one
    [Restore]; in the second case the object is marked recovered when
    the step returns. *)
Lemma maybe_load_backup_log (s : state) :
  (log (snd (maybe_load_backup dummy secret s)) = log s
   /\ recovered (snd (maybe_load_backup dummy secret s)) = recovered s)
  \/ (log (snd (maybe_load_backup dummy secret s)) = log s ++ [Restore]
      /\ (fst (maybe_load_backup dummy secret s) = Ok tt ->
          recovered (snd (maybe_load_backup dummy secret s)) = true)).
Proof.
  unfold maybe_load_backup, backup_path_exists, path_exists.
  rewrite bind_gets.
  destruct (negb (bool_decide (is_Some (backup s)))); [left; auto|].
  rewrite bind_gets.
  destruct (negb (bool_decide (is_Some (db s))));
    [right; apply load_backup_log|].
  unfold bind.
  destruct (keeps_obj_backup_is_newer s) as [Hr Hl].
  destruct (backup_is_newer secret s) as [[[|]|e] s1]; simpl in Hr, Hl.
  - right. rewrite <- Hl. apply load_backup_log.
  - left. auto.
  - left. auto.
Qed.

(** The exit step does nothing on an object marked recovered; otherwise
    it leaves the record alone or adds one [Refresh]. *)
Lemma maybe_save_backup_recovered (s : state) :
  recovered s = true -> maybe_save_backup secret s = (Ok tt, s).
Proof.
  intros Hrec. unfold maybe_save_backup. rewrite bind_gets, Hrec.
  reflexivity.
Qed.

Lemma maybe_save_backup_log (s : state) :
  log (snd (maybe_save_backup secret s)) = log s
  \/ log (snd (maybe_save_backup secret s)) = log s ++ [Refresh].
Proof.
  unfold maybe_save_backup, backup_path_exists. rewrite bind_gets.
  destruct (recovered s); [left; reflexivity|].
  rewrite bind_gets.
  destruct (negb (bool_decide (is_Some (backup s))));
    [right; apply save_backup_log|].
  unfold bind.
  destruct (keeps_obj_backup_is_older s) as [Hr Hl].
  destruct (backup_is_older secret s) as [[[|]|e] s1]; simpl in Hr, Hl.
  - right. rewrite <- Hl. apply save_backup_log.
  - left. auto.
  - left. auto.
Qed.

(** C5: in a pass that starts from a new [Database] object, whatever the
    body does to the files, a restore and a refresh never both occur:
    the record of the pass is empty, one restore, or one refresh.  When
    the enter step restored and returned, the object is marked recovered
    and the exit step returns at once, leaving every file as it is. *)
Theorem restore_and_refresh_exclusive
  (d : option (store * Z)) (b : option (string * Z)) (snaps : list (string * store))
  (clk : Z) (body : files -> result unit * files) :
  let s0 := fresh_state d b snaps clk in
  let entered := maybe_load_backup dummy secret s0 in
  let final := snd (with_database dummy secret (on_files body) s0) in
  (log final = [] \/ log final = [Restore] \/ log final = [Refresh])
  /\ (log (snd entered) = []
      \/ (log (snd entered) = [Restore]
          /\ match fst entered with
             | Ok _ =>
                 recovered (snd entered) = true
                 /\ forall s, recovered s = true ->
                              maybe_save_backup secret s = (Ok tt, s)
             | Raise _ => final = snd entered
             end)).
Proof.
  intros s0 entered final. subst final entered.
  unfold with_database.
  destruct (maybe_load_backup_log s0) as [[Hl Hr]|[Hl Hr]];
    destruct (maybe_load_backup dummy secret s0) as [[[]|e] s1];
    cbn [fst snd] in *; cbn [log recovered fresh_state] in *.
  - (* no restore, enter returned *)
    split; [|left; exact Hl].
    destruct (keeps_obj_on_files body s1) as [Hbr Hbl].
    destruct (on_files body s1) as [[[]|e] s2]; cbn [fst snd] in *.
    + destruct (maybe_save_backup_log s2) as [Hs|Hs];
        rewrite Hbl, Hl in Hs; [left|right; right]; exact Hs.
    + destruct (maybe_save_backup_log s2) as [Hs|Hs];
        rewrite Hbl, Hl in Hs;
        destruct (maybe_save_backup secret s2) as [[[]|e'] s3];
        cbn [fst snd] in *; [left|left|right; right|right; right]; exact Hs.
  - split; [left; exact Hl | left; exact Hl].
  - (* restore, enter returned *)
    specialize (Hr eq_refl).
    split.
    + destruct (keeps_obj_on_files body s1) as [Hbr Hbl].
      destruct (on_files body s1) as [[[]|e] s2]; cbn [fst snd] in *;
        rewrite (maybe_save_backup_recovered s2) by congruence;
        cbn [snd]; right; left; rewrite Hbl; exact Hl.
    + right. split; [exact Hl|]. split; [exact Hr|].
      apply maybe_save_backup_recovered.
  - split; [right; left; exact Hl|]. right. split; [exact Hl|reflexivity].
Qed.

(** *** Passes in which both files exist *)

Lemma db_only_pure {A} (r : result A) : db_only (fun s => (r, s)).
Proof. intros s s' _ _. auto. Qed.

Lemma db_only_bind {A B} (m : M A) (f : A -> M B) :
  db_only m -> (forall a, db_only (f a)) -> db_only (bind m f).
Proof.
  intros Hm Hf s s' Hdb Heq. unfold bind.
  destruct (Hm s s' Hdb Heq) as [Hs Hr].
  assert (Hdb' : is_Some (db s')) by (rewrite Heq; exact Hdb).
  destruct (Hm s' s Hdb' (eq_sym Heq)) as [Hs' _].
  destruct (m s) as [r1 s1], (m s') as [r2 s2]. simpl in *. subst.
  destruct r1 as [a|e]; [apply (Hf a s s' Hdb Heq)|auto].
Qed.

Lemma db_only_connect : db_only connect.
Proof.
  intros s s' [[st t] Hdb] Heq. unfold connect. rewrite Heq, Hdb. auto.
Qed.

Lemma db_only_query_catalog : db_only query_catalog.
Proof.
  unfold query_catalog.
  apply db_only_bind; [apply db_only_connect|intros st].
  destruct (catalog st); apply db_only_pure.
Qed.

Lemma db_only_query_table (t : string) : db_only (query_table t).
Proof.
  unfold query_table.
  apply db_only_bind; [apply db_only_connect|intros st].
  destruct (select_all t st) as [[|]|]; apply db_only_pure.
Qed.

Lemma db_only_fill_rows (keys : list string) (data : pydict) :
  db_only (fill_rows keys data).
Proof.
  revert data.
  induction keys as [|k keys IH]; intros data; cbn [fill_rows];
    [apply db_only_pure|].
  apply db_only_bind; [apply db_only_query_table|intros rows].
  destruct (dict_get k data) as [[]|]; try apply db_only_pure. apply IH.
Qed.

Lemma db_only_as_storable_dict : db_only as_storable_dict.
Proof.
  unfold as_storable_dict.
  apply db_only_bind; [apply db_only_query_catalog|intros sources].
  apply db_only_bind; [apply db_only_pure|intros data].
  apply db_only_bind; [apply db_only_fill_rows|intros data'].
  apply db_only_pure.
Qed.

Lemma as_storable_dict_eval (s s' : state) (data : pyval) :
  is_Some (db s) -> db s' = db s ->
  fst (as_storable_dict s) = Ok data ->
  as_storable_dict s' = (Ok data, s').
Proof.
  intros Hdb Heq Hd.
  destruct (db_only_as_storable_dict s s' Hdb Heq) as [_ Hr].
  assert (Hdb' : is_Some (db s')) by (rewrite Heq; exact Hdb).
  destruct (db_only_as_storable_dict s' s' Hdb' eq_refl) as [Hs' _].
  destruct (as_storable_dict s') as [r s1]. simpl in *. congruence.
Qed.

Section BothPresent.
Variables (st : store) (tdb : Z) (text : string) (tb : Z).
Variables (snaps : list (string * store)) (clk : Z) (rec : bool) (lg : list event).
Variables (data bdata : pyval).

Let s : state := State (Some (st, tdb)) (Some (text, tb)) snaps clk rec lg.

Hypothesis Hdata : fst (as_storable_dict s) = Ok data.
Hypothesis Hbdata : json_loads text = Ok bdata.

Let same : bool :=
  hash_of_storable secret data =? hash_of_storable secret bdata.

Lemma both_as_storable_dict : as_storable_dict s = (Ok data, s).
Proof.
  apply (as_storable_dict_eval s); [eexists; reflexivity|reflexivity|exact Hdata].
Qed.

Lemma both_backup_is_same : backup_is_same secret s = (Ok same, s).
Proof.
  unfold backup_is_same, hash, backed_up_hash.
  rewrite (bind_ok _ _ s s (hash_of_storable secret data)).
  2:{ rewrite (bind_ok _ _ s s data) by apply both_as_storable_dict.
      reflexivity. }
  unfold bind, read_backup. cbn [backup s]. rewrite Hbdata. reflexivity.
Qed.

Lemma both_backup_is_newer :
  backup_is_newer secret s = (Ok (negb same && (tdb <? tb)), s).
Proof.
  unfold backup_is_newer.
  rewrite (bind_ok _ _ s s same) by apply both_backup_is_same.
  destruct same; reflexivity.
Qed.

Lemma both_backup_is_older :
  backup_is_older secret s
  = (Ok (negb (negb same && (tdb <? tb)) && (tb <? tdb)), s).
Proof.
  unfold backup_is_older.
  rewrite (bind_ok _ _ s s _ both_backup_is_newer).
  destruct (negb same && (tdb <? tb)); reflexivity.
Qed.

Lemma both_save_backup : save_backup s = (Ok tt, refreshed data s).
Proof.
  unfold save_backup. rewrite bind_modify.
  assert (Hd : as_storable_dict (add_event Refresh s)
               = (Ok data, add_event Refresh s)).
  { apply (as_storable_dict_eval s);
      [eexists; reflexivity|reflexivity|exact Hdata]. }
  rewrite (bind_ok _ _ _ _ _ Hd). reflexivity.
Qed.

Lemma both_files_present :
  bool_decide (is_Some (backup s)) = true
  /\ bool_decide (is_Some (db s)) = true.
Proof. split; apply bool_decide_true; eexists; reflexivity. Qed.

Lemma both_maybe_load_backup :
  negb same && (tdb <? tb) = false ->
  maybe_load_backup dummy secret s = (Ok tt, s).
Proof.
  intros Hnewer. destruct both_files_present as [Hb Hd].
  unfold maybe_load_backup, backup_path_exists, path_exists.
  rewrite bind_gets, Hb. cbn [negb].
  rewrite bind_gets, Hd. cbn [negb].
  rewrite (bind_ok _ _ _ _ _ both_backup_is_newer), Hnewer. reflexivity.
Qed.

Lemma both_maybe_save_backup :
  rec = false ->
  negb same && (tdb <? tb) = false ->
  maybe_save_backup secret s
  = (Ok tt, if tb <? tdb then refreshed data s else s).
Proof.
  intros Hrec Hnewer. destruct both_files_present as [Hb Hd].
  unfold maybe_save_backup, backup_path_exists.
  rewrite bind_gets. cbn [recovered s]. rewrite Hrec.
  rewrite bind_gets, Hb. cbn [negb].
  rewrite (bind_ok _ _ _ _ _ both_backup_is_older), Hnewer. cbn [negb andb].
  destruct (tb <? tdb); [apply both_save_backup|reflexivity].
Qed.

(** Without a restore the pass refreshes the backup exactly when the
    backup is strictly older than the live store. *)
Lemma both_main_without_restore :
  rec = false ->
  negb same && (tdb <? tb) = false ->
  main dummy secret s
  = (Ok tt, if tb <? tdb then refreshed data s else s).
Proof.
  intros Hrec Hnewer. unfold main, with_database.
  rewrite (both_maybe_load_backup Hnewer). cbn [ret].
  apply both_maybe_save_backup; assumption.
Qed.
End BothPresent.

(** C2 (amended): in a pass that starts from a new object with both
    files present, fingerprints that differ and a live store that is not
    older than the backup, no restore occurs; the exit step refreshes
    the backup from the live store when the live store is strictly
    newer, and when the two modification times are equal the pass
    changes nothing. *)
Theorem refresh_when_store_newer
  (st : store) (tdb : Z) (text : string) (tb : Z) (snaps : list (string * store))
  (clk : Z) (data bdata : pyval) :
  let s := fresh_state (Some (st, tdb)) (Some (text, tb)) snaps clk in
  fst (as_storable_dict s) = Ok data ->
  json_loads text = Ok bdata ->
  hash_of_storable secret data <> hash_of_storable secret bdata ->
  tb <= tdb ->
  main dummy secret s
  = (Ok tt, if tb <? tdb then refreshed data s else s).
Proof.
  intros s Hdata Hbdata Hne Hle. subst s.
  apply (both_main_without_restore _ _ _ _ _ _ _ _ _ bdata Hdata Hbdata eq_refl).
  replace (tdb <? tb) with false by (symmetry; apply Z.ltb_ge; exact Hle).
  apply andb_false_r.
Qed.

End Policy.

(** C1 fails on the code.  Both files hold the same document, so the two
    fingerprints are equal; the backup is the older file, and the exit
    step rewrites it: a refresh occurs. *)
Theorem equal_fingerprints_refresh_on_exit :
  fst (hash seed0 same_content_state)
  = fst (backed_up_hash seed0 same_content_state)
  /\ fst (hash seed0 same_content_state) = Ok 7045546682299663230
  /\ main false seed0 same_content_state
     = (Ok tt, refreshed users_doc same_content_state)
  /\ log (snd (main false seed0 same_content_state)) = [Refresh].
Proof. repeat split; vm_compute; reflexivity. Qed.

(** C2 as stated fails: the fingerprints differ and the two modification
    times are equal, yet the pass ends with every file as it was and
    nothing entered: no refresh occurs. *)
Lemma tie_neither_restores_nor_refreshes :
  fst (hash seed0 tie_state) = Ok 7045546682299663230
  /\ fst (backed_up_hash seed0 tie_state) = Ok (-2157047072286732779)
  /\ mtime tie_state = (Ok 100, tie_state)
  /\ backup_mtime tie_state = (Ok 100, tie_state)
  /\ main false seed0 tie_state = (Ok tt, tie_state).
Proof. repeat split; vm_compute; reflexivity. Qed.

(** With the [users] store newer than a backup that holds one more row,
    the pass rewrites the backup from the store. *)
Lemma refresh_when_store_newer_users :
  fst (as_storable_dict newer_store_state) = Ok users_doc
  /\ json_loads (backup_text users_doc2) = Ok users_doc2
  /\ hash_of_storable seed0 users_doc <> hash_of_storable seed0 users_doc2
  /\ 100 <= 200
  /\ main false seed0 newer_store_state
     = (Ok tt, refreshed users_doc newer_store_state).
Proof.
  assert (H1 : fst (as_storable_dict newer_store_state) = Ok users_doc)
    by (vm_compute; reflexivity).
  assert (H2 : json_loads (backup_text users_doc2) = Ok users_doc2)
    by (vm_compute; reflexivity).
  assert (H3 : hash_of_storable seed0 users_doc
               <> hash_of_storable seed0 users_doc2)
    by (vm_compute; discriminate).
  assert (H4 : 100 <= 200) by lia.
  split; [exact H1|]. split; [exact H2|]. split; [exact H3|].
  split; [exact H4|].
  exact (refresh_when_store_newer false seed0 users_store 200
           (backup_text users_doc2) 100 [] 300 users_doc users_doc2
           H1 H2 H3 H4).
Defined.


(** C4 as stated fails: the same document has different fingerprints in
    two runs whose hash seeds are 1 and 2. *)
Lemma fingerprint_differs_between_runs :
  hash_of_storable (hash_secret_of_seed 1) users_doc = -6649017933681294152
  /\ hash_of_storable (hash_secret_of_seed 2) users_doc = -1707796455709578369
  /\ hash_of_storable (hash_secret_of_seed 1) users_doc
     <> hash_of_storable (hash_secret_of_seed 2) users_doc.
Proof.
  split; [vm_compute; reflexivity|]. split; [vm_compute; reflexivity|].
  vm_compute. discriminate.
Qed.


(** *** Backup codec *)

Lemma ends_value_cases (rest : string) :
  ends_value rest = true ->
  rest = EmptyString
  \/ (exists r, rest = String "," r) \/ (exists r, rest = String "010" r).
Proof.
  destruct rest as [|c r]; [auto|]. simpl. intros Hc.
  apply orb_true_iff in Hc as [Hc|Hc]; apply Ascii.eqb_eq in Hc; subst; eauto.
Qed.

Ltac snorm := repeat first [rewrite sapp_cons | rewrite sapp_nil_l].

Ltac ends_cases H :=
  apply ends_value_cases in H as [->|[[? ->]|[? ->]]].

Lemma span_digits_app (a rest : string) :
  ends_value rest = true ->
  span_digits (a +:+ rest)
  = (fst (span_digits a), snd (span_digits a) +:+ rest).
Proof.
  intros Hrest. induction a as [|c a IH].
  - ends_cases Hrest; reflexivity.
  - rewrite sapp_cons. cbn [span_digits].
    destruct (is_digit c); [|reflexivity].
    rewrite IH. destruct (span_digits a). reflexivity.
Qed.

Lemma span_digits_split (s : string) :
  s = fst (span_digits s) +:+ snd (span_digits s).
Proof.
  induction s as [|c s IH]; [reflexivity|].
  cbn [span_digits]. destruct (is_digit c); [|reflexivity].
  destruct (span_digits s) as [ds rest]. cbn [fst snd] in *.
  rewrite sapp_cons, <- IH. reflexivity.
Qed.

Lemma scan_integer_app (a rest : string) :
  ends_value rest = true ->
  scan_integer (a +:+ rest)
  = match scan_integer a with
    | Some (i, s) => Some (i, s +:+ rest)
    | None => None
    end.
Proof.
  intros Hrest. unfold scan_integer.
  destruct a as [|c a].
  { ends_cases Hrest; reflexivity. }
  rewrite sapp_cons. destruct (Ascii.eqb c "-").
  - destruct a as [|d a].
    { ends_cases Hrest; reflexivity. }
    rewrite sapp_cons. destruct (Ascii.eqb d "0"); [reflexivity|].
    destruct (is_digit d); [|reflexivity].
    rewrite span_digits_app by exact Hrest.
    destruct (span_digits a). reflexivity.
  - destruct (Ascii.eqb c "0"); [reflexivity|].
    destruct (is_digit c); [|reflexivity].
    rewrite span_digits_app by exact Hrest.
    destruct (span_digits a). reflexivity.
Qed.

Lemma scan_frac_app (a rest : string) :
  ends_value rest = true ->
  scan_frac (a +:+ rest)
  = (fst (scan_frac a), snd (scan_frac a) +:+ rest).
Proof.
  intros Hrest. unfold scan_frac.
  destruct a as [|c [|d a]].
  - ends_cases Hrest; try reflexivity; destruct x; reflexivity.
  - rewrite sapp_cons. rewrite sapp_nil_l.
    ends_cases Hrest; try reflexivity;
      rewrite andb_false_r; reflexivity.
  - rewrite !sapp_cons.
    destruct (Ascii.eqb c "." && is_digit d); [|reflexivity].
    rewrite span_digits_app by exact Hrest.
    destruct (span_digits a). reflexivity.
Qed.

Lemma scan_exp_app (a rest : string) :
  ends_value rest = true ->
  scan_exp (a +:+ rest)
  = (fst (scan_exp a), snd (scan_exp a) +:+ rest).
Proof.
  intros Hrest. unfold scan_exp.
  destruct a as [|e a].
  { ends_cases Hrest; reflexivity. }
  rewrite sapp_cons.
  destruct (Ascii.eqb e "e" || Ascii.eqb e "E"); [|reflexivity].
  destruct a as [|c a].
  { rewrite sapp_nil_l. ends_cases Hrest; reflexivity. }
  rewrite sapp_cons.
  destruct (is_digit c).
  { rewrite span_digits_app by exact Hrest.
    destruct (span_digits a). reflexivity. }
  destruct (Ascii.eqb c "-" || Ascii.eqb c "+"); [|reflexivity].
  destruct a as [|d a].
  { rewrite sapp_nil_l. ends_cases Hrest; reflexivity. }
  rewrite sapp_cons.
  destruct (is_digit d); [|reflexivity].
  rewrite span_digits_app by exact Hrest.
  destruct (span_digits a). reflexivity.
Qed.

Lemma scan_integer_split (s i s1 : string) :
  scan_integer s = Some (i, s1) -> s = i +:+ s1.
Proof.
  unfold scan_integer. destruct s as [|c s]; [discriminate|].
  destruct (Ascii.eqb c "-") eqn:Hc.
  - apply Ascii.eqb_eq in Hc. subst c.
    destruct s as [|d s]; [discriminate|].
    destruct (Ascii.eqb d "0") eqn:Hd.
    + apply Ascii.eqb_eq in Hd. subst d. intros [= <- <-]. reflexivity.
    + destruct (is_digit d); [|discriminate].
      pose proof (span_digits_split s) as Hs.
      destruct (span_digits s) as [ds rest]. intros [= <- <-].
      cbn [fst snd] in Hs. snorm. rewrite <- Hs. reflexivity.
  - destruct (Ascii.eqb c "0") eqn:Hd.
    + apply Ascii.eqb_eq in Hd. subst c. intros [= <- <-]. reflexivity.
    + destruct (is_digit c); [|discriminate].
      pose proof (span_digits_split s) as Hs.
      destruct (span_digits s) as [ds rest]. intros [= <- <-].
      cbn [fst snd] in Hs. snorm. rewrite <- Hs. reflexivity.
Qed.

Lemma scan_frac_split (s : string) :
  s = fst (scan_frac s) +:+ snd (scan_frac s).
Proof.
  unfold scan_frac. destruct s as [|c [|d s]]; try reflexivity.
  destruct (Ascii.eqb c "." && is_digit d); [|reflexivity].
  pose proof (span_digits_split s) as Hs.
  destruct (span_digits s) as [ds rest]. cbn [fst snd] in *.
  rewrite !sapp_cons, <- Hs. reflexivity.
Qed.

Lemma scan_exp_split (s : string) :
  s = fst (scan_exp s) +:+ snd (scan_exp s).
Proof.
  unfold scan_exp. destruct s as [|e s]; [reflexivity|].
  destruct (Ascii.eqb e "e" || Ascii.eqb e "E"); [|reflexivity].
  destruct s as [|c s]; [reflexivity|].
  destruct (is_digit c).
  { pose proof (span_digits_split s) as Hs.
    destruct (span_digits s) as [ds rest]. cbn [fst snd] in *.
    rewrite !sapp_cons, <- Hs. reflexivity. }
  destruct (Ascii.eqb c "-" || Ascii.eqb c "+"); [|reflexivity].
  destruct s as [|d s]; [reflexivity|].
  destruct (is_digit d); [|reflexivity].
  pose proof (span_digits_split s) as Hs.
  destruct (span_digits s) as [ds rest]. cbn [fst snd] in *.
  rewrite !sapp_cons, <- Hs. reflexivity.
Qed.

Lemma nonempty_false (s : string) : nonempty s = false -> s = EmptyString.
Proof. destruct s; [reflexivity|discriminate]. Qed.

Lemma eqb_empty_nonempty (s : string) :
  String.eqb s EmptyString = negb (nonempty s).
Proof. destruct s; reflexivity. Qed.

(** A float text followed by the end of a value is read back whole. *)
Lemma scan_number_float (r rest : string) :
  is_float_text r = true -> ends_value rest = true ->
  scan_number (r +:+ rest) = Some (PFloat r, rest).
Proof.
  intros Hr Hrest. unfold is_float_text in Hr. unfold scan_number.
  rewrite scan_integer_app by exact Hrest.
  destruct (scan_integer r) as [[i s1]|] eqn:Hi; [|discriminate].
  rewrite scan_frac_app by exact Hrest.
  pose proof (scan_frac_split s1) as Hf.
  destruct (scan_frac s1) as [frac s2]. cbn [fst snd] in *.
  rewrite scan_exp_app by exact Hrest.
  pose proof (scan_exp_split s2) as He.
  destruct (scan_exp s2) as [exp s3]. cbn [fst snd] in *.
  apply andb_true_iff in Hr as [Hs3 Hfe].
  apply negb_true_iff, nonempty_false in Hs3. subst s3.
  rewrite sapp_nil_r in He. subst s2.
  apply scan_integer_split in Hi. subst s1.
  rewrite !eqb_empty_nonempty, <- negb_orb, Hfe. cbn [negb].
  rewrite sapp_nil_l. unfold float_of_literal. rewrite <- Hi. reflexivity.
Qed.

Lemma span_digits_uint (d : Decimal.uint) :
  span_digits (NilEmpty.string_of_uint d)
  = (NilEmpty.string_of_uint d, EmptyString).
Proof.
  induction d as [|d IH|d IH|d IH|d IH|d IH|d IH|d IH|d IH|d IH|d IH];
    [reflexivity|..];
    cbn [NilEmpty.string_of_uint span_digits];
    change (is_digit _) with true; cbn iota; rewrite IH; reflexivity.
Qed.

Lemma to_uint_headed (p : positive) :
  Decimal.nzhead (Pos.to_uint p) = Pos.to_uint p.
Proof.
  pose proof (DecimalPos.Unsigned.to_of (Pos.to_uint p)) as Hto.
  rewrite DecimalPos.Unsigned.of_to in Hto.
  change (N.to_uint (N.pos p)) with (Pos.to_uint p) in Hto.
  assert (Hn : Decimal.nzhead (Pos.to_uint p) <> Decimal.Nil).
  { intros Hnz. apply (DecimalPos.Unsigned.to_uint_nonzero p).
    rewrite Hto. apply unorm_0. exact Hnz. }
  rewrite <- (unorm_nzhead _ Hn). symmetry. exact Hto.
Qed.

Lemma scan_integer_uint (d : Decimal.uint) :
  d <> Decimal.Nil -> Decimal.nzhead d = d ->
  scan_integer (NilEmpty.string_of_uint d)
  = Some (NilEmpty.string_of_uint d, EmptyString)
  /\ scan_integer (String "-" (NilEmpty.string_of_uint d))
     = Some (String "-" (NilEmpty.string_of_uint d), EmptyString).
Proof.
  intros Hnil Hhead.
  destruct d as [|d|d|d|d|d|d|d|d|d|d]; [congruence| |..];
    [exfalso; exact (nzhead_nonzero _ _ Hhead)|..];
    unfold scan_integer; cbn [NilEmpty.string_of_uint];
    split; simpl; rewrite span_digits_uint; reflexivity.
Qed.

Lemma scan_integer_int (z : Z) :
  scan_integer (int_repr z) = Some (int_repr z, EmptyString).
Proof.
  unfold int_repr. destruct z as [|p|p]; [reflexivity| |].
  - cbn [Z.to_int NilZero.string_of_int].
    pose proof (DecimalPos.Unsigned.to_uint_nonnil p) as Hnil.
    destruct (scan_integer_uint _ Hnil (to_uint_headed p)) as [H1 _].
    unfold NilZero.string_of_uint.
    destruct (Pos.to_uint p); [congruence|exact H1..].
  - cbn [Z.to_int NilZero.string_of_int].
    pose proof (DecimalPos.Unsigned.to_uint_nonnil p) as Hnil.
    destruct (scan_integer_uint _ Hnil (to_uint_headed p)) as [_ H2].
    unfold NilZero.string_of_uint.
    destruct (Pos.to_uint p); [congruence|exact H2..].
Qed.

Lemma int_of_literal_repr (z : Z) : int_of_literal (int_repr z) = z.
Proof.
  unfold int_of_literal, int_repr.
  rewrite NilZero.isi.
  - apply DecimalZ.of_to.
  - destruct z; cbn; try discriminate.
    intros [= E]. exact (DecimalPos.Unsigned.to_uint_nonnil _ E).
  - destruct z; cbn; try discriminate.
    intros [= E]. exact (DecimalPos.Unsigned.to_uint_nonnil _ E).
Qed.

(** The text of an integer followed by the end of a value is read back. *)
Lemma scan_number_int (z : Z) (rest : string) :
  ends_value rest = true ->
  scan_number (int_repr z +:+ rest) = Some (PInt z, rest).
Proof.
  intros Hrest. unfold scan_number.
  rewrite scan_integer_app, scan_integer_int by exact Hrest.
  rewrite sapp_nil_l.
  assert (Hf : scan_frac rest = (EmptyString, rest)).
  { ends_cases Hrest; try reflexivity; unfold scan_frac; destruct x; reflexivity. }
  assert (He : scan_exp rest = (EmptyString, rest)).
  { ends_cases Hrest; reflexivity. }
  rewrite Hf, He. cbn. rewrite int_of_literal_repr. reflexivity.
Qed.

Lemma json_escape_cons (c : ascii) (s : string) :
  json_escape (String c s)
  = json_escape (String c EmptyString) +:+ json_escape s.
Proof.
  cbn [json_escape].
  repeat match goal with
         | |- context [if ?b then _ else _] => destruct b
         end; reflexivity.
Qed.

Lemma scanstring_char (c : ascii) (t : string) :
  scanstring (json_escape (String c EmptyString) +:+ t)
  = cons_char c (scanstring t).
Proof.
  destruct c as [[] [] [] [] [] [] [] []]; reflexivity.
Qed.

(** The escaped text of a string, closed by a quote, is read back. *)
Lemma scanstring_escape (s rest : string) :
  scanstring (json_escape s +:+ String DQ rest) = Some (s, rest).
Proof.
  induction s as [|c s IH]; [reflexivity|].
  rewrite json_escape_cons, sapp_assoc, scanstring_char, IH. reflexivity.
Qed.

Lemma skip_ws_spaces (n : nat) (s : string) :
  skip_ws (spaces n +:+ s) = skip_ws s.
Proof. induction n as [|n IH]; [reflexivity|]. cbn [spaces]. rewrite sapp_cons. exact IH. Qed.

Lemma skip_ws_newline_indent (level : nat) (s : string) :
  skip_ws (newline_indent level +:+ s) = skip_ws s.
Proof. unfold newline_indent. rewrite sapp_cons. apply skip_ws_spaces. Qed.

Lemma skip_ws_starts_value (s : string) :
  starts_value s = true -> skip_ws s = s.
Proof.
  destruct s as [|c s]; [discriminate|]. cbn [starts_value skip_ws].
  destruct (is_ws c); [discriminate|reflexivity].
Qed.

Lemma ends_value_newline_indent (level : nat) (s : string) :
  ends_value (newline_indent level +:+ s) = true.
Proof. reflexivity. Qed.

(** A digit or a minus sign is none of the characters [scan_once] looks
    for before it tries a number. *)
Lemma number_head (c : ascii) :
  is_digit c || Ascii.eqb c "-" = true ->
  Ascii.eqb c DQ = false /\ Ascii.eqb c "{" = false /\ Ascii.eqb c "[" = false
  /\ Ascii.eqb "n" c = false /\ Ascii.eqb "t" c = false
  /\ Ascii.eqb "f" c = false /\ is_ws c = false /\ Ascii.eqb c "]" = false.
Proof.
  destruct c as [[] [] [] [] [] [] [] []]; vm_compute; intros; try discriminate;
    repeat split.
Qed.

Lemma scan_integer_head (s i s1 : string) :
  scan_integer s = Some (i, s1) ->
  exists c r, s = String c r /\ is_digit c || Ascii.eqb c "-" = true.
Proof.
  unfold scan_integer. destruct s as [|c s]; [discriminate|].
  intros Hs. exists c, s. split; [reflexivity|].
  destruct (Ascii.eqb c "-"); [apply orb_true_r|].
  destruct (Ascii.eqb c "0") eqn:H0.
  - apply Ascii.eqb_eq in H0. subst c. reflexivity.
  - destruct (is_digit c); [reflexivity|discriminate].
Qed.

(** Where a number is read, [scan_once] reads the same number. *)
Lemma scan_once_number (fuel : nat) (s : string) (res : pyval * string) :
  scan_number s = Some res -> scan_once (S fuel) s = Some res.
Proof.
  intros Hnum.
  assert (Hhead : exists c r, s = String c r
                              /\ is_digit c || Ascii.eqb c "-" = true).
  { unfold scan_number in Hnum.
    destruct (scan_integer s) as [[i s1]|] eqn:Hi; [|discriminate].
    exact (scan_integer_head _ _ _ Hi). }
  destruct Hhead as (c & r & -> & Hc).
  destruct (number_head c Hc) as (H1 & H2 & H3 & H4 & H5 & H6 & _).
  cbn [scan_once strip_prefix]. rewrite H1, H2, H3, H4, H5, H6, Hnum.
  reflexivity.
Qed.

Ltac sflat :=
  repeat first [rewrite sapp_assoc | rewrite sapp_cons | rewrite sapp_nil_l].

Lemma pyval_induction (P : pyval -> Prop) :
  P PNone -> (forall b, P (PBool b)) -> (forall z, P (PInt z)) ->
  (forall r, P (PFloat r)) -> (forall s, P (PStr s)) ->
  (forall l, Forall P l -> P (PList l)) ->
  (forall d, Forall (fun kv => P (snd kv)) d -> P (PDict d)) ->
  forall v, P v.
Proof.
  intros HN HB HI HF HS HL HD. fix IH 1.
  intros [|b|z|r|s|l|d];
    [exact HN | apply HB | apply HI | apply HF | apply HS | |].
  - apply HL. induction l as [|x l IHl]; constructor; [apply IH|exact IHl].
  - apply HD. induction d as [|[k x] d IHd]; constructor; [apply IH|exact IHd].
Qed.

Lemma json_encode_list (level : nat) (l : list pyval) :
  l <> [] ->
  json_encode level (PList l)
  = "[" +:+ newline_indent (S level) +:+
    join ("," +:+ newline_indent (S level)) (map (json_encode (S level)) l)
    +:+ newline_indent level +:+ "]".
Proof. destruct l; [congruence|reflexivity]. Qed.

Lemma json_encode_dict (level : nat) (d : pydict) :
  d <> [] ->
  json_encode level (PDict d)
  = "{" +:+ newline_indent (S level) +:+
    join ("," +:+ newline_indent (S level))
         (map (fun kv => json_string (fst kv) +:+ ": " +:+
                         json_encode (S level) (snd kv)) d)
    +:+ newline_indent level +:+ "}".
Proof. destruct d; [congruence|reflexivity]. Qed.

Lemma valid_float_cases (r : string) :
  valid_float r = true ->
  (r = "nan" \/ r = "inf" \/ r = "-inf")
  \/ (is_float_text r = true /\ json_float r = r).
Proof.
  unfold valid_float, json_float.
  destruct (String.eqb_spec r "nan") as [->|_]; [auto|].
  destruct (String.eqb_spec r "inf") as [->|_]; [auto|].
  destruct (String.eqb_spec r "-inf") as [->|_]; [auto|].
  cbn [orb]. auto.
Qed.

Lemma number_text_head (s i s1 rest : string) :
  scan_integer s = Some (i, s1) -> starts_value (s +:+ rest) = true.
Proof.
  intros Hs. destruct (scan_integer_head _ _ _ Hs) as (c & r & -> & Hc).
  destruct (number_head c Hc) as (_ & _ & _ & _ & _ & _ & H7 & H8).
  rewrite sapp_cons. cbn [starts_value]. rewrite H7, H8. reflexivity.
Qed.

(** The text of a value starts with a character of the value. *)
Lemma json_encode_starts (level : nat) (v : pyval) (rest : string) :
  valid_json v = true -> starts_value (json_encode level v +:+ rest) = true.
Proof.
  destruct v as [|[]|z|r|s|[|x l]|[|kv d]]; intros Hv; try reflexivity.
  - cbn [json_encode]. eapply number_text_head. apply scan_integer_int.
  - cbn [json_encode valid_json] in *.
    destruct (valid_float_cases r Hv) as [[->|[->| ->]]|[Hr ->]];
      try reflexivity.
    unfold is_float_text in Hr.
    destruct (scan_integer r) as [[i s1]|] eqn:Hi; [|discriminate].
    eapply number_text_head. exact Hi.
Qed.

Lemma starts_value_inv (s : string) :
  starts_value s = true ->
  exists c r, s = String c r /\ is_ws c = false /\ Ascii.eqb c "]" = false.
Proof.
  destruct s as [|c r]; [discriminate|]. cbn [starts_value]. intros Hs.
  apply andb_true_iff in Hs as [H1 H2].
  exists c, r. split; [reflexivity|].
  split; apply negb_true_iff; assumption.
Qed.

Lemma length_newline_indent (level : nat) :
  (1 <= String.length (newline_indent level))%nat.
Proof. unfold newline_indent. cbn [String.length]. lia. Qed.

Lemma array_items_encode (lv : nat) (l : list pyval) :
  Forall (fun v => valid_json v = true /\ round_trips v) l -> l <> [] ->
  forall fuel k rest,
    (String.length (join ("," +:+ newline_indent lv) (map (json_encode lv) l))
     < fuel)%nat ->
    array_items fuel
      (join ("," +:+ newline_indent lv) (map (json_encode lv) l)
       +:+ newline_indent k +:+ String "]" rest)
    = Some (l, rest).
Proof.
  induction 1 as [|x l [Hvx Hx] Hl IH]; [congruence|]. intros _ fuel k rest Hfuel.
  destruct fuel as [|fuel]; [lia|].
  destruct l as [|y l].
  - cbn [map join] in *. cbn [array_items].
    rewrite Hx by (first [apply ends_value_newline_indent | lia]).
    rewrite skip_ws_newline_indent. reflexivity.
  - change (join ("," +:+ newline_indent lv) (map (json_encode lv) (x :: y :: l)))
      with (json_encode lv x +:+ ("," +:+ newline_indent lv) +:+
            join ("," +:+ newline_indent lv) (map (json_encode lv) (y :: l))) in *.
    rewrite !slength_app in Hfuel. cbn [String.length] in Hfuel.
    sflat. cbn [array_items].
    rewrite Hx by (first [reflexivity | lia]).
    cbn [skip_ws]. change (is_ws ",") with false. cbn iota.
    change (Ascii.eqb "," "]") with false. change (Ascii.eqb "," ",") with true.
    cbn iota. rewrite skip_ws_newline_indent.
    assert (Hy : valid_json y = true) by (inversion Hl as [|? ? [Hy _] _]; exact Hy).
    rewrite skip_ws_starts_value.
    2:{ change (map (json_encode lv) (y :: l))
          with (json_encode lv y :: map (json_encode lv) l).
        destruct (map (json_encode lv) l); cbn [join]; sflat;
          apply json_encode_starts; exact Hy. }
    change (String "," (newline_indent lv)) with ("," +:+ newline_indent lv).
    rewrite IH by (first [discriminate | lia]). reflexivity.
Qed.

Ltac sflat_in H :=
  repeat first [rewrite sapp_assoc in H | rewrite sapp_cons in H
               | rewrite sapp_nil_l in H].

Ltac chars := cbn [skip_ws is_ws Ascii.eqb Bool.eqb orb andb DQ].

Lemma pairs_text_head (lv : nat) (sep : string) (d : pydict) (tail : string) :
  d <> [] ->
  exists s,
    join sep (map (fun kv => json_string (fst kv) +:+ ": " +:+
                             json_encode lv (snd kv)) d) +:+ tail
    = String DQ s.
Proof.
  destruct d as [|[k v] [|kv d]]; [congruence|..]; intros _;
    cbn [map join fst snd]; unfold json_string; sflat; eexists; reflexivity.
Qed.

Lemma object_pairs_encode (lv : nat) (d : pydict) :
  Forall (fun kv => valid_json (snd kv) = true /\ round_trips (snd kv)) d ->
  d <> [] ->
  forall fuel k rest s,
    String DQ s
    = join ("," +:+ newline_indent lv)
           (map (fun kv => json_string (fst kv) +:+ ": " +:+
                           json_encode lv (snd kv)) d)
      +:+ newline_indent k +:+ String "}" rest ->
    (String.length
       (join ("," +:+ newline_indent lv)
             (map (fun kv => json_string (fst kv) +:+ ": " +:+
                             json_encode lv (snd kv)) d))
     < fuel)%nat ->
    object_pairs fuel s = Some (d, rest).
Proof.
  induction 1 as [|[key v] d [Hvx Hx] Hd IH]; [congruence|].
  intros _ fuel k rest s Heq Hfuel. cbn [fst snd] in *.
  destruct fuel as [|fuel]; [lia|].
  destruct d as [|kv d].
  - cbn [map join fst snd] in *. unfold json_string in Heq, Hfuel.
    rewrite !slength_app in Hfuel. cbn [String.length] in Hfuel.
    sflat_in Heq. injection Heq as ->.
    cbn [object_pairs]. rewrite scanstring_escape. chars.
    rewrite skip_ws_starts_value by (apply json_encode_starts; exact Hvx).
    rewrite Hx by (first [apply ends_value_newline_indent | lia]).
    rewrite skip_ws_newline_indent. reflexivity.
  - set (F := fun kv : string * pyval =>
                json_string (fst kv) +:+ ": " +:+ json_encode lv (snd kv)) in *.
    change (join ("," +:+ newline_indent lv) (map F ((key, v) :: kv :: d)))
      with ((json_string key +:+ ": " +:+ json_encode lv v)
            +:+ ("," +:+ newline_indent lv)
            +:+ join ("," +:+ newline_indent lv) (map F (kv :: d))) in *.
    unfold json_string in Heq, Hfuel.
    rewrite !slength_app in Hfuel. cbn [String.length] in Hfuel.
    destruct (pairs_text_head lv ("," +:+ newline_indent lv) (kv :: d)
                (newline_indent k +:+ String "}" rest)) as [s5 Hs5];
      [discriminate|]. fold F in Hs5.
    sflat_in Heq.
    change (String "," (newline_indent lv)) with ("," +:+ newline_indent lv) in Heq.
    rewrite Hs5 in Heq. injection Heq as ->.
    cbn [object_pairs]. rewrite scanstring_escape. chars.
    rewrite skip_ws_starts_value by (apply json_encode_starts; exact Hvx).
    rewrite Hx by (first [reflexivity | lia]). chars.
    rewrite skip_ws_newline_indent. chars.
    rewrite (IH ltac:(discriminate) fuel k rest s5 (eq_sym Hs5)) by lia.
    reflexivity.
Qed.

Lemma forallb_Forall_valid (l : list pyval) :
  forallb valid_json l = true ->
  Forall (fun v => valid_json v = true -> round_trips v) l ->
  Forall (fun v => valid_json v = true /\ round_trips v) l.
Proof.
  intros Hall HP. induction HP as [|x l Hx _ IH]; [constructor|].
  cbn [forallb] in Hall. apply andb_true_iff in Hall as [Hvx Hall].
  constructor; auto.
Qed.

Lemma forallb_Forall_valid_pairs (d : pydict) :
  forallb (fun kv => valid_json (snd kv)) d = true ->
  Forall (fun kv => valid_json (snd kv) = true -> round_trips (snd kv)) d ->
  Forall (fun kv => valid_json (snd kv) = true /\ round_trips (snd kv)) d.
Proof.
  intros Hall HP. induction HP as [|x l Hx _ IH]; [constructor|].
  cbn [forallb] in Hall. apply andb_true_iff in Hall as [Hvx Hall].
  constructor; auto.
Qed.

Lemma int_repr_nonempty (z : Z) : (1 <= String.length (int_repr z))%nat.
Proof.
  destruct (scan_integer_head _ _ _ (scan_integer_int z)) as (c & r & -> & _).
  cbn [String.length]. lia.
Qed.

(** Every valid value is read back from its text. *)
Lemma valid_round_trips (v : pyval) : valid_json v = true -> round_trips v.
Proof.
  induction v as [|b|z|r|s|l IHl|d IHd] using pyval_induction;
    intros Hv level fuel rest Hrest Hfuel.
  - destruct fuel as [|fuel]; [cbn in Hfuel; lia|]. reflexivity.
  - destruct fuel as [|fuel]; [destruct b; cbn in Hfuel; lia|].
    destruct b; reflexivity.
  - cbn [json_encode] in *.
    destruct fuel as [|fuel]; [pose proof (int_repr_nonempty z); lia|].
    apply scan_once_number, scan_number_int. exact Hrest.
  - cbn [json_encode valid_json] in *.
    destruct (valid_float_cases r Hv) as [[->|[->| ->]]|[Hr Hjr]].
    + destruct fuel as [|fuel]; [cbn in Hfuel; lia|]. reflexivity.
    + destruct fuel as [|fuel]; [cbn in Hfuel; lia|]. reflexivity.
    + destruct fuel as [|fuel]; [cbn in Hfuel; lia|]. reflexivity.
    + rewrite Hjr in *.
      assert (Hlen : (1 <= String.length r)%nat).
      { unfold is_float_text in Hr.
        destruct (scan_integer r) as [[i s1]|] eqn:Hi; [|discriminate].
        destruct (scan_integer_head _ _ _ Hi) as (c & r' & -> & _).
        cbn [String.length]. lia. }
      destruct fuel as [|fuel]; [lia|].
      apply scan_once_number, scan_number_float; assumption.
  - cbn [json_encode] in *. unfold json_string in *.
    destruct fuel as [|fuel]; [cbn [String.length] in Hfuel; lia|].
    sflat. cbn [scan_once]. chars. rewrite scanstring_escape. reflexivity.
  - cbn [valid_json] in Hv.
    pose proof (forallb_Forall_valid l Hv IHl) as Hall.
    destruct l as [|x l].
    { destruct fuel as [|fuel]; [cbn in Hfuel; lia|]. reflexivity. }
    rewrite json_encode_list in * by discriminate.
    rewrite !slength_app in Hfuel. cbn [String.length] in Hfuel.
    pose proof (length_newline_indent (S level)) as Hnl.
    destruct fuel as [|fuel]; [lia|].
    sflat. cbn [scan_once]. chars. rewrite skip_ws_newline_indent.
    change (String "," (newline_indent (S level)))
      with ("," +:+ newline_indent (S level)).
    assert (Hstart : starts_value
              (join ("," +:+ newline_indent (S level))
                    (map (json_encode (S level)) (x :: l))
               +:+ newline_indent level +:+ String "]" rest) = true).
    { inversion Hall as [|? ? [Hvx _] _]; subst.
      change (map (json_encode (S level)) (x :: l))
        with (json_encode (S level) x :: map (json_encode (S level)) l).
      destruct (map (json_encode (S level)) l); cbn [join]; sflat;
        apply json_encode_starts; exact Hvx. }
    rewrite skip_ws_starts_value by exact Hstart.
    destruct (starts_value_inv _ Hstart) as (c & r & Hcr & _ & Hc).
    rewrite Hcr. rewrite Hc. rewrite <- Hcr.
    rewrite array_items_encode; [reflexivity|exact Hall|discriminate|lia].
  - cbn [valid_json] in Hv. apply andb_true_iff in Hv as [Hnd Hv].
    apply bool_decide_eq_true in Hnd.
    pose proof (forallb_Forall_valid_pairs d Hv IHd) as Hall.
    destruct d as [|kv d].
    { destruct fuel as [|fuel]; [cbn in Hfuel; lia|]. reflexivity. }
    rewrite json_encode_dict in * by discriminate.
    rewrite !slength_app in Hfuel. cbn [String.length] in Hfuel.
    pose proof (length_newline_indent (S level)) as Hnl.
    destruct fuel as [|fuel]; [lia|].
    destruct (pairs_text_head (S level) ("," +:+ newline_indent (S level))
                (kv :: d) (newline_indent level +:+ String "}" rest))
      as [s5 Hs5]; [discriminate|].
    sflat. cbn [scan_once]. chars. rewrite skip_ws_newline_indent.
    change (String "," (newline_indent (S level)))
      with ("," +:+ newline_indent (S level)).
    rewrite Hs5. chars.
    rewrite (object_pairs_encode (S level) (kv :: d) Hall ltac:(discriminate)
               fuel level rest s5 (eq_sym Hs5)) by lia.
    rewrite dict_of_pairs_nodup by exact Hnd. reflexivity.
Qed.

(** C9: for every document whose dicts have distinct keys and whose
    floats carry the text of a float, reading the backup text that
    [save_backup] writes for it gives the same document back: the same
    tables in the same order, each with its columns and its rows in the
    same order. *)
Theorem backup_round_trip (x : pyval) :
  valid_json x = true ->
  json_loads (json_dumps x +:+ String "010" EmptyString) = Ok x.
Proof.
  intros Hx. unfold json_loads, json_dumps.
  rewrite skip_ws_starts_value by (apply json_encode_starts; exact Hx).
  rewrite (valid_round_trips x Hx 0%nat).
  - reflexivity.
  - reflexivity.
  - rewrite slength_app. lia.
Qed.

(** The document of the [users] store is valid and is read back from its
    backup text. *)
Lemma backup_round_trip_users :
  valid_json users_doc = true
  /\ json_loads (json_dumps users_doc +:+ String "010" EmptyString)
     = Ok users_doc.
Proof.
  assert (Hv : valid_json users_doc = true) by (vm_compute; reflexivity).
  split; [exact Hv|]. exact (backup_round_trip users_doc Hv).
Defined.

(** *** Further properties of the reconciliation pass *)

Section Passes.
Context `{Engine} `{Calendar}.
Variable secret : hash_secret.

Lemma bind_raise {A B} (m : M A) (k : A -> M B) (s s' : state) (e : exn) :
  m s = (Raise e, s') -> bind m k s = (Raise e, s').
Proof. intros E. unfold bind. rewrite E. reflexivity. Qed.

Lemma bind_lift {A B} (r : result A) (k : A -> M B) (s : state) :
  bind (lift r) k s
  = match r with
    | Ok a => k a s
    | Raise e => (Raise e, s)
    end.
Proof. unfold bind, lift. destruct r; reflexivity. Qed.










(** When [load_backup] returns, the exit step that follows does nothing. *)
Lemma pass_is_restore (dummy : bool) (s : state) :
  maybe_load_backup dummy secret s = load_backup dummy s ->
  main dummy secret s = load_backup dummy s.
Proof.
  intros Henter. unfold main, with_database. rewrite Henter.
  destruct (load_backup_log dummy s) as [_ Hrec].
  destruct (load_backup dummy s) as [[[]|e] s1]; [|reflexivity].
  cbn [ret]. apply maybe_save_backup_recovered. apply Hrec. reflexivity.
Qed.

(** X5: when the live store is absent and the backup exists, the whole
    pass is the restore, whatever the modification time of the backup and
    the hash secret: no fingerprint is computed and the exit step does
    nothing. *)
Theorem pass_with_store_absent
  (dummy : bool) (s : state) (text : string) (tb : Z) :
  db s = None -> backup s = Some (text, tb) ->
  main dummy secret s = load_backup dummy s.
Proof.
  intros Hdb Hb. apply pass_is_restore.
  unfold maybe_load_backup, backup_path_exists, path_exists.
  rewrite bind_gets, Hb.
  rewrite bool_decide_true by (eexists; reflexivity). cbn [negb].
  rewrite bind_gets, Hdb.
  rewrite bool_decide_false by (intros [x Hx]; discriminate). reflexivity.
Qed.


(** X7: when the backup is absent, a new object does nothing on enter and
    on exit writes the first backup from the live store: the text is the
    encoding of the document the store materialises to, stamped with the
    current time. *)
Theorem pass_with_backup_absent
  (dummy : bool) (st : store) (tdb : Z) (snaps : list (string * store)) (clk : Z)
  (data : pyval) :
  let s := fresh_state (Some (st, tdb)) None snaps clk in
  fst (as_storable_dict s) = Ok data ->
  main dummy secret s = (Ok tt, refreshed data s).
Proof.
  intros s Hdata. subst s. unfold fresh_state in *.
  set (s := State (Some (st, tdb)) None snaps clk false []) in *.
  assert (Hb : bool_decide (is_Some (backup s)) = false)
    by (apply bool_decide_false; intros [x Hx]; discriminate).
  unfold main, with_database.
  unfold maybe_load_backup at 1, backup_path_exists.
  rewrite bind_gets, Hb. cbn [negb ret].
  unfold maybe_save_backup, backup_path_exists. rewrite bind_gets.
  change (recovered s) with false. cbn iota.
  rewrite bind_gets, Hb. cbn [negb].
  unfold save_backup. rewrite bind_modify.
  rewrite (bind_ok _ _ (add_event Refresh s) (add_event Refresh s) data);
    [reflexivity|].
  apply (as_storable_dict_eval s); [eexists; reflexivity|reflexivity|exact Hdata].
Qed.

(** X8: with neither file present, and an engine whose new store has no
    user tables, the pass creates an empty live store and raises
    [NoResults] from the first query; no backup is written. *)
Theorem pass_with_neither_file
  (dummy : bool) (snaps : list (string * store)) (clk : Z) :
  catalog empty_store = [] ->
  main dummy secret (fresh_state None None snaps clk)
  = (Raise NoResults,
     State (Some (empty_store, clk)) None snaps clk false [Refresh]).
Proof.
  intros Hcat. unfold fresh_state.
  set (s := State None None snaps clk false []).
  assert (Hb : bool_decide (is_Some (backup s)) = false)
    by (apply bool_decide_false; intros [x Hx]; discriminate).
  unfold main, with_database.
  unfold maybe_load_backup at 1, backup_path_exists.
  rewrite bind_gets, Hb. cbn [negb ret].
  unfold maybe_save_backup, backup_path_exists. rewrite bind_gets.
  change (recovered s) with false. cbn iota.
  rewrite bind_gets, Hb. cbn [negb].
  unfold save_backup. rewrite bind_modify.
  subst s. unfold as_storable_dict, query_catalog, bind, connect.
  cbn [db add_event]. rewrite Hcat. reflexivity.
Qed.

(** The text [save_backup] writes for a valid document is read back as
    that document. *)
Lemma valid_round_trip_text (x : pyval) :
  valid_json x = true ->
  json_loads (json_dumps x +:+ String "010" EmptyString) = Ok x.
Proof.
  intros Hx. unfold json_loads, json_dumps.
  rewrite skip_ws_starts_value by (apply json_encode_starts; exact Hx).
  rewrite (valid_round_trips x Hx 0%nat).
  - reflexivity.
  - reflexivity.
  - rewrite slength_app. lia.
Qed.

(** *** Dicts under assignment *)

Lemma dict_get_dict_set_eq {V} (k : string) (v : V) (d : list (string * V)) :
  dict_get k (dict_set k v d) = Some v.
Proof.
  induction d as [|[k' v'] d IH]; cbn [dict_set dict_get].
  - rewrite String.eqb_refl. reflexivity.
  - destruct (String.eqb_spec k k') as [<-|Hne]; cbn [dict_get].
    + rewrite String.eqb_refl. reflexivity.
    + rewrite (eqb_false_ne _ _ Hne). exact IH.
Qed.

Lemma dict_get_dict_set_ne {V} (k k' : string) (v : V) (d : list (string * V)) :
  k' <> k -> dict_get k' (dict_set k v d) = dict_get k' d.
Proof.
  intros Hne. induction d as [|[k0 v0] d IH]; cbn [dict_set dict_get].
  - rewrite (eqb_false_ne _ _ Hne). reflexivity.
  - destruct (String.eqb_spec k k0) as [<-|Hne0]; cbn [dict_get].
    + rewrite (eqb_false_ne _ _ Hne). reflexivity.
    + destruct (String.eqb k' k0); [reflexivity|exact IH].
Qed.

Lemma dict_keys_dict_set {V} (k : string) (v : V) (d : list (string * V)) :
  forall x, x ∈ dict_keys (dict_set k v d) -> x = k \/ x ∈ dict_keys d.
Proof.
  induction d as [|[k' v'] d IH]; intros x; cbn [dict_set dict_keys map fst].
  - intros Hx. apply list_elem_of_singleton in Hx. auto.
  - destruct (String.eqb_spec k k') as [<-|Hne]; cbn [map fst].
    + intros Hx. right. exact Hx.
    + intros Hx. apply elem_of_cons in Hx as [->|Hx].
      * right. left.
      * destruct (IH x Hx) as [->|Hin]; [auto|]. right. right. exact Hin.
Qed.

(** Assignment keeps the keys of a dict distinct. *)
Lemma dict_set_nodup {V} (k : string) (v : V) (d : list (string * V)) :
  NoDup (dict_keys d) -> NoDup (dict_keys (dict_set k v d)).
Proof.
  induction d as [|[k' v'] d IH]; intros Hnd; cbn [dict_set dict_keys map fst].
  - repeat constructor. intros Hin. inversion Hin.
  - cbn [dict_keys map fst] in Hnd. apply NoDup_cons in Hnd as [Hk' Hnd].
    destruct (String.eqb_spec k k') as [<-|Hne]; cbn [map fst].
    + apply NoDup_cons. split; assumption.
    + apply NoDup_cons. split; [|apply IH; exact Hnd].
      intros Hin. apply dict_keys_dict_set in Hin as [->|Hin]; auto.
Qed.

Lemma dict_set_forall {V} (P : V -> bool) (k : string) (v : V)
  (d : list (string * V)) :
  forallb (fun kv => P (snd kv)) d = true -> P v = true ->
  forallb (fun kv => P (snd kv)) (dict_set k v d) = true.
Proof.
  intros Hd Hv. induction d as [|[k' v'] d IH]; cbn [dict_set forallb snd].
  - rewrite Hv. reflexivity.
  - cbn [forallb snd] in Hd. apply andb_true_iff in Hd as [Hv' Hd].
    destruct (String.eqb k k'); cbn [forallb snd].
    + rewrite Hv, Hd. reflexivity.
    + rewrite Hv', IH by exact Hd. reflexivity.
Qed.

Lemma dict_get_forall {V} (P : V -> bool) (k : string) (v : V)
  (d : list (string * V)) :
  forallb (fun kv => P (snd kv)) d = true -> dict_get k d = Some v ->
  P v = true.
Proof.
  induction d as [|[k' v'] d IH]; cbn [dict_get forallb snd]; [discriminate|].
  intros Hd Hget. apply andb_true_iff in Hd as [Hv' Hd].
  destruct (String.eqb k k'); [congruence|auto].
Qed.

Lemma valid_dict_set (k : string) (v : pyval) (d : pydict) :
  valid_json (PDict d) = true -> valid_json v = true ->
  valid_json (PDict (dict_set k v d)) = true.
Proof.
  cbn [valid_json]. intros Hd Hv. apply andb_true_iff in Hd as [Hnd Hall].
  apply bool_decide_eq_true in Hnd.
  apply andb_true_iff. split.
  - apply bool_decide_eq_true. apply dict_set_nodup. exact Hnd.
  - apply dict_set_forall; assumption.
Qed.

Lemma valid_dict_get (k : string) (v : pyval) (d : pydict) :
  valid_json (PDict d) = true -> dict_get k d = Some v -> valid_json v = true.
Proof.
  cbn [valid_json]. intros Hd. apply andb_true_iff in Hd as [_ Hall].
  apply dict_get_forall. exact Hall.
Qed.

(** *** The document of the live store is a valid document *)

Lemma parse_column_valid (cdata n : string) (spec : pyval) :
  parse_column cdata = Ok (n, spec) -> valid_json spec = true.
Proof.
  unfold parse_column. destruct (py_split cdata) as [|n0 [|t l]]; try discriminate.
  intros [= _ <-].
  destruct (contains_sub "NOT NULL" cdata), (contains_sub "UNIQUE" cdata),
    (contains_sub "AUTOINCREMENT" cdata), (contains_sub "PRIMARY KEY" cdata);
    vm_compute; reflexivity.
Qed.

Lemma parse_columns_valid (fragments : list string) (columns cols : pydict) :
  valid_json (PDict columns) = true ->
  parse_columns fragments columns = Ok cols ->
  valid_json (PDict cols) = true.
Proof.
  revert columns. induction fragments as [|cdata rest IH]; intros columns Hv.
  - intros [= <-]. exact Hv.
  - cbn [parse_columns]. destruct (parse_column cdata) as [[n spec]|e] eqn:Hc;
      [|discriminate].
    cbn [rbind fst snd]. apply IH. apply valid_dict_set; [exact Hv|].
    exact (parse_column_valid _ _ _ Hc).
Qed.

Lemma valid_table (cols : pydict) :
  valid_json (PDict cols) = true ->
  valid_json (PDict [("rows", PList []); ("columns", PDict cols)]) = true.
Proof.
  intros Hc.
  change (valid_json (PDict [("rows", PList []); ("columns", PDict cols)]))
    with (bool_decide (NoDup ["rows"; "columns"])
          && (valid_json (PList []) && (valid_json (PDict cols) && true))).
  rewrite Hc. reflexivity.
Qed.

Lemma parse_sources_valid (sources : list string) (data data' : pydict) :
  valid_json (PDict data) = true ->
  parse_sources sources data = Ok data' ->
  valid_json (PDict data') = true.
Proof.
  revert data. induction sources as [|sql rest IH]; intros data Hv.
  - intros [= <-]. exact Hv.
  - cbn [parse_sources]. unfold parse_create_table.
    destruct (create_re_match (one_line sql)) as [[name column_data]|];
      [|discriminate].
    destruct (parse_columns (column_fragments column_data) []) as [cols|e] eqn:Hc;
      [|discriminate].
    cbn [rbind fst snd]. apply IH. apply valid_dict_set; [exact Hv|].
    apply valid_table. exact (parse_columns_valid _ [] cols eq_refl Hc).
Qed.

Lemma query_table_existing (s : state) (st : store) (t : Z) (table : string) :
  db s = Some (st, t) ->
  query_table table s
  = match select_all table st with
    | None => (Raise (SqliteError ("SELECT * FROM " +:+ table +:+ ";")), s)
    | Some [] => (Raise NoResults, s)
    | Some (r :: rs) => (Ok (r :: rs), s)
    end.
Proof.
  intros Hdb. unfold query_table, bind, connect. rewrite Hdb.
  destruct (select_all table st) as [[|r rs]|]; reflexivity.
Qed.

Lemma fill_rows_valid (s : state) (st : store) (t : Z)
  (keys : list string) (data data' : pydict) :
  db s = Some (st, t) -> rows_valid st ->
  valid_json (PDict data) = true ->
  fst (fill_rows keys data s) = Ok data' ->
  valid_json (PDict data') = true.
Proof.
  intros Hdb Hrows. revert data.
  induction keys as [|table keys IH]; intros data Hv; cbn [fill_rows].
  - intros [= <-]. exact Hv.
  - unfold bind at 1. rewrite (query_table_existing s st t table Hdb).
    destruct (select_all table st) as [[|r rs]|] eqn:Hsel; try discriminate.
    destruct (dict_get table data) as [[| | | | | |tabledata]|] eqn:Hget;
      try discriminate.
    apply IH. apply valid_dict_set; [exact Hv|].
    apply valid_dict_set.
    + exact (valid_dict_get _ _ _ Hv Hget).
    + exact (Hrows table (r :: rs) Hsel).
Qed.

(** The document built from a live store whose rows are valid values is
    a valid document. *)
Lemma storable_dict_valid
  (s : state) (st : store) (t : Z) (data : pyval) :
  db s = Some (st, t) -> rows_valid st ->
  fst (as_storable_dict s) = Ok data ->
  valid_json data = true.
Proof.
  intros Hdb Hrows. unfold as_storable_dict.
  unfold bind at 1. unfold query_catalog, bind at 1, connect. rewrite Hdb.
  destruct (catalog st) as [|sql sources] eqn:Hcat; [discriminate|].
  cbn [ret]. rewrite bind_lift.
  destruct (parse_sources (sql :: sources) []) as [data0|e] eqn:Hparse;
    [|discriminate].
  pose proof (parse_sources_valid _ [] data0 eq_refl Hparse) as Hv0.
  unfold bind.
  destruct (fill_rows (dict_keys data0) data0 s) as [[data1|e] s1] eqn:Hfill;
    [|discriminate].
  intros [= <-].
  apply (fill_rows_valid s st t (dict_keys data0) data0 data1 Hdb Hrows Hv0).
  rewrite Hfill. reflexivity.
Qed.

(** X9: the document built from a live store whose rows are valid values
    is a valid document: in every dict of it (tables, columns, column
    specs, rows) the keys are distinct, also when the catalog names a
    table or a column twice.  So the text [save_backup] would write for
    it decodes to the same document. *)
Theorem as_storable_dict_valid
  (s : state) (st : store) (t : Z) (data : pyval) :
  db s = Some (st, t) -> rows_valid st ->
  fst (as_storable_dict s) = Ok data ->
  valid_json data = true
  /\ json_loads (json_dumps data +:+ String "010" EmptyString) = Ok data.
Proof.
  intros Hdb Hrows Hdata.
  pose proof (storable_dict_valid s st t data Hdb Hrows Hdata) as Hvalid.
  split; [exact Hvalid|].
  apply valid_round_trip_text. exact Hvalid.
Qed.

(** X10: after [save_backup] has written the document of a live store with
    valid rows, reading the backup gives that document back, so the two
    fingerprints are equal under every hash secret. *)
Theorem save_backup_then_same
  (st : store) (tdb : Z) (b : option (string * Z)) (snaps : list (string * store))
  (clk : Z) (rec : bool) (lg : list event) (data : pyval) :
  let s := State (Some (st, tdb)) b snaps clk rec lg in
  rows_valid st ->
  fst (as_storable_dict s) = Ok data ->
  save_backup s = (Ok tt, refreshed data s)
  /\ read_backup (refreshed data s) = (Ok data, refreshed data s)
  /\ backup_is_same secret (refreshed data s) = (Ok true, refreshed data s).
Proof.
  intros s Hrows Hdata.
  assert (Hvalid : valid_json data = true)
    by (apply (storable_dict_valid s st tdb data eq_refl Hrows Hdata)).
  assert (Hload : json_loads (json_dumps data +:+ String "010" EmptyString)
                  = Ok data)
    by (apply valid_round_trip_text; exact Hvalid).
  split; [|split].
  - unfold save_backup. rewrite bind_modify.
    rewrite (bind_ok _ _ (add_event Refresh s) (add_event Refresh s) data);
      [reflexivity|].
    apply (as_storable_dict_eval s); [eexists; reflexivity|reflexivity|exact Hdata].
  - unfold read_backup, refreshed. cbn [backup set_backup]. rewrite Hload.
    reflexivity.
  - unfold refreshed, set_backup, add_event. cbn [db backup snapshots clock recovered log s].
    rewrite (both_backup_is_same secret st tdb _ clk snaps clk rec
               (lg ++ [Refresh]) data data).
    + rewrite Z.eqb_refl. reflexivity.
    + pose proof (as_storable_dict_eval s
                    (State (Some (st, tdb))
                       (Some (json_dumps data +:+ String "010" EmptyString, clk))
                       snaps clk rec (lg ++ [Refresh])) data
                    ltac:(eexists; reflexivity) eq_refl Hdata) as E.
      rewrite E. reflexivity.
    + exact Hload.
Qed.

(** X11: a pass that follows a refresh, with the live store untouched and
    not stamped later than the new backup, changes nothing: it neither
    restores nor refreshes. *)
Theorem pass_after_refresh_is_idle
  (dummy : bool) (st : store) (tdb : Z) (snaps : list (string * store))
  (clk clk' : Z) (data : pyval) :
  let text := json_dumps data +:+ String "010" EmptyString in
  let s' := fresh_state (Some (st, tdb)) (Some (text, clk)) snaps clk' in
  rows_valid st ->
  fst (as_storable_dict s') = Ok data ->
  tdb <= clk ->
  main dummy secret s' = (Ok tt, s').
Proof.
  intros text s' Hrows Hdata Hle.
  assert (Hvalid : valid_json data = true)
    by (apply (storable_dict_valid s' st tdb data eq_refl Hrows Hdata)).
  assert (Hload : json_loads text = Ok data)
    by (apply valid_round_trip_text; exact Hvalid).
  unfold s', fresh_state.
  rewrite (both_main_without_restore dummy secret st tdb text clk snaps clk'
             false [] data data Hdata Hload eq_refl).
  - replace (clk <? tdb) with false by (symmetry; apply Z.ltb_ge; exact Hle).
    reflexivity.
  - rewrite Z.eqb_refl. reflexivity.
Qed.

(** *** Stores that cannot be read *)

(** Every table entry the schema loop builds is a dict. *)
Lemma parse_sources_tables (sources : list string) (data data' : pydict) :
  Forall (fun kv => exists td, snd kv = PDict td) data ->
  parse_sources sources data = Ok data' ->
  Forall (fun kv => exists td, snd kv = PDict td) data'.
Proof.
  revert data. induction sources as [|sql rest IH]; intros data Hd.
  - intros [= <-]. exact Hd.
  - cbn [parse_sources]. destruct (parse_create_table sql) as [[name cols]|e];
      [|discriminate].
    cbn [rbind fst snd]. apply IH.
    clear IH. induction Hd as [|[k v] d Hkv Hd IHd]; cbn [dict_set].
    + constructor; [eexists; reflexivity|constructor].
    + destruct (String.eqb name k); constructor;
        first [eexists; reflexivity | assumption].
Qed.

Lemma dict_get_table (k : string) (data : pydict) :
  Forall (fun kv => exists td, snd kv = PDict td) data ->
  k ∈ dict_keys data ->
  exists td, dict_get k data = Some (PDict td).
Proof.
  induction 1 as [|[k' v'] d [td Htd] Hd IH]; intros Hin; [inversion Hin|].
  cbn [dict_get]. cbn [snd] in Htd. subst v'.
  destruct (String.eqb_spec k k') as [_|Hne]; [eauto|].
  cbn [dict_keys map fst] in Hin. apply elem_of_cons in Hin as [?|Hin];
    [congruence|auto].
Qed.

Lemma fill_rows_empty_table (s : state) (st : store) (t : Z)
  (keys : list string) (data : pydict) :
  db s = Some (st, t) ->
  (forall k, k ∈ keys -> exists td, dict_get k data = Some (PDict td)) ->
  (forall k, k ∈ keys -> select_all k st <> None) ->
  (exists k, k ∈ keys /\ select_all k st = Some []) ->
  fill_rows keys data s = (Raise NoResults, s).
Proof.
  intros Hdb. revert data.
  induction keys as [|table keys IH]; intros data Hget Hsel Hempty.
  - destruct Hempty as (k & Hin & _). inversion Hin.
  - cbn [fill_rows]. unfold bind at 1.
    rewrite (query_table_existing s st t table Hdb).
    destruct (select_all table st) as [[|r rs]|] eqn:Htab.
    + reflexivity.
    + destruct (Hget table ltac:(left)) as [td ->].
      apply IH.
      * intros k Hk. destruct (String.eqb_spec k table) as [->|Hne].
        -- rewrite dict_get_dict_set_eq. eauto.
        -- rewrite dict_get_dict_set_ne by exact Hne. apply Hget. right. exact Hk.
      * intros k Hk. apply Hsel. right. exact Hk.
      * destruct Hempty as (k & Hin & Hk).
        apply elem_of_cons in Hin as [->|Hin]; [congruence|eauto].
    + exfalso. apply (Hsel table); [left|exact Htab].
Qed.

(** X12: a live store in which some user table has no rows cannot be
    backed up: when every table can be read and one of them is empty,
    [save_backup] raises [NoResults] and the backup file stays as it
    was. *)
Theorem save_backup_empty_table
  (s : state) (st : store) (t : Z) (data : pydict) :
  db s = Some (st, t) ->
  parse_sources (catalog st) [] = Ok data ->
  (forall k, k ∈ dict_keys data -> select_all k st <> None) ->
  (exists k, k ∈ dict_keys data /\ select_all k st = Some []) ->
  save_backup s = (Raise NoResults, add_event Refresh s).
Proof.
  intros Hdb Hparse Hsel Hempty.
  unfold save_backup. rewrite bind_modify.
  apply bind_raise.
  set (s1 := add_event Refresh s).
  assert (Hdb1 : db s1 = Some (st, t)) by exact Hdb.
  unfold as_storable_dict.
  unfold bind at 1. unfold query_catalog, bind at 1, connect. rewrite Hdb1.
  destruct (catalog st) as [|sql sources] eqn:Hcat.
  { cbn in Hparse. injection Hparse as <-.
    destruct Hempty as (k & Hin & _). inversion Hin. }
  cbn [ret]. rewrite bind_lift, Hparse.
  apply bind_raise.
  apply (fill_rows_empty_table s1 st t); [exact Hdb1| |exact Hsel|exact Hempty].
  intros k Hk. apply dict_get_table; [|exact Hk].
  apply (parse_sources_tables (sql :: sources) [] data); [constructor|exact Hparse].
Qed.

Lemma as_storable_dict_empty_catalog (s : state) (st : store) (t : Z) :
  db s = Some (st, t) -> catalog st = [] ->
  as_storable_dict s = (Raise NoResults, s).
Proof.
  intros Hdb Hcat. unfold as_storable_dict, query_catalog, bind, connect.
  rewrite Hdb, Hcat. reflexivity.
Qed.

(** X13: a live store without user tables cannot be read: the first query
    of [as_storable_dict] raises [NoResults], so neither fingerprint
    comparison nor refresh is possible for it. *)
Theorem as_storable_dict_no_tables (s : state) (st : store) (t : Z) :
  db s = Some (st, t) -> catalog st = [] ->
  as_storable_dict s = (Raise NoResults, s)
  /\ backup_is_same secret s = (Raise NoResults, s)
  /\ save_backup s = (Raise NoResults, add_event Refresh s).
Proof.
  intros Hdb Hcat.
  split; [apply (as_storable_dict_empty_catalog s st t Hdb Hcat)|]. split.
  - unfold backup_is_same, hash. apply bind_raise, bind_raise.
    apply (as_storable_dict_empty_catalog s st t Hdb Hcat).
  - unfold save_backup. rewrite bind_modify. apply bind_raise.
    apply (as_storable_dict_empty_catalog _ st t); [exact Hdb|exact Hcat].
Qed.

End Passes.


Lemma users_store_rows_valid : rows_valid users_store.
Proof.
  intros table rows. cbn.
  destruct (String.eqb table "users"); [|discriminate].
  intros [= <-]. reflexivity.
Qed.





Lemma pass_with_store_absent_witness :
  db clash_state = None
  /\ backup clash_state = Some (backup_text clash_doc, 100)
  /\ main false seed0 clash_state = load_backup false clash_state.
Proof.
  assert (H1 : db clash_state = None) by reflexivity.
  assert (H2 : backup clash_state = Some (backup_text clash_doc, 100))
    by reflexivity.
  split; [exact H1|]. split; [exact H2|].
  exact (pass_with_store_absent seed0 false clash_state
           (backup_text clash_doc) 100 H1 H2).
Defined.


Lemma pass_with_backup_absent_witness :
  let s := fresh_state (Some (users_store, 100)) None [] 300 in
  fst (as_storable_dict s) = Ok users_doc
  /\ main false seed0 s = (Ok tt, refreshed users_doc s).
Proof.
  intros s.
  assert (H1 : fst (as_storable_dict s) = Ok users_doc)
    by (vm_compute; reflexivity).
  split; [exact H1|].
  exact (pass_with_backup_absent seed0 false users_store 100 [] 300 users_doc H1).
Defined.

Lemma pass_with_neither_file_witness :
  catalog (empty_store : toy_store) = []
  /\ main false seed0 (fresh_state None None [] 300)
     = (Raise NoResults,
        State (Some (empty_store, 300)) None [] 300 false [Refresh]).
Proof.
  assert (H1 : catalog (empty_store : toy_store) = []) by reflexivity.
  split; [exact H1|].
  exact (pass_with_neither_file seed0 false [] 300 H1).
Defined.

Lemma as_storable_dict_valid_witness :
  db same_content_state = Some (users_store, 200)
  /\ rows_valid users_store
  /\ fst (as_storable_dict same_content_state) = Ok users_doc
  /\ valid_json users_doc = true
  /\ json_loads (json_dumps users_doc +:+ String "010" EmptyString)
     = Ok users_doc.
Proof.
  assert (H0 : db same_content_state = Some (users_store, 200)) by reflexivity.
  assert (H1 : fst (as_storable_dict same_content_state) = Ok users_doc)
    by (vm_compute; reflexivity).
  split; [exact H0|]. split; [exact users_store_rows_valid|].
  split; [exact H1|].
  exact (as_storable_dict_valid same_content_state users_store 200 users_doc
           H0 users_store_rows_valid H1).
Defined.

Lemma save_backup_then_same_witness :
  let s := State (Some (users_store, 100)) None [] 300 false [] in
  rows_valid users_store
  /\ fst (as_storable_dict s) = Ok users_doc
  /\ save_backup s = (Ok tt, refreshed users_doc s)
  /\ read_backup (refreshed users_doc s) = (Ok users_doc, refreshed users_doc s)
  /\ backup_is_same seed0 (refreshed users_doc s)
     = (Ok true, refreshed users_doc s).
Proof.
  intros s.
  assert (H1 : fst (as_storable_dict s) = Ok users_doc)
    by (vm_compute; reflexivity).
  split; [exact users_store_rows_valid|]. split; [exact H1|].
  exact (save_backup_then_same seed0 users_store 100 None [] 300 false []
           users_doc users_store_rows_valid H1).
Defined.

Lemma pass_after_refresh_is_idle_witness :
  let text := json_dumps users_doc +:+ String "010" EmptyString in
  let s' := fresh_state (Some (users_store, 100)) (Some (text, 300)) [] 400 in
  rows_valid users_store
  /\ fst (as_storable_dict s') = Ok users_doc
  /\ 100 <= 300
  /\ main false seed0 s' = (Ok tt, s').
Proof.
  intros text s'.
  assert (H1 : fst (as_storable_dict s') = Ok users_doc)
    by (vm_compute; reflexivity).
  assert (H2 : 100 <= 300) by lia.
  split; [exact users_store_rows_valid|]. split; [exact H1|].
  split; [exact H2|].
  exact (pass_after_refresh_is_idle seed0 false users_store 100 [] 300 400
           users_doc users_store_rows_valid H1 H2).
Defined.

Lemma save_backup_empty_table_witness :
  let s := fresh_state (Some (empty_table_store, 100)) None [] 300 in
  db s = Some (empty_table_store, 100)
  /\ parse_sources (catalog empty_table_store) [] = Ok empty_table_schema
  /\ (forall k, k ∈ dict_keys empty_table_schema ->
                select_all k empty_table_store <> None)
  /\ (exists k, k ∈ dict_keys empty_table_schema
                /\ select_all k empty_table_store = Some [])
  /\ save_backup s = (Raise NoResults, add_event Refresh s).
Proof.
  intros s.
  assert (H1 : db s = Some (empty_table_store, 100)) by reflexivity.
  assert (H2 : parse_sources (catalog empty_table_store) []
               = Ok empty_table_schema) by (vm_compute; reflexivity).
  assert (H3 : forall k, k ∈ dict_keys empty_table_schema ->
                         select_all k empty_table_store <> None).
  { intros k Hk. apply list_elem_of_singleton in Hk. subst k. discriminate. }
  assert (H4 : exists k, k ∈ dict_keys empty_table_schema
                         /\ select_all k empty_table_store = Some []).
  { exists "t". split; [left|reflexivity]. }
  split; [exact H1|]. split; [exact H2|]. split; [exact H3|].
  split; [exact H4|].
  exact (save_backup_empty_table s empty_table_store 100 empty_table_schema
           H1 H2 H3 H4).
Defined.

Lemma as_storable_dict_no_tables_witness :
  let s := fresh_state (Some (ToyStore [] [], 100)) None [] 300 in
  db s = Some (ToyStore [] [], 100)
  /\ catalog (ToyStore [] []) = []
  /\ as_storable_dict s = (Raise NoResults, s)
  /\ backup_is_same seed0 s = (Raise NoResults, s)
  /\ save_backup s = (Raise NoResults, add_event Refresh s).
Proof.
  intros s.
  assert (H1 : db s = Some (ToyStore [] [], 100)) by reflexivity.
  assert (H2 : catalog (ToyStore [] []) = []) by reflexivity.
  split; [exact H1|]. split; [exact H2|].
  exact (as_storable_dict_no_tables seed0 s (ToyStore [] []) 100 H1 H2).
Defined.

(** *** Restores the engine stops, and stores without tables *)

Section Rejected.
Context `{Engine} `{Calendar}.
Variable secret : hash_secret.








(** The enter step over a live store without user tables and a backup. *)
Lemma enter_over_empty_store
  (dummy : bool) (s : state) (st : store) (t : Z) (b : string * Z) :
  db s = Some (st, t) -> catalog st = [] -> backup s = Some b ->
  maybe_load_backup dummy secret s = (Raise NoResults, s).
Proof.
  intros Hdb Hcat Hb.
  unfold maybe_load_backup, backup_path_exists, path_exists.
  rewrite bind_gets, Hb.
  rewrite bool_decide_true by (eexists; reflexivity). cbn [negb].
  rewrite bind_gets, Hdb.
  rewrite bool_decide_true by (eexists; reflexivity). cbn [negb].
  unfold backup_is_newer.
  rewrite (bind_raise _ _ s s NoResults); [reflexivity|].
  unfold backup_is_same, hash. apply bind_raise, bind_raise, bind_raise.
  apply (as_storable_dict_empty_catalog s st t Hdb Hcat).
Qed.

(** X15: a pass of an object that has not recovered, over a live store
    without user tables, raises [NoResults] whether or not a backup
    exists: with a backup the enter step fails at the fingerprint and
    nothing changes; without one the exit step fails in [save_backup] and
    no backup is written.  The store is never restored over. *)
Theorem pass_with_empty_store
  (dummy : bool) (s : state) (st : store) (t : Z) :
  db s = Some (st, t) -> catalog st = [] -> recovered s = false ->
  main dummy secret s
  = (Raise NoResults,
     match backup s with
     | Some _ => s
     | None => add_event Refresh s
     end).
Proof.
  intros Hdb Hcat Hrec. unfold main, with_database.
  destruct (backup s) as [b|] eqn:Hb.
  - rewrite (enter_over_empty_store dummy s st t b Hdb Hcat Hb). reflexivity.
  - unfold maybe_load_backup at 1, backup_path_exists.
    rewrite bind_gets, Hb.
    rewrite bool_decide_false by (intros [x Hx]; discriminate).
    cbn [negb ret].
    unfold maybe_save_backup, backup_path_exists.
    rewrite bind_gets, Hrec. cbn iota. rewrite bind_gets, Hb.
    rewrite bool_decide_false by (intros [x Hx]; discriminate).
    cbn [negb]. unfold save_backup. rewrite bind_modify. apply bind_raise.
    apply (as_storable_dict_empty_catalog _ st t); [exact Hdb|exact Hcat].
Qed.


(** X17: an exception raised by the body of the [with] statement does not
    stop the exit step.  When the backup is absent and the body raises
    after leaving a live store that can be read, the first backup is
    still written from that store, and then the body's exception goes
    on. *)
Theorem body_exception_still_refreshes
  (dummy : bool) (body : M unit) (s s2 : state) (e : exn) (data : pyval) :
  backup s = None ->
  body s = (Raise e, s2) ->
  backup s2 = None -> recovered s2 = false -> is_Some (db s2) ->
  fst (as_storable_dict s2) = Ok data ->
  with_database dummy secret body s = (Raise e, refreshed data s2).
Proof.
  intros Hb Hbody Hb2 Hrec Hdb Hdata. unfold with_database.
  unfold maybe_load_backup at 1, backup_path_exists.
  rewrite bind_gets, Hb.
  rewrite bool_decide_false by (intros [x Hx]; discriminate).
  cbn [negb ret]. rewrite Hbody.
  assert (Hsave : maybe_save_backup secret s2 = (Ok tt, refreshed data s2)).
  { unfold maybe_save_backup, backup_path_exists.
    rewrite bind_gets, Hrec. cbn iota. rewrite bind_gets, Hb2.
    rewrite bool_decide_false by (intros [x Hx]; discriminate).
    cbn [negb]. unfold save_backup. rewrite bind_modify.
    rewrite (bind_ok _ _ (add_event Refresh s2) (add_event Refresh s2) data);
      [reflexivity|].
    apply (as_storable_dict_eval s2); [exact Hdb|reflexivity|exact Hdata]. }
  rewrite Hsave. reflexivity.
Qed.

End Rejected.


(** The backup is newer and holds a table, yet the pass only raises. *)
Lemma pass_with_empty_store_witness :
  db no_tables_state = Some (ToyStore [] [], 100)
  /\ catalog (ToyStore [] []) = []
  /\ recovered no_tables_state = false
  /\ main false seed0 no_tables_state
     = (Raise NoResults,
        match backup no_tables_state with
        | Some _ => no_tables_state
        | None => add_event Refresh no_tables_state
        end).
Proof.
  assert (H1 : db no_tables_state = Some (ToyStore [] [], 100)) by reflexivity.
  assert (H2 : catalog (ToyStore [] []) = []) by reflexivity.
  assert (H3 : recovered no_tables_state = false) by reflexivity.
  split; [exact H1|]. split; [exact H2|]. split; [exact H3|].
  exact (pass_with_empty_store seed0 false no_tables_state (ToyStore [] [])
           100 H1 H2 H3).
Defined.


Lemma body_exception_still_refreshes_witness :
  backup first_run_state = None
  /\ (raise KeyError : M unit) first_run_state
     = (Raise KeyError, first_run_state)
  /\ recovered first_run_state = false
  /\ is_Some (db first_run_state)
  /\ fst (as_storable_dict first_run_state) = Ok users_doc
  /\ with_database false seed0 (raise KeyError) first_run_state
     = (Raise KeyError, refreshed users_doc first_run_state).
Proof.
  assert (H1 : backup first_run_state = None) by reflexivity.
  assert (H2 : (raise KeyError : M unit) first_run_state
               = (Raise KeyError, first_run_state)) by reflexivity.
  assert (H3 : recovered first_run_state = false) by reflexivity.
  assert (H4 : is_Some (db first_run_state)) by (eexists; reflexivity).
  assert (H5 : fst (as_storable_dict first_run_state) = Ok users_doc)
    by (vm_compute; reflexivity).
  split; [exact H1|]. split; [exact H2|]. split; [exact H3|].
  split; [exact H4|]. split; [exact H5|].
  exact (body_exception_still_refreshes seed0 false (raise KeyError)
           first_run_state first_run_state KeyError users_doc
           H1 H2 H1 H3 H4 H5).
Defined.

(** *** The schema statement read back *)

Lemma all_chars_app (p : ascii -> bool) (a b : string) :
  all_chars p (a +:+ b) = all_chars p a && all_chars p b.
Proof.
  induction a as [|x a IH]; [reflexivity|].
  rewrite sapp_cons. cbn [all_chars]. rewrite IH, andb_assoc. reflexivity.
Qed.

Lemma all_chars_impl (p q : ascii -> bool) (s : string) :
  (forall c, p c = true -> q c = true) ->
  all_chars p s = true -> all_chars q s = true.
Proof.
  intros Hpq. induction s as [|c s IH]; [reflexivity|].
  cbn [all_chars]. intros [Hc Hs]%andb_true_iff.
  rewrite (Hpq c Hc), (IH Hs). reflexivity.
Qed.

Lemma split_on_app (p : ascii -> bool) (a : string) (c : ascii) (b : string) :
  all_chars (fun x => negb (p x)) a = true -> p c = true ->
  split_on p (a +:+ String c b) = a :: split_on p b.
Proof.
  intros Ha Hc. induction a as [|x a IH].
  - rewrite sapp_nil_l. cbn [split_on]. rewrite Hc. reflexivity.
  - cbn [all_chars] in Ha. apply andb_true_iff in Ha as [Hx Ha].
    apply negb_true_iff in Hx.
    rewrite sapp_cons. cbn [split_on]. rewrite Hx, (IH Ha). reflexivity.
Qed.

Lemma split_on_clean (p : ascii -> bool) (s : string) :
  all_chars (fun x => negb (p x)) s = true -> split_on p s = [s].
Proof.
  induction s as [|x s IH]; [reflexivity|].
  cbn [all_chars]. intros [Hx Hs]%andb_true_iff.
  apply negb_true_iff in Hx. cbn [split_on]. rewrite Hx, (IH Hs). reflexivity.
Qed.

Lemma contains_sub_cons (sub : string) (a : ascii) (s : string) :
  contains_sub sub (String a s)
  = match strip_prefix sub (String a s) with
    | Some _ => true
    | None => contains_sub sub s
    end.
Proof. reflexivity. Qed.

(** A match of [kw] at the start of [x +:+ tail] lies in [x] or reaches
    into [tail]. *)
Lemma strip_prefix_across (kw x tail r : string) :
  strip_prefix kw (x +:+ tail) = Some r ->
  (exists r', strip_prefix kw x = Some r') \/ suffix_hits kw tail = true.
Proof.
  revert x r. induction kw as [|k kw IH]; intros x r Hs.
  - left. exists x. reflexivity.
  - destruct x as [|a x].
    + right. rewrite sapp_nil_l in Hs. cbn [suffix_hits]. rewrite Hs.
      reflexivity.
    + rewrite sapp_cons in Hs. cbn [strip_prefix] in Hs |- *.
      destruct (Ascii.eqb k a); [|discriminate].
      destruct (IH x r Hs) as [Hl|Hr]; [left; exact Hl|].
      right. cbn [suffix_hits]. rewrite Hr.
      destruct (strip_prefix (String k kw) tail); reflexivity.
Qed.

Lemma contains_sub_app (kw head tail : string) :
  contains_sub kw head = false -> suffix_hits kw tail = false ->
  contains_sub kw (head +:+ tail) = contains_sub kw tail.
Proof.
  intros Hhead Htail. induction head as [|a h IH].
  - rewrite sapp_nil_l. reflexivity.
  - rewrite contains_sub_cons in Hhead.
    destruct (strip_prefix kw (String a h)) as [r0|] eqn:H0; [discriminate|].
    rewrite sapp_cons, contains_sub_cons.
    destruct (strip_prefix kw (String a (h +:+ tail))) as [r|] eqn:E.
    + exfalso. rewrite <- sapp_cons in E.
      destruct (strip_prefix_across _ _ _ _ E) as [[r' Hr']|Hr]; congruence.
    + exact (IH Hhead).
Qed.

Lemma render_column_flags (c : ColumnSpec) :
  col_default c = None ->
  render_column c
  = (col_name c +:+ String " " (col_datatype c))
    +:+ flags_text (col_not_null c) (col_unique c) (col_primary_key c)
                   (col_autoincrement c).
Proof.
  intros Hd. unfold render_column, flags_text. rewrite Hd.
  rewrite !sapp_assoc. reflexivity.
Qed.

(** The flag words found in a column text are the flags that were
    written. *)
Lemma flags_found (head : string) (nn u pk ai : bool) :
  forallb (fun kw => negb (contains_sub kw head)) flag_keywords = true ->
  contains_sub "NOT NULL" (head +:+ flags_text nn u pk ai) = nn
  /\ contains_sub "UNIQUE" (head +:+ flags_text nn u pk ai) = u
  /\ contains_sub "AUTOINCREMENT" (head +:+ flags_text nn u pk ai) = pk && ai
  /\ contains_sub "PRIMARY KEY" (head +:+ flags_text nn u pk ai) = pk.
Proof.
  cbn [forallb flag_keywords].
  intros H.
  apply andb_true_iff in H as [H1 H]. apply andb_true_iff in H as [H2 H].
  apply andb_true_iff in H as [H3 H]. apply andb_true_iff in H as [H4 _].
  apply negb_true_iff in H1, H2, H3, H4.
  destruct nn, u, pk, ai;
    (split; [|split; [|split]]);
    (rewrite contains_sub_app;
     [vm_compute; reflexivity|assumption|vm_compute; reflexivity]).
Qed.

Lemma token_no_space (s : string) :
  all_chars token_char s = true ->
  all_chars (fun x => negb (py_isspace x)) s = true.
Proof.
  apply all_chars_impl. intros c Hc. unfold token_char in Hc.
  apply andb_true_iff in Hc as [Hc _]. exact Hc.
Qed.

Lemma flags_text_shape (nn u pk ai : bool) :
  flags_text nn u pk ai = EmptyString
  \/ exists t, flags_text nn u pk ai = String " " t.
Proof.
  destruct nn, u, pk, ai;
    first [left; reflexivity | right; eexists; vm_compute; reflexivity].
Qed.

(** The first two pieces of a column text are its name and datatype. *)
Lemma py_split_column (name dt tail : string) :
  is_token name = true -> is_token dt = true ->
  (tail = EmptyString \/ exists t, tail = String " " t) ->
  exists l, py_split ((name +:+ String " " dt) +:+ tail) = name :: dt :: l.
Proof.
  unfold is_token. intros [Hn1 Hn2]%andb_true_iff [Hd1 Hd2]%andb_true_iff Ht.
  apply token_no_space in Hn2, Hd2.
  unfold py_split. rewrite sapp_assoc, sapp_cons.
  rewrite (split_on_app py_isspace name " " (dt +:+ tail) Hn2 eq_refl).
  assert (Hname : Is_true (nonempty name)) by (rewrite Hn1; exact I).
  assert (Hdt : Is_true (nonempty dt)) by (rewrite Hd1; exact I).
  destruct Ht as [->|[t ->]].
  - rewrite sapp_nil_r, (split_on_clean py_isspace dt Hd2).
    exists []. rewrite filter_cons_True by exact Hname.
    rewrite filter_cons_True by exact Hdt. reflexivity.
  - rewrite (split_on_app py_isspace dt " " t Hd2 eq_refl).
    eexists. rewrite filter_cons_True by exact Hname.
    rewrite filter_cons_True by exact Hdt. reflexivity.
Qed.

Lemma plain_column_parts (c : ColumnSpec) :
  plain_column c = true ->
  is_token (col_name c) = true /\ is_token (col_datatype c) = true
  /\ forallb (fun kw => negb (contains_sub kw (col_name c +:+ String " " (col_datatype c))))
             flag_keywords = true
  /\ col_default c = None
  /\ implb (col_autoincrement c) (col_primary_key c) = true.
Proof.
  unfold plain_column.
  intros [[[[H1 H2]%andb_true_iff H3]%andb_true_iff H4]%andb_true_iff H5]%andb_true_iff.
  repeat split; try assumption.
  destruct (col_default c); [discriminate|reflexivity].
Qed.

(** The schema loop reads a plain column back from its text. *)
Lemma parse_column_render (c : ColumnSpec) :
  plain_column c = true ->
  parse_column (render_column c) = Ok (col_name c, PDict (column_data c)).
Proof.
  intros (Hn & Hd & Hkw & Hdef & Hai)%plain_column_parts.
  rewrite (render_column_flags c Hdef).
  destruct (py_split_column (col_name c) (col_datatype c)
              (flags_text (col_not_null c) (col_unique c) (col_primary_key c)
                          (col_autoincrement c)) Hn Hd (flags_text_shape _ _ _ _))
    as [l Hsplit].
  destruct (flags_found _ (col_not_null c) (col_unique c) (col_primary_key c)
              (col_autoincrement c) Hkw) as (F1 & F2 & F3 & F4).
  unfold parse_column. rewrite Hsplit, F1, F2, F3, F4.
  unfold column_data. rewrite Hdef.
  destruct (col_not_null c), (col_unique c), (col_primary_key c),
    (col_autoincrement c); try discriminate Hai; reflexivity.
Qed.

Lemma parse_columns_render (cols : list ColumnSpec) (acc : pydict) :
  forallb plain_column cols = true ->
  NoDup (dict_keys acc ++ map col_name cols) ->
  parse_columns (map render_column cols) acc
  = Ok (acc ++ map (fun c => (col_name c, PDict (column_data c))) cols).
Proof.
  revert acc. induction cols as [|c cols IH]; intros acc Hplain Hnd.
  - cbn [map parse_columns]. rewrite List.app_nil_r. reflexivity.
  - cbn [forallb] in Hplain. apply andb_true_iff in Hplain as [Hc Hplain].
    cbn [map parse_columns]. rewrite (parse_column_render c Hc).
    cbn [rbind fst snd].
    assert (Hfresh : col_name c ∉ dict_keys acc).
    { apply NoDup_app in Hnd as (_ & Hdis & _).
      intros Hin. apply (Hdis _ Hin). left. }
    rewrite (dict_set_fresh _ _ _ Hfresh).
    rewrite IH.
    + rewrite <- app_assoc. reflexivity.
    + exact Hplain.
    + unfold dict_keys. rewrite map_app. cbn [map fst].
      rewrite <- app_assoc. exact Hnd.
Qed.

Lemma rstrip_keep (s : string) (d : ascii) :
  last_char s = Some d -> py_isspace d = false -> rstrip s = s.
Proof.
  intros Hlast Hd. induction s as [|c s IH]; [reflexivity|].
  cbn [rstrip]. destruct s as [|c' s'].
  - cbn [last_char] in Hlast. injection Hlast as ->.
    cbn [rstrip]. rewrite Hd. reflexivity.
  - rewrite (IH Hlast). cbn [nonempty negb]. rewrite andb_false_r.
    reflexivity.
Qed.

Lemma last_char_token (s : string) :
  is_token s = true ->
  exists d, last_char s = Some d /\ py_isspace d = false.
Proof.
  unfold is_token. intros [Hne Hs]%andb_true_iff.
  induction s as [|c s IH]; [discriminate|].
  cbn [all_chars] in Hs. apply andb_true_iff in Hs as [Hc Hs].
  destruct s as [|c' s'].
  - exists c. split; [reflexivity|].
    unfold token_char in Hc. apply andb_true_iff in Hc as [Hc _].
    apply negb_true_iff in Hc. exact Hc.
  - apply (IH eq_refl Hs).
Qed.

Lemma token_inline (s : string) :
  all_chars token_char s = true -> all_chars inline_char s = true.
Proof.
  apply all_chars_impl. intros c. unfold token_char, inline_char.
  intros [Hs Hc]%andb_true_iff. rewrite Hc. cbn [andb].
  unfold is_newline. destruct (Ascii.eqb_spec c "010") as [->|_];
    [discriminate Hs|reflexivity].
Qed.

(** The text of a plain column has no comma and no line break, and
    neither starts nor ends with white space. *)
Lemma render_column_clean (c : ColumnSpec) :
  plain_column c = true -> clean_fragment (render_column c).
Proof.
  intros (Hn & Hd & _ & Hdef & _)%plain_column_parts.
  rewrite (render_column_flags c Hdef).
  destruct (last_char_token _ Hd) as (d & Hlast & Hdsp).
  unfold is_token in Hn, Hd.
  apply andb_true_iff in Hn as [Hn1 Hn2]. apply andb_true_iff in Hd as [Hd1 Hd2].
  split; [|split].
  - rewrite !all_chars_app. cbn [all_chars].
    rewrite (token_inline _ Hn2), (token_inline _ Hd2).
    destruct (col_not_null c), (col_unique c), (col_primary_key c),
      (col_autoincrement c); vm_compute; reflexivity.
  - destruct (col_name c) as [|c0 n]; [discriminate|].
    cbn [all_chars] in Hn2. apply andb_true_iff in Hn2 as [Hc0 _].
    unfold token_char in Hc0. apply andb_true_iff in Hc0 as [Hc0 _].
    apply negb_true_iff in Hc0.
    rewrite !sapp_cons. cbn [lstrip]. rewrite Hc0. reflexivity.
  - destruct (col_datatype c) as [|d0 dt] eqn:Hdt; [discriminate|].
    destruct (flags_text_shape (col_not_null c) (col_unique c)
                (col_primary_key c) (col_autoincrement c)) as [->|[t Ht]].
    + rewrite sapp_nil_r. apply (rstrip_keep _ d); [|exact Hdsp].
      rewrite last_char_app. exact Hlast.
    + assert (Hl : exists e, last_char (String " " t) = Some e
                             /\ py_isspace e = false).
      { rewrite <- Ht.
        destruct (col_not_null c), (col_unique c), (col_primary_key c),
          (col_autoincrement c); try discriminate Ht;
          eexists; split; vm_compute; reflexivity. }
      destruct Hl as (e & Hle & He).
      rewrite Ht. apply (rstrip_keep _ e); [|exact He].
      rewrite sapp_assoc, sapp_cons.
      rewrite last_char_app.
      change (last_char (String " " (String d0 dt +:+ String " " t))
              = Some e).
      rewrite <- sapp_cons.
      replace (String " " (String d0 dt) +:+ String " " t)
        with ((String " " (String d0 dt)) +:+ String " " t) by reflexivity.
      rewrite last_char_app. exact Hle.
Qed.

Lemma clean_no_comma (x : string) :
  all_chars inline_char x = true ->
  all_chars (fun c => negb (is_comma c)) x = true.
Proof.
  apply all_chars_impl. intros c. unfold inline_char.
  intros [Hc _]%andb_true_iff. exact Hc.
Qed.

Lemma split_on_comma_join (x : string) (xs : list string) :
  Forall clean_fragment (x :: xs) ->
  split_on is_comma (join ", " (x :: xs)) = x :: map (String " ") xs.
Proof.
  revert x. induction xs as [|y xs IH]; intros x Hall.
  - cbn [join map]. apply split_on_clean, clean_no_comma.
    apply Forall_cons in Hall as [(Hx & _) _]. exact Hx.
  - apply Forall_cons in Hall as [(Hx & _) Hall].
    change (join ", " (x :: y :: xs))
      with (x +:+ ", " +:+ join ", " (y :: xs)).
    change (x +:+ ", " +:+ join ", " (y :: xs))
      with (x +:+ String "," (String " " (join ", " (y :: xs)))).
    rewrite (split_on_app is_comma x "," _ (clean_no_comma _ Hx) eq_refl).
    cbn [split_on]. change (is_comma " ") with false. cbn iota.
    rewrite (IH y Hall). reflexivity.
Qed.

(** Splitting the column list of a create statement on commas and
    stripping the pieces gives the column texts back. *)
Lemma column_fragments_join (x : string) (xs : list string) :
  Forall clean_fragment (x :: xs) ->
  column_fragments (join ", " (x :: xs)) = x :: xs.
Proof.
  intros Hall. unfold column_fragments.
  rewrite (split_on_comma_join x xs Hall).
  apply Forall_cons in Hall as [(_ & Hl & Hr) Hall].
  cbn [map]. unfold py_strip at 1. rewrite Hl, Hr. f_equal.
  induction Hall as [|y ys (_ & Hly & Hry) _ IH]; [reflexivity|].
  cbn [map]. rewrite IH. f_equal.
  unfold py_strip. cbn [lstrip]. change (py_isspace " ") with true.
  cbn iota. rewrite Hly, Hry. reflexivity.
Qed.

Lemma all_chars_join (p : ascii -> bool) (sep : string) (xs : list string) :
  all_chars p sep = true -> Forall (fun x => all_chars p x = true) xs ->
  all_chars p (join sep xs) = true.
Proof.
  intros Hsep Hall. induction Hall as [|x xs Hx Hxs IH]; [reflexivity|].
  destruct xs as [|y ys]; [exact Hx|].
  change (join sep (x :: y :: ys)) with (x +:+ sep +:+ join sep (y :: ys)).
  rewrite !all_chars_app, Hx, Hsep, IH. reflexivity.
Qed.

Lemma no_newline_chars (s : string) :
  all_chars (fun c => negb (is_newline c)) s = true ->
  contains_char "010" s = false.
Proof.
  induction s as [|c s IH]; [reflexivity|].
  cbn [all_chars contains_char]. intros [Hc Hs]%andb_true_iff.
  rewrite (IH Hs), orb_false_r. apply negb_true_iff in Hc.
  unfold is_newline in Hc. rewrite Ascii.eqb_sym. exact Hc.
Qed.

Lemma word_not_newline (c : ascii) :
  is_word c = true -> negb (is_newline c) = true.
Proof.
  unfold is_newline. destruct (Ascii.eqb_spec c "010") as [->|_];
    [discriminate|reflexivity].
Qed.

Lemma inline_not_newline (c : ascii) :
  inline_char c = true -> negb (is_newline c) = true.
Proof. unfold inline_char. intros [_ H]%andb_true_iff. exact H. Qed.

Lemma one_line_clean (s : string) :
  all_chars (fun c => negb (is_newline c)) s = true -> one_line s = s.
Proof.
  intros Hs. unfold one_line. rewrite (split_on_clean is_newline s Hs).
  reflexivity.
Qed.

(** The create statement of a plain table and what the schema loop reads
    from it. *)
Lemma render_create_reads_back (t : TableSpec) :
  plain_table t = true ->
  NoDup (map col_name (table_columns t)) ->
  columns_data t
  = PDict (map (fun c => (col_name c, PDict (column_data c))) (table_columns t))
  /\ create_statement_from_data (table_name t) (columns_data t)
     = Ok (render_create t)
  /\ parse_create_table (render_create t)
     = Ok (table_name t,
           map (fun c => (col_name c, PDict (column_data c))) (table_columns t)).
Proof.
  unfold plain_table.
  intros [[[Hne Hword]%andb_true_iff Hcols]%andb_true_iff Hplain]%andb_true_iff Hnd.
  set (pairs := map (fun c => (col_name c, PDict (column_data c)))
                    (table_columns t)).
  assert (Hdata : columns_data t = PDict pairs).
  { unfold columns_data. rewrite dict_of_pairs_nodup; [reflexivity|].
    unfold dict_keys. rewrite map_map. exact Hnd. }
  split; [exact Hdata|]. split.
  { rewrite Hdata. unfold create_statement_from_data, pairs.
    rewrite rmap_columns. reflexivity. }
  assert (Hclean : Forall clean_fragment (map render_column (table_columns t))).
  { apply Forall_map, Forall_forall. intros c Hc.
    apply render_column_clean.
    rewrite forallb_forall in Hplain. apply Hplain.
    apply list_elem_of_In. exact Hc. }
  set (body := join ", " (map render_column (table_columns t))).
  assert (Hbody : all_chars (fun c => negb (is_newline c)) body = true).
  { apply all_chars_join; [reflexivity|].
    eapply Forall_impl; [exact Hclean|].
    intros x (Hx & _). cbn beta.
    apply (all_chars_impl inline_char); [exact inline_not_newline|exact Hx]. }
  assert (Hname : all_chars (fun c => negb (is_newline c)) (table_name t)
                  = true).
  { apply (all_chars_impl is_word); [exact word_not_newline|exact Hword]. }
  assert (Hone : one_line (render_create t) = render_create t).
  { apply one_line_clean. unfold render_create. fold body.
    rewrite !all_chars_app, Hname, Hbody. reflexivity. }
  assert (Hmatch : create_re_match (render_create t)
                   = Some (table_name t, body)).
  { apply create_re_match_shape. unfold create_shape.
    split; [exact Hne|]. split; [exact Hword|].
    split; [exact (no_newline_chars _ Hbody)|].
    exists ";", EmptyString.
    split; [right; reflexivity|]. split; [left; reflexivity|].
    reflexivity. }
  unfold parse_create_table. rewrite Hone, Hmatch. unfold body.
  destruct (table_columns t) as [|c cols] eqn:Hc; [discriminate|].
  cbn [map] in Hclean |- *.
  rewrite (column_fragments_join _ _ Hclean).
  change (render_column c :: map render_column cols)
    with (map render_column (c :: cols)).
  rewrite (parse_columns_render (c :: cols) []); [reflexivity|exact Hplain|].
  exact Hnd.
Qed.

(** X18: the schema loop of [as_storable_dict] reads back what
    [create_statement_from_data] writes.  For a table with distinct
    column names whose name is made of word characters and whose columns,
    at least one, are plain (name and datatype without white space or
    comma, no flag word inside them, no default, [autoincrement] only
    with [primary_key]), the create statement is built and
    [parse_create_table] gives back the table name and the columns dict
    the statement was built from. *)
Theorem schema_statement_round_trip (t : TableSpec) :
  plain_table t = true ->
  NoDup (map col_name (table_columns t)) ->
  exists sql columns,
    columns_data t = PDict columns
    /\ create_statement_from_data (table_name t) (columns_data t) = Ok sql
    /\ parse_create_table sql = Ok (table_name t, columns).
Proof.
  intros Hplain Hnd.
  destruct (render_create_reads_back t Hplain Hnd) as (Hdata & Hsql & Hparse).
  eexists _, _. split; [exact Hdata|]. split; [exact Hsql|exact Hparse].
Qed.

Lemma schema_statement_round_trip_witness :
  plain_table users_spec = true
  /\ NoDup (map col_name (table_columns users_spec))
  /\ exists sql columns,
       columns_data users_spec = PDict columns
       /\ create_statement_from_data (table_name users_spec)
            (columns_data users_spec) = Ok sql
       /\ parse_create_table sql = Ok (table_name users_spec, columns).
Proof.
  assert (H1 : plain_table users_spec = true) by (vm_compute; reflexivity).
  assert (H2 : NoDup (map col_name (table_columns users_spec))).
  { apply (bool_decide_unpack _). vm_compute. exact I. }
  split; [exact H1|]. split; [exact H2|].
  exact (schema_statement_round_trip users_spec H1 H2).
Defined.

Lemma parse_sources_render (ts : list (TableSpec * pyval)) (acc : pydict) :
  Forall (fun tr => plain_table (fst tr) = true
                    /\ NoDup (map col_name (table_columns (fst tr)))) ts ->
  NoDup (dict_keys acc ++ map (fun tr => table_name (fst tr)) ts) ->
  parse_sources (map (fun tr => render_create (fst tr)) ts) acc
  = Ok (acc ++ map (fun tr => table_entry (fst tr) (PList [])) ts).
Proof.
  intros Hall. revert acc.
  induction Hall as [|[t r] ts [Hplain Hcols] _ IH]; intros acc Hnd.
  - cbn [map parse_sources]. rewrite List.app_nil_r. reflexivity.
  - cbn [fst] in Hplain, Hcols. cbn [map parse_sources fst snd].
    destruct (render_create_reads_back t Hplain Hcols) as (Hdata & _ & Hparse).
    rewrite Hparse. cbn [rbind fst snd].
    assert (Hfresh : table_name t ∉ dict_keys acc).
    { apply NoDup_app in Hnd as (_ & Hdis & _).
      intros Hin. apply (Hdis _ Hin). left. }
    rewrite (dict_set_fresh _ _ _ Hfresh), IH.
    + rewrite <- app_assoc. unfold table_entry. rewrite Hdata. reflexivity.
    + unfold dict_keys. rewrite map_app. cbn [map fst].
      rewrite <- app_assoc. exact Hnd.
Qed.

(** X19: the create statements a restore builds from a backup of plain
    tables with distinct names, whatever their rows, are read back by the
    schema loop of [as_storable_dict] as the same tables in the same
    order, each with the columns dict of the backup and an empty row
    list. *)
Theorem restored_schema_reads_back (ts : list (TableSpec * pyval)) :
  Forall (fun tr => plain_table (fst tr) = true
                    /\ NoDup (map col_name (table_columns (fst tr)))) ts ->
  NoDup (map (fun tr => table_name (fst tr)) ts) ->
  exists creates,
    create_statements_of (map (fun tr => table_entry (fst tr) (snd tr)) ts)
    = Ok creates
    /\ parse_sources creates []
       = Ok (map (fun tr => table_entry (fst tr) (PList [])) ts).
Proof.
  intros Hall Hnd. exists (map (fun tr => render_create (fst tr)) ts). split.
  - unfold create_statements_of. clear Hnd.
    induction Hall as [|[t r] ts [Hplain Hcols] _ IH]; [reflexivity|].
    cbn [fst] in Hplain, Hcols. cbn [map rmap fst snd].
    destruct (render_create_reads_back t Hplain Hcols) as (_ & Hsql & _).
    assert (E : call_create_statement_from_data (fst (table_entry t r))
                  (snd (table_entry t r)) = Ok (render_create t))
      by (rewrite <- Hsql; reflexivity).
    rewrite E. cbn [rbind]. rewrite IH. reflexivity.
  - apply (parse_sources_render ts [] Hall). exact Hnd.
Qed.

Lemma restored_schema_reads_back_witness :
  Forall (fun tr => plain_table (fst tr) = true
                    /\ NoDup (map col_name (table_columns (fst tr))))
         [(users_spec, PList [PDict [("id", PInt 1); ("name", PStr "Alice")]])]
  /\ NoDup (map (fun tr : TableSpec * pyval => table_name (fst tr))
                [(users_spec, PList [PDict [("id", PInt 1); ("name", PStr "Alice")]])])
  /\ exists creates,
       create_statements_of
         (map (fun tr => table_entry (fst tr) (snd tr))
              [(users_spec, PList [PDict [("id", PInt 1); ("name", PStr "Alice")]])])
       = Ok creates
       /\ parse_sources creates []
          = Ok (map (fun tr => table_entry (fst tr) (PList []))
                    [(users_spec, PList [PDict [("id", PInt 1); ("name", PStr "Alice")]])]).
Proof.
  assert (H1 : Forall (fun tr => plain_table (fst tr) = true
                    /\ NoDup (map col_name (table_columns (fst tr))))
         [(users_spec, PList [PDict [("id", PInt 1); ("name", PStr "Alice")]])]).
  { constructor; [|constructor]. split; [vm_compute; reflexivity|].
    apply (bool_decide_unpack _). vm_compute. exact I. }
  assert (H2 : NoDup (map (fun tr : TableSpec * pyval => table_name (fst tr))
                [(users_spec, PList [PDict [("id", PInt 1); ("name", PStr "Alice")]])])).
  { apply (bool_decide_unpack _). vm_compute. exact I. }
  split; [exact H1|]. split; [exact H2|].
  exact (restored_schema_reads_back _ H1 H2).
Defined.

(** *** Catalog entries the schema loop cannot read *)

Section Malformed.
Context `{Engine} `{Calendar}.
Variable secret : hash_secret.

Lemma parse_sources_app (a b : list string) (data : pydict) :
  parse_sources (a ++ b) data
  = rbind (parse_sources a data) (parse_sources b).
Proof.
  revert data. induction a as [|sql a IH]; intros data; [reflexivity|].
  cbn [app parse_sources].
  destruct (parse_create_table sql) as [nc|e]; [|reflexivity].
  cbn [rbind]. apply IH.
Qed.

(** X20: when the catalog of the live store holds an entry the
    create-table pattern does not match (the schema query also returns
    the texts of indexes, views and triggers) and the entries before it
    can be read, [as_storable_dict] raises the malformed-SQL exception
    for that entry before any table is read, so the store can neither be
    compared with the backup nor backed up, and the backup file stays as
    it was. *)
Theorem save_backup_malformed_catalog
  (s : state) (st : store) (t : Z) (pre post : list string) (sql : string)
  (data0 : pydict) :
  db s = Some (st, t) ->
  catalog st = pre ++ sql :: post ->
  parse_sources pre [] = Ok data0 ->
  create_re_match (one_line sql) = None ->
  as_storable_dict s = (Raise (MalformedSQL (one_line sql)), s)
  /\ backup_is_same secret s = (Raise (MalformedSQL (one_line sql)), s)
  /\ save_backup s
     = (Raise (MalformedSQL (one_line sql)), add_event Refresh s).
Proof.
  intros Hdb Hcat Hpre Hno.
  assert (Hparse : parse_sources (catalog st) []
                   = Raise (MalformedSQL (one_line sql))).
  { rewrite Hcat, parse_sources_app, Hpre. cbn [rbind parse_sources].
    unfold parse_create_table. rewrite Hno. reflexivity. }
  assert (E : forall s0, db s0 = Some (st, t) ->
                as_storable_dict s0 = (Raise (MalformedSQL (one_line sql)), s0)).
  { intros s0 Hdb0. unfold as_storable_dict.
    unfold bind at 1. unfold query_catalog, bind at 1, connect. rewrite Hdb0.
    destruct (catalog st) as [|x xs] eqn:Hc.
    - destruct pre; discriminate Hcat.
    - cbn [ret]. rewrite bind_lift, Hparse. reflexivity. }
  split; [apply E; exact Hdb|]. split.
  - unfold backup_is_same, hash. apply bind_raise, bind_raise, E. exact Hdb.
  - unfold save_backup. rewrite bind_modify. apply bind_raise, E. exact Hdb.
Qed.

End Malformed.

Lemma save_backup_malformed_catalog_witness :
  let s := fresh_state (Some (indexed_store, 100)) None [] 300 in
  db s = Some (indexed_store, 100)
  /\ catalog indexed_store
     = ["CREATE TABLE t (a INTEGER)"] ++ "CREATE INDEX i ON t (a)" :: []
  /\ parse_sources ["CREATE TABLE t (a INTEGER)"] []
     = Ok [("t", PDict [("rows", PList []);
                        ("columns",
                         PDict [("a", PDict [("datatype", PStr "INTEGER")])])])]
  /\ create_re_match (one_line "CREATE INDEX i ON t (a)") = None
  /\ as_storable_dict s
     = (Raise (MalformedSQL (one_line "CREATE INDEX i ON t (a)")), s)
  /\ backup_is_same seed0 s
     = (Raise (MalformedSQL (one_line "CREATE INDEX i ON t (a)")), s)
  /\ save_backup s
     = (Raise (MalformedSQL (one_line "CREATE INDEX i ON t (a)")),
        add_event Refresh s).
Proof.
  intros s.
  assert (H1 : db s = Some (indexed_store, 100)) by reflexivity.
  assert (H2 : catalog indexed_store
               = ["CREATE TABLE t (a INTEGER)"]
                 ++ "CREATE INDEX i ON t (a)" :: []) by reflexivity.
  assert (H3 : parse_sources ["CREATE TABLE t (a INTEGER)"] []
     = Ok [("t", PDict [("rows", PList []);
                        ("columns",
                         PDict [("a", PDict [("datatype", PStr "INTEGER")])])])])
    by (vm_compute; reflexivity).
  assert (H4 : create_re_match (one_line "CREATE INDEX i ON t (a)") = None)
    by (vm_compute; reflexivity).
  split; [exact H1|]. split; [exact H2|]. split; [exact H3|].
  split; [exact H4|].
  exact (save_backup_malformed_catalog seed0 s indexed_store 100
           ["CREATE TABLE t (a INTEGER)"] [] "CREATE INDEX i ON t (a)" _
           H1 H2 H3 H4).
Defined.

(** *** Fingerprints within a run and across runs *)

Lemma w64_range (x : Z) : 0 <= w64 x < 2 ^ 64.
Proof.
  unfold w64, mask64.
  change (2 ^ 64 - 1) with (Z.ones 64).
  rewrite Z.land_ones by lia. apply Z.mod_pos_bound. lia.
Qed.

Lemma w64_idem (x : Z) : w64 (w64 x) = w64 x.
Proof. unfold w64. rewrite <- Z.land_assoc, Z.land_diag. reflexivity. Qed.

Lemma w64_fixed_range (x : Z) : w64 x = x -> 0 <= x < 2 ^ 64.
Proof. intros <-. apply w64_range. Qed.

Lemma w64_lxor (a b : Z) :
  w64 a = a -> w64 b = b -> w64 (Z.lxor a b) = Z.lxor a b.
Proof.
  intros Ha Hb. unfold w64 in *.
  rewrite <- Ha, <- Hb at 2.
  apply Z.bits_inj'. intros n Hn.
  rewrite Z.land_spec, !Z.lxor_spec, !Z.land_spec.
  destruct (Z.testbit a n), (Z.testbit b n), (Z.testbit mask64 n);
    reflexivity.
Qed.

Lemma w64_rotl64 (x b : Z) : w64 (rotl64 x b) = rotl64 x b.
Proof. unfold rotl64. apply w64_idem. Qed.

(** Every round of SipHash leaves four 64-bit words. *)
Lemma single_round_words (s : sipstate) :
  w64 (v0 (single_round s)) = v0 (single_round s)
  /\ w64 (v1 (single_round s)) = v1 (single_round s)
  /\ w64 (v2 (single_round s)) = v2 (single_round s)
  /\ w64 (v3 (single_round s)) = v3 (single_round s).
Proof.
  destruct s as [a b c d]. unfold single_round. cbn [v0 v1 v2 v3].
  repeat split;
    repeat first [ apply w64_idem | apply w64_rotl64 | apply w64_lxor ].
Qed.

Lemma siphash13_range (k0 k1 : Z) (src : list Z) :
  0 <= siphash13 k0 k1 src < 2 ^ 64.
Proof.
  unfold siphash13.
  destruct (sip_blocks _ _ _) as [s tail]. cbv zeta.
  match goal with
  | |- context [single_round (single_round (single_round ?x))] =>
      destruct (single_round_words (single_round (single_round x)))
        as (H0 & H1 & H2 & H3)
  end.
  apply w64_fixed_range.
  apply w64_lxor; apply w64_lxor; assumption.
Qed.

(** The built-in hash is a signed 64-bit number. *)
Lemma py_hash_range (key : hash_secret) (s : string) :
  - 2 ^ 63 <= py_hash key s < 2 ^ 63.
Proof.
  unfold py_hash. destruct s as [|c s]; [lia|].
  pose proof (siphash13_range (k0 key) (k1 key) (bytes_of_string (String c s)))
    as Hu.
  destruct (_ <? 2 ^ 63) eqn:Hlt.
  - apply Z.ltb_lt in Hlt. destruct (_ =? -1); lia.
  - apply Z.ltb_ge in Hlt.
    destruct (_ =? -1) eqn:He; [lia|]. lia.
Qed.

(** No function from the integers into a bounded range tells all
    integers apart. *)
Lemma bounded_not_injective (f : Z -> Z) (lo hi : Z) :
  (forall z, lo <= f z < hi) ->
  ~ (forall a b, a <> b -> f a <> f b).
Proof.
  intros Hrange Hinj.
  set (N := Z.to_nat (hi - lo)).
  set (g := fun i : nat => Z.to_nat (f (Z.of_nat i) - lo)).
  assert (Hnd : NoDup (g <$> seq 0 (S N))).
  { apply NoDup_fmap_2_strong; [|apply NoDup_seq].
    intros x y _ _ Hg. unfold g in Hg.
    pose proof (Hrange (Z.of_nat x)). pose proof (Hrange (Z.of_nat y)).
    destruct (decide (Z.of_nat x = Z.of_nat y)) as [Hxy|Hxy]; [lia|].
    exfalso. apply (Hinj _ _ Hxy). lia. }
  assert (Hsub : g <$> seq 0 (S N) ⊆+ seq 0 N).
  { apply NoDup_submseteq; [exact Hnd|].
    intros n Hn. apply list_elem_of_fmap in Hn as (i & -> & _).
    apply elem_of_seq. unfold g, N. pose proof (Hrange (Z.of_nat i)). lia. }
  apply submseteq_length in Hsub.
  rewrite length_fmap, !length_seq in Hsub. lia.
Qed.

(** Under every hash secret some two different documents have the same
    fingerprint. *)
Lemma fingerprint_collides (key : hash_secret) :
  ~ (forall d1 d2 : pyval,
       d1 <> d2 -> hash_of_storable key d1 <> hash_of_storable key d2).
Proof.
  intros Hinj.
  apply (bounded_not_injective (fun z => hash_of_storable key (PInt z))
           (- 2 ^ 63) (2 ^ 63)).
  - intros z. apply py_hash_range.
  - intros a b Hab. apply Hinj. congruence.
Qed.

Section TwoRuns.
Context `{Engine} `{Calendar}.
Variable dummy : bool.

Lemma steady_bind {A B} (m : M A) (f : A -> M B) :
  steady m -> (forall a, steady (f a)) -> steady (bind m f).
Proof.
  intros Hm Hf s Hs. unfold bind. specialize (Hm s Hs).
  destruct (m s) as [[a|e] s1]; cbn [snd] in Hm; subst s1.
  - apply Hf. exact Hs.
  - reflexivity.
Qed.

Lemma steady_ret {A} (a : A) : steady (ret a).
Proof. intros s _. reflexivity. Qed.

Lemma steady_as_storable_dict : steady as_storable_dict.
Proof. intros s Hs. apply (db_only_as_storable_dict s s Hs eq_refl). Qed.

Lemma steady_read_backup : steady read_backup.
Proof.
  intros s _. unfold read_backup. destruct (backup s) as [[text t]|];
    reflexivity.
Qed.

Lemma steady_backup_mtime : steady backup_mtime.
Proof.
  intros s _. unfold backup_mtime. destruct (backup s) as [[text t]|];
    reflexivity.
Qed.

Lemma steady_mtime : steady mtime.
Proof.
  intros s _. unfold mtime. destruct (db s) as [[st t]|]; reflexivity.
Qed.

Lemma steady_backup_is_same (k : hash_secret) : steady (backup_is_same k).
Proof.
  unfold backup_is_same, hash, backed_up_hash.
  repeat first
    [ apply steady_ret | apply steady_as_storable_dict
    | apply steady_read_backup
    | apply steady_bind; [|intros ?] ].
Qed.

Lemma steady_backup_is_newer (k : hash_secret) : steady (backup_is_newer k).
Proof.
  unfold backup_is_newer.
  apply steady_bind; [apply steady_backup_is_same|intros same].
  destruct same; [apply steady_ret|].
  apply steady_bind; [apply steady_backup_mtime|intros bm].
  apply steady_bind; [apply steady_mtime|intros m]. apply steady_ret.
Qed.

(** The answer of [backup_is_same] from the two documents. *)
Lemma backup_is_same_answer (k : hash_secret) (s : state) :
  is_Some (db s) ->
  fst (backup_is_same k s)
  = rbind (fst (as_storable_dict s))
      (fun data =>
         rbind (fst (read_backup s))
           (fun bdata =>
              Ok (hash_of_storable k data =? hash_of_storable k bdata))).
Proof.
  intros Hs. unfold backup_is_same, hash, backed_up_hash, bind.
  pose proof (steady_as_storable_dict s Hs) as Hst.
  destruct (as_storable_dict s) as [[data|e] s1]; cbn [fst snd] in *;
    [|reflexivity].
  subst s1. cbn [ret].
  unfold read_backup. destruct (backup s) as [[text t]|]; [|reflexivity].
  destruct (json_loads text); reflexivity.
Qed.

Section Agree.
Variables (k1 k2 : hash_secret) (s : state).
Hypothesis no_collision :
  forall data bdata,
    fst (as_storable_dict s) = Ok data -> fst (read_backup s) = Ok bdata ->
    data <> bdata ->
    hash_of_storable k1 data <> hash_of_storable k1 bdata
    /\ hash_of_storable k2 data <> hash_of_storable k2 bdata.

Lemma same_agree :
  is_Some (db s) -> backup_is_same k1 s = backup_is_same k2 s.
Proof.
  intros Hs.
  assert (Hfst : fst (backup_is_same k1 s) = fst (backup_is_same k2 s)).
  { rewrite !backup_is_same_answer by exact Hs.
    destruct (fst (as_storable_dict s)) as [data|e] eqn:Hd; [|reflexivity].
    destruct (fst (read_backup s)) as [bdata|e] eqn:Hb; [|reflexivity].
    cbn [rbind]. f_equal.
    destruct (hash_of_storable k1 data =? hash_of_storable k1 bdata) eqn:E1,
      (hash_of_storable k2 data =? hash_of_storable k2 bdata) eqn:E2;
      try reflexivity; exfalso.
    - assert (Hne : data <> bdata)
        by (intros ->; rewrite Z.eqb_refl in E2; discriminate).
      destruct (no_collision data bdata eq_refl eq_refl Hne) as [N1 _].
      apply Z.eqb_eq in E1. exact (N1 E1).
    - assert (Hne : data <> bdata)
        by (intros ->; rewrite Z.eqb_refl in E1; discriminate).
      destruct (no_collision data bdata eq_refl eq_refl Hne) as [_ N2].
      apply Z.eqb_eq in E2. exact (N2 E2). }
  pose proof (steady_backup_is_same k1 s Hs) as S1.
  pose proof (steady_backup_is_same k2 s Hs) as S2.
  destruct (backup_is_same k1 s) as [r1 s1], (backup_is_same k2 s) as [r2 s2].
  cbn [fst snd] in *. congruence.
Qed.

Lemma newer_agree :
  is_Some (db s) -> backup_is_newer k1 s = backup_is_newer k2 s.
Proof.
  intros Hs. unfold backup_is_newer, bind. rewrite (same_agree Hs).
  reflexivity.
Qed.

Lemma older_agree :
  is_Some (db s) -> backup_is_older k1 s = backup_is_older k2 s.
Proof.
  intros Hs. unfold backup_is_older, bind. rewrite (newer_agree Hs).
  reflexivity.
Qed.

Lemma enter_agree :
  maybe_load_backup dummy k1 s = maybe_load_backup dummy k2 s.
Proof.
  unfold maybe_load_backup, backup_path_exists, path_exists.
  rewrite !bind_gets.
  destruct (bool_decide (is_Some (backup s))); cbn [negb]; [|reflexivity].
  rewrite !bind_gets.
  destruct (bool_decide (is_Some (db s))) eqn:Hd; cbn [negb]; [|reflexivity].
  apply bool_decide_eq_true in Hd.
  unfold bind. rewrite (newer_agree Hd). reflexivity.
Qed.

(** After an enter step that returns, either nothing has changed and the
    exit step can do without creating a store, or the object is marked
    recovered. *)
Lemma enter_outcome (k : hash_secret) (s1 : state) :
  maybe_load_backup dummy k s = (Ok tt, s1) ->
  (s1 = s /\ (backup s = None \/ is_Some (db s))) \/ recovered s1 = true.
Proof.
  unfold maybe_load_backup, backup_path_exists, path_exists.
  rewrite bind_gets.
  destruct (backup s) as [b|] eqn:Hb.
  2:{ rewrite bool_decide_false by (intros [x Hx]; discriminate).
      cbn [negb ret]. intros [= <-]. left. auto. }
  rewrite bool_decide_true by (eexists; reflexivity). cbn [negb].
  rewrite bind_gets.
  assert (Hload : load_backup dummy s = (Ok tt, s1) -> recovered s1 = true).
  { intros E. destruct (load_backup_log dummy s) as [_ Hr].
    rewrite E in Hr. apply Hr. reflexivity. }
  destruct (bool_decide (is_Some (db s))) eqn:Hd; cbn [negb].
  2:{ intros E. right. exact (Hload E). }
  apply bool_decide_eq_true in Hd.
  unfold bind. pose proof (steady_backup_is_newer k s Hd) as Hst.
  destruct (backup_is_newer k s) as [[newer|e] s2]; cbn [snd] in Hst;
    subst s2; [|discriminate].
  destruct newer.
  - intros E. right. exact (Hload E).
  - cbn [ret]. intros [= <-]. left. auto.
Qed.

Lemma exit_agree :
  backup s = None \/ is_Some (db s) ->
  maybe_save_backup k1 s = maybe_save_backup k2 s.
Proof.
  intros Hs. unfold maybe_save_backup, backup_path_exists.
  rewrite !bind_gets. destruct (recovered s); [reflexivity|].
  rewrite !bind_gets.
  destruct (bool_decide (is_Some (backup s))) eqn:Hb; cbn [negb];
    [|reflexivity].
  apply bool_decide_eq_true in Hb.
  destruct Hs as [Hnone|Hd]; [rewrite Hnone in Hb; destruct Hb; discriminate|].
  unfold bind. rewrite (older_agree Hd). reflexivity.
Qed.

Lemma main_agree : main dummy k1 s = main dummy k2 s.
Proof.
  unfold main, with_database. rewrite enter_agree.
  destruct (maybe_load_backup dummy k2 s) as [[[]|e] s1] eqn:E;
    [|reflexivity].
  cbn [ret].
  destruct (enter_outcome k2 s1 E) as [[-> Hs]|Hrec].
  - rewrite (exit_agree Hs). reflexivity.
  - rewrite !maybe_save_backup_recovered by exact Hrec. reflexivity.
Qed.
End Agree.

(** C4 (amended): the two fingerprints a pass compares are computed in
    the same run, under the same hash secret.  Two runs of a pass on the
    same files under any two secrets take the same decisions and end in
    the same state, provided that in neither run the document of the live
    store and a different document in the backup have the same
    fingerprint; when the two documents are equal nothing is asked.
    Such collisions cannot be excluded: under every secret some two
    different documents have the same fingerprint. *)
Theorem fingerprints_compared_within_one_run
  (k1 k2 : hash_secret) (s : state) :
  (forall data bdata,
     fst (as_storable_dict s) = Ok data -> fst (read_backup s) = Ok bdata ->
     data <> bdata ->
     hash_of_storable k1 data <> hash_of_storable k1 bdata
     /\ hash_of_storable k2 data <> hash_of_storable k2 bdata) ->
  main dummy k1 s = main dummy k2 s
  /\ ~ (forall d1 d2 : pyval,
          d1 <> d2 -> hash_of_storable k1 d1 <> hash_of_storable k1 d2).
Proof.
  intros Hno. split.
  - apply main_agree. exact Hno.
  - apply fingerprint_collides.
Qed.

End TwoRuns.

(** Two runs, under the hash seeds 1 and 2, over the [users] store and a
    newer backup with one more row: the fingerprints are four different
    numbers, and both runs restore. *)
Lemma fingerprints_compared_within_one_run_witness :
  (forall data bdata,
     fst (as_storable_dict two_runs_state) = Ok data ->
     fst (read_backup two_runs_state) = Ok bdata ->
     data <> bdata ->
     hash_of_storable (hash_secret_of_seed 1) data
     <> hash_of_storable (hash_secret_of_seed 1) bdata
     /\ hash_of_storable (hash_secret_of_seed 2) data
        <> hash_of_storable (hash_secret_of_seed 2) bdata)
  /\ main false (hash_secret_of_seed 1) two_runs_state
     = main false (hash_secret_of_seed 2) two_runs_state
  /\ ~ (forall d1 d2 : pyval,
          d1 <> d2 ->
          hash_of_storable (hash_secret_of_seed 1) d1
          <> hash_of_storable (hash_secret_of_seed 1) d2).
Proof.
  assert (Hno : forall data bdata,
     fst (as_storable_dict two_runs_state) = Ok data ->
     fst (read_backup two_runs_state) = Ok bdata ->
     data <> bdata ->
     hash_of_storable (hash_secret_of_seed 1) data
     <> hash_of_storable (hash_secret_of_seed 1) bdata
     /\ hash_of_storable (hash_secret_of_seed 2) data
        <> hash_of_storable (hash_secret_of_seed 2) bdata).
  { intros data bdata Hd Hb _.
    assert (Ed : fst (as_storable_dict two_runs_state) = Ok users_doc)
      by (vm_compute; reflexivity).
    assert (Eb : fst (read_backup two_runs_state) = Ok users_doc2)
      by (vm_compute; reflexivity).
    rewrite Ed in Hd. rewrite Eb in Hb.
    injection Hd as <-. injection Hb as <-.
    split; vm_compute; discriminate. }
  split; [exact Hno|].
  exact (fingerprints_compared_within_one_run false
           (hash_secret_of_seed 1) (hash_secret_of_seed 2) two_runs_state Hno).
Defined.

(** *** The copy a restore sets aside *)

Section Copies.
Context `{Engine} `{Calendar}.
Variable dummy : bool.

Lemma keeps_copies_bind {A B} (m : M A) (f : A -> M B) :
  keeps_copies m -> (forall a, keeps_copies (f a)) -> keeps_copies (bind m f).
Proof.
  intros Hm Hf s. unfold bind. specialize (Hm s).
  destruct (m s) as [[a|e] s1]; cbn [snd] in Hm.
  - rewrite (Hf a s1). exact Hm.
  - exact Hm.
Qed.

Lemma keeps_copies_pure {A} (r : result A) :
  keeps_copies (fun s => (r, s)).
Proof. intros s. reflexivity. Qed.

Lemma keeps_copies_read_backup : keeps_copies read_backup.
Proof.
  intros s. unfold read_backup. destruct (backup s) as [[x t]|]; reflexivity.
Qed.

Lemma keeps_copies_execute_sql (cmd : command) :
  keeps_copies (execute_sql dummy cmd).
Proof.
  intros s. unfold execute_sql. destruct dummy; [reflexivity|].
  unfold bind, connect, commit, modify, raise.
  destruct (db s) as [[st t]|], cmd as [stmt|stmts];
    first [ destruct (execute stmt _) | destruct (run_batch stmts _) ];
    reflexivity.
Qed.

Lemma keeps_copies_for_each {A} (f : A -> M unit) (l : list A) :
  (forall a, keeps_copies (f a)) -> keeps_copies (for_each f l).
Proof.
  intros Hf. induction l as [|a l IH]; cbn [for_each].
  - apply (keeps_copies_pure (Ok tt)).
  - apply keeps_copies_bind; auto.
Qed.

Lemma dict_set_length_present {V} (k : string) (v old : V)
  (d : list (string * V)) :
  dict_get k d = Some old -> length (dict_set k v d) = length d.
Proof.
  induction d as [|[k' v'] d IH]; [discriminate|].
  cbn [dict_get dict_set]. destruct (String.eqb k k'); [reflexivity|].
  intros Hd. cbn [length]. rewrite (IH Hd). reflexivity.
Qed.

(** X21: whatever way a restore ends, the only trace of the live store
    it found is the [.bak] copy named by the current minute.  A copy that
    an earlier restore made in the same minute is overwritten: the
    number of copies stays the same and the copy of that minute holds the
    store this restore found, not the one the earlier restore had set
    aside. *)
Theorem load_backup_keeps_one_copy_a_minute
  (s : state) (st : store) (t : Z) :
  db s = Some (st, t) ->
  snapshots (snd (load_backup dummy s))
  = dict_set (today (clock s)) st (snapshots s)
  /\ forall old : store,
       dict_get (today (clock s)) (snapshots s) = Some old ->
       dict_get (today (clock s)) (snapshots (snd (load_backup dummy s)))
       = Some st
       /\ length (snapshots (snd (load_backup dummy s)))
          = length (snapshots s).
Proof.
  intros Hdb.
  assert (Hsnap : snapshots (snd (load_backup dummy s))
                  = dict_set (today (clock s)) st (snapshots s)).
  { unfold load_backup. rewrite bind_modify.
    unfold bind at 1. cbn [db add_event]. rewrite Hdb.
    match goal with
    | |- snapshots (snd (?rest ?s2)) = _ =>
        assert (Hrest : keeps_copies rest); [|rewrite (Hrest s2)]
    end.
    - apply keeps_copies_bind; [apply keeps_copies_read_backup|].
      intros backup_data.
      apply keeps_copies_bind; [apply keeps_copies_pure|]. intros items.
      apply keeps_copies_bind; [apply keeps_copies_pure|]. intros creates.
      apply keeps_copies_bind; [apply keeps_copies_execute_sql|]. intros _.
      apply keeps_copies_bind; [apply keeps_copies_pure|]. intros populates.
      apply keeps_copies_bind.
      + apply keeps_copies_for_each. intros b.
        apply keeps_copies_execute_sql.
      + intros _ s0. reflexivity.
    - reflexivity. }
  split; [exact Hsnap|].
  intros old Hold. rewrite Hsnap. split.
  - apply dict_get_dict_set_eq.
  - apply (dict_set_length_present _ _ old). exact Hold.
Qed.

End Copies.

(** A second restore at time 290 finds the [users] store; the copy of
    that minute, which held the store the first restore had set aside,
    now holds the [users] store. *)
Lemma load_backup_keeps_one_copy_a_minute_witness :
  db same_minute_state = Some (users_store, 250)
  /\ dict_get (today (clock same_minute_state)) (snapshots same_minute_state)
     = Some empty_table_store
  /\ snapshots (snd (load_backup false same_minute_state))
     = [(today 290, users_store)]
  /\ dict_get (today (clock same_minute_state))
       (snapshots (snd (load_backup false same_minute_state)))
     = Some users_store
  /\ length (snapshots (snd (load_backup false same_minute_state)))
     = length (snapshots same_minute_state).
Proof.
  assert (H1 : db same_minute_state = Some (users_store, 250)) by reflexivity.
  assert (H2 : dict_get (today (clock same_minute_state))
                 (snapshots same_minute_state) = Some empty_table_store)
    by (vm_compute; reflexivity).
  split; [exact H1|]. split; [exact H2|].
  destruct (load_backup_keeps_one_copy_a_minute false same_minute_state
              users_store 250 H1) as [Hs Hold].
  split; [rewrite Hs; vm_compute; reflexivity|].
  exact (Hold empty_table_store H2).
Defined.
